(** * Daily HUD: the check orchestration engine

    A shallow embedding of [daily_hud.py], [output.py], [secrets.py] and of
    the cache layer of [checks/domains.py] and [checks/containers.py],
    followed by the properties of the orchestration, aggregation,
    selection and cache code.

    Conventions.  Python dictionaries whose iteration order is observed are
    association lists; the others are [gmap]s.  A call that can raise is a
    value of [exc]; a function that reads and writes the file system
    threads an [fs] value.  What the program obtains from the outside world
    (WHOIS answers, scanner output, the 1Password CLI, completion times of
    the worker threads) is an explicit argument. *)

From Stdlib Require Import ZArith Lia Ascii String.
From stdpp Require Import base gmap strings list sorting pretty.

Set Warnings "-register-all".

Open Scope Z_scope.

(** ** Python values (YAML configuration and JSON cache content) *)

Inductive value :=
| VNone
| VBool (b : bool)
| VInt (n : Z)
| VStr (s : string)
| VList (l : list value)
| VDict (d : gmap string value).

(** Python truthiness, as used by [if x:] and [and]. *)
Definition truthy (v : value) : bool :=
  match v with
  | VNone => false
  | VBool b => b
  | VInt n => negb (n =? 0)
  | VStr s => negb (String.eqb s "")
  | VList l => match l with [] => false | _ => true end
  | VDict d => negb (bool_decide (d = ∅))
  end.

(** ** Exceptions *)

Inductive exn_class :=
| OSError
| JSONDecodeError
| TimeoutError
| AttributeError
| TypeError
| KeyError
| SecretsError.

Record exn := Exn { exn_class_of : exn_class; exn_str : string }.

Inductive exc (A : Type) :=
| Ok (a : A)
| Raise (e : exn).
Arguments Ok {A} a.
Arguments Raise {A} e.

#[global] Instance exc_ret : MRet exc := λ A a, Ok a.
#[global] Instance exc_bind : MBind exc := λ A B k m,
  match m with
  | Ok a => k a
  | Raise e => Raise e
  end.

#[global] Instance exc_fmap : FMap exc := λ A B f m,
  match m with
  | Ok a => Ok (f a)
  | Raise e => Raise e
  end.

#[global] Instance exn_class_eq_dec : EqDecision exn_class.
Proof. solve_decision. Defined.

(** [try: body except (c1, c2, ...): handler] *)
Definition try_except {A} (body : exc A) (classes : list exn_class)
    (handler : exn → exc A) : exc A :=
  match body with
  | Ok a => Ok a
  | Raise e =>
      if bool_decide (exn_class_of e ∈ classes) then handler e else Raise e
  end.

(** ** output.py: [Status] and [CheckResult] *)

Inductive Status := OK | WARNING | ERROR | UNKNOWN.

#[global] Instance Status_eq_dec : EqDecision Status.
Proof. solve_decision. Defined.

Record CheckResult := mkCheckResult {
  name : string;
  status : Status;
  message : string;
  details : list string
}.

(** [CheckResult(name=..., status=..., message=...)]: details default to []. *)
Definition CheckResult_new (n : string) (st : Status) (msg : string) : CheckResult :=
  mkCheckResult n st msg [].

Definition add_detail (r : CheckResult) (detail : string) : CheckResult :=
  mkCheckResult (name r) (status r) (message r) (details r ++ [detail]).

(** [sum(1 for r in results if r.status == st)] *)
Definition count_status (st : Status) (results : list CheckResult) : nat :=
  length (filter (λ r, status r = st) results).

(** [any(r.status == st for r in results)] *)
Definition any_status (st : Status) (results : list CheckResult) : bool :=
  existsb (λ r, bool_decide (status r = st)) results.

(** The counts computed at the top of [print_summary]. *)
Record summary_counts := mkCounts {
  ok_count : nat;
  warn_count : nat;
  error_count : nat;
  total : nat
}.

Definition print_summary_counts (results : list CheckResult) : summary_counts :=
  mkCounts (count_status OK results) (count_status WARNING results)
           (count_status ERROR results) (length results).

(** The ["summary"] object of the JSON output of [main]. *)
Record json_summary := mkJsonSummary {
  js_ok : nat;
  js_warnings : nat;
  js_errors : nat
}.

Definition main_json_summary (all_flat_results : list CheckResult) : json_summary :=
  mkJsonSummary (count_status OK all_flat_results)
                (count_status WARNING all_flat_results)
                (count_status ERROR all_flat_results).

(** The exit code chosen at the end of [main]. *)
Definition exit_code (all_flat_results : list CheckResult) : Z :=
  let has_errors := any_status ERROR all_flat_results in
  let has_warnings := any_status WARNING all_flat_results in
  if has_errors then 2
  else if has_warnings then 1
  else 0.

(** ** String methods of Python used by the program (ASCII strings) *)

Module Py.

(** [s[:n]] *)
Definition take (n : nat) (s : string) : string := String.substring 0 n s.

(** [c.isspace()] on the ASCII range: tab to carriage return, the four
    separators 28 to 31, and the space. *)
Definition is_space (a : Ascii.ascii) : bool :=
  let n := Ascii.nat_of_ascii a in
  ((9 <=? n)%nat && (n <=? 13)%nat) || ((28 <=? n)%nat && (n <=? 32)%nat).

Fixpoint lstrip (s : string) : string :=
  match s with
  | String a s' => if is_space a then lstrip s' else s
  | "" => ""
  end.

(** [s.strip()] *)
Definition strip (s : string) : string :=
  String.rev (lstrip (String.rev (lstrip s))).

(** [s.split(sep)] for a one-character separator; [cur] is the piece
    being read, reversed. *)
Fixpoint split_go (sep : Ascii.ascii) (cur : string) (s : string) : list string :=
  match s with
  | "" => [String.rev cur]
  | String a s' =>
      if Ascii.eqb a sep then String.rev cur :: split_go sep "" s'
      else split_go sep (String a cur) s'
  end.
Definition split (sep : Ascii.ascii) (s : string) : list string := split_go sep "" s.

(** [sep.join(l)] *)
Fixpoint join (sep : string) (l : list string) : string :=
  match l with
  | [] => ""
  | [x] => x
  | x :: l' => x +:+ sep +:+ join sep l'
  end.

Definition is_upper (a : Ascii.ascii) : bool :=
  let n := Ascii.nat_of_ascii a in (65 <=? n)%nat && (n <=? 90)%nat.
Definition is_lower (a : Ascii.ascii) : bool :=
  let n := Ascii.nat_of_ascii a in (97 <=? n)%nat && (n <=? 122)%nat.
Definition to_upper (a : Ascii.ascii) : Ascii.ascii :=
  if is_lower a then Ascii.ascii_of_nat (Ascii.nat_of_ascii a - 32) else a.
Definition to_lower (a : Ascii.ascii) : Ascii.ascii :=
  if is_upper a then Ascii.ascii_of_nat (Ascii.nat_of_ascii a + 32) else a.

(** [s.lower()] *)
Fixpoint lower (s : string) : string :=
  match s with
  | "" => ""
  | String a s' => String (to_lower a) (lower s')
  end.

(** [s.title()]: a cased character is upper-cased when it follows an
    uncased one and lower-cased when it follows a cased one. *)
Fixpoint title_go (prev_cased : bool) (s : string) : string :=
  match s with
  | "" => ""
  | String a s' =>
      if is_lower a || is_upper a then
        String (if prev_cased then to_lower a else to_upper a) (title_go true s')
      else String a (title_go false s')
  end.
Definition title (s : string) : string := title_go false s.

(** [s.startswith(p)] *)
Definition startswith (p s : string) : bool := String.prefix p s.

(** [sub in s] *)
Fixpoint contains (sub s : string) : bool :=
  String.prefix sub s ||
  match s with
  | "" => false
  | String _ s' => contains sub s'
  end.

End Py.

(** ** Dictionaries whose insertion order is observed *)

(** [d.get(k)] *)
Fixpoint dict_get {V} (d : list (string * V)) (k : string) : option V :=
  match d with
  | [] => None
  | (k', v) :: d' => if String.eqb k' k then Some v else dict_get d' k
  end.

(** [d[k] = v]: an existing key keeps its position. *)
Fixpoint dict_set {V} (d : list (string * V)) (k : string) (v : V)
    : list (string * V) :=
  match d with
  | [] => [(k, v)]
  | (k', v') :: d' =>
      if String.eqb k' k then (k, v) :: d' else (k', v') :: dict_set d' k v
  end.

(** [list(d.keys())] *)
Definition dict_keys {V} (d : list (string * V)) : list string := d.*1.

(** ** daily_hud.py: the check registry *)

Record check_info := mkInfo {
  section : string;
  requires_secret : option string
}.

(** [CHECKS], in the order of the dictionary literal. *)
Definition CHECKS : list (string * check_info) :=
  [ ("todoist",    mkInfo "Todoist"      (Some "todoist_token"));
    ("github",     mkInfo "GitHub"       (Some "github_token"));
    ("kubernetes", mkInfo "Kubernetes"   None);
    ("truenas",    mkInfo "TrueNAS"      (Some "truenas_api_key"));
    ("ssh",        mkInfo "SSH Hosts"    None);
    ("windows",    mkInfo "Windows"      None);
    ("certs",      mkInfo "Certificates" None);
    ("domains",    mkInfo "Domains"      None);
    ("cves",       mkInfo "Security"     None);
    ("containers", mkInfo "Containers"   None) ].

(** [CHECKS.get(check_name)] *)
Definition CHECKS_get (check_name : string) : option check_info :=
  dict_get CHECKS check_name.

(** [check_name in CHECKS] *)
Definition in_CHECKS (check_name : string) : bool :=
  match CHECKS_get check_name with Some _ => true | None => false end.

(** [CHECKS.get(check_name, {}).get("section", check_name.title())] *)
Definition section_of (check_name : string) : string :=
  match CHECKS_get check_name with
  | Some info => section info
  | None => Py.title check_name
  end.

(** ** daily_hud.py: [run_check] *)

(** What each check function does when it is called by one unit of work:
    it returns its list of results or raises.  The check functions are the
    collaborators of the orchestration; [run_check] only calls them. *)
Record probes := mkProbes {
  check_todoist : exc (list CheckResult);
  check_github : exc (list CheckResult);
  check_kubernetes : exc (list CheckResult);
  check_truenas : exc (list CheckResult);
  check_ssh_hosts : exc (list CheckResult);
  check_windows_hosts : exc (list CheckResult);
  check_certificates : exc (list CheckResult);
  check_domains : exc (list CheckResult);
  check_cves : exc (list CheckResult);
  check_containers : exc (list CheckResult)
}.

(** The [if]/[elif] chain of [run_check]: the check function called for
    [check_name], [None] in the final [else]. *)
Definition called_probe (P : probes) (check_name : string)
    : option (exc (list CheckResult)) :=
  if String.eqb check_name "todoist" then Some (check_todoist P)
  else if String.eqb check_name "github" then Some (check_github P)
  else if String.eqb check_name "kubernetes" then Some (check_kubernetes P)
  else if String.eqb check_name "truenas" then Some (check_truenas P)
  else if String.eqb check_name "ssh" then Some (check_ssh_hosts P)
  else if String.eqb check_name "windows" then Some (check_windows_hosts P)
  else if String.eqb check_name "certs" then Some (check_certificates P)
  else if String.eqb check_name "domains" then Some (check_domains P)
  else if String.eqb check_name "cves" then Some (check_cves P)
  else if String.eqb check_name "containers" then Some (check_containers P)
  else None.

Definition run_check (P : probes) (check_name : string)
    : string * list CheckResult :=
  let section := section_of check_name in
  let body : exc (list CheckResult) :=
    match called_probe P check_name with
    | Some call => call
    | None =>
        Ok [CheckResult_new check_name ERROR ("Unknown check: " +:+ check_name)]
    end in
  match body with
  | Ok results => (section, results)
  | Raise e =>
      (section,
       [CheckResult_new check_name ERROR
          (section +:+ ": Error - " +:+ Py.take 50 (exn_str e))])
  end.

(** ** secrets.py *)

(** The 1Password CLI as the program sees it: whether [op] is on the PATH,
    and what [op read <reference>] does: [None] when the subprocess times
    out, else its return code, standard output and standard error. *)
Record op_cli := mkOp {
  op_available : bool;
  op_read : string → option (Z * string * string)
}.

Definition get_secret (O : op_cli) (op_reference : string) : exc string :=
  if negb (Py.startswith "op://" op_reference) then
    Raise (Exn SecretsError ("Invalid 1Password reference: " +:+ op_reference))
  else if negb (op_available O) then
    Raise (Exn SecretsError "1Password CLI (op) is not installed or not in PATH")
  else
    match op_read O op_reference with
    | None => Raise (Exn SecretsError "Timeout waiting for 1Password CLI")
    | Some (returncode, stdout, stderr) =>
        if negb (returncode =? 0) then
          let error_msg :=
            if String.eqb (Py.strip stderr) "" then "Unknown error"
            else Py.strip stderr in
          if Py.contains "not signed in" (Py.lower error_msg) then
            Raise (Exn SecretsError
                     "Not signed in to 1Password. Run 'op signin' first.")
          else Raise (Exn SecretsError ("Failed to read secret: " +:+ error_msg))
        else Ok (Py.strip stdout)
    end.

(** The body of the loop of [get_secrets] for one entry: the value stored
    under the secret's name, [None] standing for Python's [None].  A
    reference that is not a string makes the memoised [get_secret] raise
    something other than [SecretsError]. *)
Definition get_secrets_entry (O : op_cli) (reference : value)
    : exc (option string) :=
  match reference with
  | VStr r =>
      try_except (Some <$> get_secret O r) [SecretsError] (λ _, Ok None)
  | VList _ | VDict _ => Raise (Exn TypeError "unhashable type")
  | _ => Raise (Exn AttributeError "object has no attribute 'startswith'")
  end.

Definition get_secrets (O : op_cli) (config : gmap string value)
    : exc (gmap string (option string)) :=
  match default (VDict ∅) (config !! "secrets") with
  | VDict secrets_config =>
      entries ← mapM (λ kv, v ← get_secrets_entry O kv.2; mret (kv.1, v))
                     (map_to_list secrets_config);
      mret (list_to_map entries)
  | _ => Raise (Exn AttributeError "object has no attribute 'items'")
  end.

(** [secrets.get(name)] is a string: the secret was configured and resolved. *)
Definition secret_resolved (secrets : gmap string (option string))
    (secret_name : string) : Prop :=
  ∃ v, secrets !! secret_name = Some (Some v).

(** ** daily_hud.py: which checks to run *)

(** [v.get(key, default)] on a value read from the configuration. *)
Definition py_get (v : value) (key : string) (dflt : value) : exc value :=
  match v with
  | VDict d => Ok (default dflt (d !! key))
  | _ => Raise (Exn AttributeError "object has no attribute 'get'")
  end.

Definition is_mapping (v : value) : Prop :=
  match v with VDict _ => True | _ => False end.

(** [config.get(key, default)] on the top-level mapping. *)
Definition config_get (config : gmap string value) (key : string)
    (dflt : value) : value :=
  default dflt (config !! key).

(** [name_matches and cond], [cond] being evaluated only on a match. *)
Definition and_then (name_matches : bool) (cond : exc value) : exc bool :=
  if name_matches then truthy <$> cond else Ok false.

(** One iteration of the [for check_name in CHECKS] loop of the automatic
    selection: whether [check_name] is appended to [checks_to_run]. *)
Definition auto_selects (config : gmap string value) (check_name : string)
    : exc bool :=
  c ← and_then (String.eqb check_name "todoist")
        (py_get (config_get config "secrets" (VDict ∅)) "todoist_token" VNone);
  if c : bool then mret true else
  c ← and_then (String.eqb check_name "github")
        (py_get (config_get config "github" (VDict ∅)) "username" VNone);
  if c : bool then mret true else
  if String.eqb check_name "kubernetes" then mret true else
  c ← and_then (String.eqb check_name "truenas")
        (py_get (config_get config "truenas" (VDict ∅)) "host" VNone);
  if c : bool then mret true else
  c ← and_then (String.eqb check_name "ssh")
        (Ok (config_get config "ssh_hosts" VNone));
  if c : bool then mret true else
  c ← and_then (String.eqb check_name "windows")
        (Ok (config_get config "windows_hosts" VNone));
  if c : bool then mret true else
  c ← and_then (String.eqb check_name "certs")
        (Ok (config_get config "certificates" VNone));
  if c : bool then mret true else
  c ← and_then (String.eqb check_name "domains")
        (Ok (config_get config "domains" VNone));
  if c : bool then mret true else
  c ← and_then (String.eqb check_name "cves")
        (py_get (config_get config "cves" (VDict ∅)) "check_local" (VBool true));
  if c : bool then mret true else
  if String.eqb check_name "containers" then mret true else
  mret false.

Fixpoint auto_select_loop (config : gmap string value) (names : list string)
    (checks_to_run : list string) : exc (list string) :=
  match names with
  | [] => Ok checks_to_run
  | check_name :: names' =>
      c ← auto_selects config check_name;
      auto_select_loop config names'
        (if c : bool then checks_to_run ++ [check_name] else checks_to_run)
  end.

(** The [else] branch of "Determine which checks to run". *)
Definition auto_select (config : gmap string value) : exc (list string) :=
  auto_select_loop config (dict_keys CHECKS) [].

(** The [if args.only] branch: the list given on the command line and the
    names in it that are not in [CHECKS]. *)
Definition explicit_checks (only : string) : list string :=
  Py.strip <$> Py.split ","%char only.

Definition invalid_checks (checks_to_run : list string) : list string :=
  filter (λ c, in_CHECKS c = false) checks_to_run.

(** ** daily_hud.py: the parallel section of [main] *)

(** A submitted unit of work.  [fut_done_at] is the time, in seconds
    counted from the call of [as_completed], at which the call of
    [run_check] finishes in its worker thread; [fut_outcome] is what that
    call returned or raised. *)
Record future := mkFuture {
  fut_check : string;
  fut_done_at : Z;
  fut_outcome : exc (string * list CheckResult)
}.

(** What the outside world does to the [i]-th submitted unit of work: how
    the check functions behave when it calls them and when it finishes. *)
Record unit_world := mkUnit {
  unit_probes : probes;
  unit_done_at : Z
}.

(** The dictionary comprehension that builds [futures]. *)
Definition submit_all (W : nat → unit_world) (checks_to_run : list string)
    : list future :=
  imap (λ i check_name,
          mkFuture check_name (unit_done_at (W i))
                   (Ok (run_check (unit_probes (W i)) check_name)))
       checks_to_run.

Definition done_le : relation future :=
  λ f g, fut_done_at f ≤ fut_done_at g.

#[global] Instance done_le_dec : RelDecision done_le.
Proof. intros f g. unfold done_le. apply _. Defined.

(** [as_completed(futures, timeout=t)]: the futures that are finished at
    the call or finish within [t] seconds of it, in the order in which
    they finish, and the futures still running at that time; when there
    are any the iterator raises [TimeoutError] after the last yielded
    future. *)
Definition as_completed (futures : list future) (t : Z)
    : list future * list future :=
  (merge_sort done_le (filter (λ f, fut_done_at f ≤ Z.max 0 t) futures),
   filter (λ f, Z.max 0 t < fut_done_at f) futures).

(** [future.result(timeout=t)] called at time [now]: the outcome at once
    when the future is finished, else after a wait of at most [t]. *)
Definition future_result (now : Z) (f : future) (t : Z)
    : exc (string * list CheckResult) :=
  if bool_decide (fut_done_at f ≤ now ∨ fut_done_at f ≤ now + t)
  then fut_outcome f
  else Raise (Exn TimeoutError "").

Record run_state := mkRun {
  all_results : list (string * list CheckResult);
  all_flat_results : list CheckResult
}.

(** The body of the [for future in as_completed(...)] loop. *)
Definition collect (timeout now : Z) (st : run_state) (f : future) : run_state :=
  let check_name := fut_check f in
  match future_result now f timeout with
  | Ok (section, results) =>
      mkRun (dict_set (all_results st) section results)
            (all_flat_results st ++ results)
  | Raise e =>
      let section := section_of check_name in
      let error_result :=
        CheckResult_new check_name ERROR (section +:+ ": Timeout or error") in
      mkRun (dict_set (all_results st) section [error_result])
            (all_flat_results st ++ [error_result])
  end.

(** The loop over the yielded futures; a future is yielded no earlier than
    it finishes and no earlier than the previous one was handled. *)
Fixpoint collect_all (timeout now : Z) (st : run_state) (yielded : list future)
    : run_state :=
  match yielded with
  | [] => st
  | f :: yielded' =>
      let now' := Z.max now (fut_done_at f) in
      collect_all timeout now' (collect timeout now' st f) yielded'
  end.

(** The [with ThreadPoolExecutor(...)] block once the futures exist. *)
Definition fan_in (timeout : Z) (futures : list future) : exc run_state :=
  let '(yielded, pending) := as_completed futures (timeout * 2) in
  let st := collect_all timeout 0 (mkRun [] []) yielded in
  match pending with
  | [] => Ok st
  | _ =>
      Raise (Exn TimeoutError
               (pretty (length pending) +:+ " (of " +:+
                pretty (length futures) +:+ ") futures unfinished"))
  end.

(** ** daily_hud.py: output and exit of [main] *)

Definition section_order : list string :=
  [ "Todoist"; "GitHub"; "Kubernetes"; "TrueNAS";
    "SSH Hosts"; "Windows"; "Certificates"; "Domains";
    "Security"; "Containers" ].

(** The sections in the order in which the text report prints them. *)
Definition sections_printed (all_results : list (string * list CheckResult))
    : list (string * list CheckResult) :=
  omap (λ s, (λ rs, (s, rs)) <$> dict_get all_results s) section_order ++
  filter (λ sr, sr.1 ∉ section_order) all_results.

Inductive event :=
| Stderr (line : string)
| Submit (check_name : string)
| ReportJson (results : list (string * list CheckResult)) (summary : json_summary)
| ReportText (sections : list (string * list CheckResult)) (summary : summary_counts).

Inductive termination :=
| SysExit (code : Z)
| Uncaught (e : exn).

(** The exit status of the interpreter: an uncaught exception prints a
    traceback and exits with status 1. *)
Definition process_exit_code (t : termination) : Z :=
  match t with
  | SysExit code => code
  | Uncaught _ => 1
  end.

Record main_result := mkMain {
  trace : list event;
  term : termination
}.

Record args := mkArgs {
  only : option string;
  json_output : bool
}.

(** [if args.only:] *)
Definition only_given (a : args) : option string :=
  match only a with
  | Some s => if String.eqb s "" then None else Some s
  | None => None
  end.

(** "Determine which checks to run": the run-set, or the lines printed
    before [sys.exit(1)]. *)
Definition determine_checks (a : args) (config : gmap string value)
    : exc (list string + list string) :=
  match only_given a with
  | Some s =>
      let checks_to_run := explicit_checks s in
      let invalid := invalid_checks checks_to_run in
      match invalid with
      | [] => Ok (inl checks_to_run)
      | _ =>
          Ok (inr [ "Unknown checks: " +:+ Py.join ", " invalid;
                    "Available: " +:+ Py.join ", " (dict_keys CHECKS) ])
      end
  | None => inl <$> auto_select config
  end.

(** "Load secrets": the warning printed when [get_secrets] raises
    [SecretsError], and the secrets. *)
Definition load_secrets (a : args) (config : gmap string value) (O : op_cli)
    : exc (list event * gmap string (option string)) :=
  try_except (secrets ← get_secrets O config; mret ([], secrets))
    [SecretsError]
    (λ e, Ok (if json_output a then []
              else [Stderr ("Warning: Could not load secrets: " +:+ exn_str e)],
              ∅)).

(** [main] from the test [if not checks_to_run] to the exit.  [timeout] is
    [thresholds.get("check_timeout_seconds", 30)]. *)
Definition run_and_report (a : args) (timeout : Z) (W : nat → unit_world)
    (checks_to_run : list string) : main_result :=
  match checks_to_run with
  | [] =>
      mkMain [Stderr "No checks configured. Edit your config file."] (SysExit 1)
  | _ =>
      let submitted := Submit <$> checks_to_run in
      match fan_in timeout (submit_all W checks_to_run) with
      | Raise e => mkMain submitted (Uncaught e)
      | Ok st =>
          let report :=
            if json_output a then
              ReportJson (all_results st) (main_json_summary (all_flat_results st))
            else
              ReportText (sections_printed (all_results st))
                         (print_summary_counts (all_flat_results st)) in
          mkMain (submitted ++ [report])
                 (SysExit (exit_code (all_flat_results st)))
      end
  end.

(** [main], from the loading of the secrets on.  The configuration is the
    mapping [load_config] returned; the thresholds, the cache settings and
    the colour detection read before this point reach the checks only. *)
Definition main (a : args) (config : gmap string value) (O : op_cli)
    (timeout : Z) (W : nat → unit_world) : main_result :=
  match load_secrets a config O with
  | Raise e => mkMain [] (Uncaught e)
  | Ok (warned, secrets) =>
      match determine_checks a config with
      | Raise e => mkMain warned (Uncaught e)
      | Ok (inr lines) => mkMain (warned ++ (Stderr <$> lines)) (SysExit 1)
      | Ok (inl checks_to_run) =>
          let r := run_and_report a timeout W checks_to_run in
          mkMain (warned ++ trace r) (term r)
      end
  end.

(** An event that is a line on standard error: neither a submission nor a
    report. *)
Definition is_stderr (ev : event) : Prop :=
  match ev with Stderr _ => True | _ => False end.

(** What one yielded future contributes to the run: the section written
    and the list stored under it and appended to the flattened list. *)
Definition unit_results (f : future) : string * list CheckResult :=
  match fut_outcome f with
  | Ok (section, results) => (section, results)
  | Raise _ =>
      let section := section_of (fut_check f) in
      (section,
       [CheckResult_new (fut_check f) ERROR (section +:+ ": Timeout or error")])
  end.


(** The loop body once the future's outcome is known. *)
Definition store (st : run_state) (f : future) : run_state :=
  mkRun (dict_set (all_results st) (unit_results f).1 (unit_results f).2)
        (all_flat_results st ++ (unit_results f).2).

(** ** The file system seen by the cache functions *)

(** What [json.load] finds in a file: a JSON document or text it rejects. *)
Inductive file_content :=
| Json (v : value)
| NotJson.

(** Times are in microseconds since the epoch.  [f_access] tells whether
    the process may open the file. *)
Record file := mkFile {
  f_mtime : Z;
  f_content : file_content;
  f_access : bool
}.

(** A path is its parent directory and its final component. *)
Definition path : Type := string * string.

Definition path_str (p : path) : string := p.1 +:+ "/" +:+ p.2.

Record fs := mkFs {
  fs_dirs : gset string;
  fs_files : gmap (string * string) file;
  fs_readonly : bool
}.

Definition os_error (errno : string) (what : string) (target : string) : exn :=
  Exn OSError ("[Errno " +:+ errno +:+ "] " +:+ what +:+ ": '" +:+ target +:+ "'").

(** [p.mkdir(parents=True, exist_ok=True)] *)
Definition mkdir_parents (s : fs) (dir : string) : exc unit * fs :=
  if bool_decide (dir ∈ fs_dirs s) then (Ok (), s)
  else if fs_readonly s then
    (Raise (os_error "30" "Read-only file system" dir), s)
  else (Ok (), mkFs ({[dir]} ∪ fs_dirs s) (fs_files s) (fs_readonly s)).

(** [p.exists()] *)
Definition path_exists (s : fs) (p : path) : bool :=
  bool_decide (is_Some (fs_files s !! p)).

(** [p.stat().st_mtime] *)
Definition stat_mtime (s : fs) (p : path) : exc Z :=
  match fs_files s !! p with
  | Some f => Ok (f_mtime f)
  | None => Raise (os_error "2" "No such file or directory" (path_str p))
  end.

(** [open(p, "r")] and the reading of the whole file. *)
Definition open_read (s : fs) (p : path) : exc file_content :=
  match fs_files s !! p with
  | Some f =>
      if f_access f then Ok (f_content f)
      else Raise (os_error "13" "Permission denied" (path_str p))
  | None => Raise (os_error "2" "No such file or directory" (path_str p))
  end.

(** [json.load(f)] *)
Definition json_load (c : file_content) : exc value :=
  match c with
  | Json v => Ok v
  | NotJson =>
      Raise (Exn JSONDecodeError "Expecting value: line 1 column 1 (char 0)")
  end.

(** [with open(p, "w") as f: json.dump(data, f)] at time [now]. *)
Definition open_write_dump (s : fs) (now : Z) (p : path) (data : value)
    : exc unit * fs :=
  if fs_readonly s then
    (Raise (os_error "30" "Read-only file system" (path_str p)), s)
  else if bool_decide (p.1 ∉ fs_dirs s) then
    (Raise (os_error "2" "No such file or directory" (path_str p)), s)
  else
    match fs_files s !! p with
    | Some (mkFile _ _ false) =>
        (Raise (os_error "13" "Permission denied" (path_str p)), s)
    | _ =>
        (Ok (),
         mkFs (fs_dirs s) (<[p := mkFile now (Json data) true]> (fs_files s))
              (fs_readonly s))
    end.

(** ** checks/domains.py, checks/containers.py: the cache functions

    The three functions are the same in both files up to the file name,
    which is the argument [file_name] here. *)

Definition _get_cache_path (expanduser : string → string) (file_name : string)
    (s : fs) (cache_dir : string) : exc path * fs :=
  let cache_path : path := (expanduser cache_dir, file_name) in
  match mkdir_parents s cache_path.1 with
  | (Ok _, s') => (Ok cache_path, s')
  | (Raise e, s') => (Raise e, s')
  end.

Definition microseconds_per_hour : Z := 3600000000.

(** [age_hours > max_age_hours], the age being
    [(now - mtime).total_seconds() / 3600]. *)
Definition expired (now mtime max_age_hours : Z) : bool :=
  bool_decide (max_age_hours * microseconds_per_hour < now - mtime).

Definition _load_cache (s : fs) (now : Z) (cache_path : path)
    (max_age_hours : Z) : exc value :=
  if negb (path_exists s cache_path) then Ok (VDict ∅)
  else
    try_except
      (mtime ← stat_mtime s cache_path;
       if expired now mtime max_age_hours then Ok (VDict ∅)
       else content ← open_read s cache_path; json_load content)
      [JSONDecodeError; OSError]
      (λ _, Ok (VDict ∅)).

Definition _save_cache (s : fs) (now : Z) (cache_path : path) (data : value)
    : exc unit * fs :=
  match open_write_dump s now cache_path data with
  | (Ok _, s') => (Ok (), s')
  | (Raise e, s') =>
      if bool_decide (exn_class_of e ∈ [OSError]) then (Ok (), s')
      else (Raise e, s')
  end.

(** ** Operations of Python on cache values *)

Definition is_str (key : string) (v : value) : bool :=
  match v with
  | VStr s => String.eqb s key
  | _ => false
  end.

(** [key in v] for a string [key]. *)
Definition py_in (key : string) (v : value) : exc bool :=
  match v with
  | VDict d => Ok (bool_decide (is_Some (d !! key)))
  | VList l => Ok (existsb (is_str key) l)
  | VStr s => Ok (Py.contains key s)
  | _ => Raise (Exn TypeError "argument is not iterable")
  end.

(** [v[key]] for a string [key]. *)
Definition py_getitem (v : value) (key : string) : exc value :=
  match v with
  | VDict d =>
      match d !! key with
      | Some x => Ok x
      | None => Raise (Exn KeyError key)
      end
  | VList _ | VStr _ => Raise (Exn TypeError "indices must be integers")
  | _ => Raise (Exn TypeError "object is not subscriptable")
  end.

(** [v[key] = x] for a string [key]. *)
Definition py_setitem (v : value) (key : string) (x : value) : exc value :=
  match v with
  | VDict d => Ok (VDict (<[key := x]> d))
  | VList _ => Raise (Exn TypeError "list indices must be integers")
  | _ => Raise (Exn TypeError "object does not support item assignment")
  end.

(** The integer [n + v] adds to a running total [n]. *)
Definition py_add (n : Z) (v : value) : exc Z :=
  match v with
  | VInt k => Ok (n + k)
  | VBool b => Ok (n + (if b then 1 else 0))
  | _ => Raise (Exn TypeError "unsupported operand type(s) for +=")
  end.

(** What the cache-using checks take from the interpreter and from the
    outside world. *)
Record outside := mkOutside {
  expanduser : string → string;
  py_str : value → string;
  WHOIS_AVAILABLE : bool;
  _get_domain_expiry : string → bool * string * option Z;
  fromisoformat : string → option Z;
  isoformat : Z → string;
  _check_trivy_available : bool;
  _get_running_images : list string;
  _scan_image_trivy : string → value
}.

(** The three values read under "Handle caching". *)
Record cache_settings := mkCache {
  use_cache : bool;
  cache_dir : string;
  cache_hours : Z
}.

(** The outcome of a check, the file system it leaves, and the external
    lookups (WHOIS queries, image scans) it made, oldest first. *)
Record check_run := mkCheckRun {
  outcome : exc (list CheckResult);
  fs_after : fs;
  lookups : list string
}.

Definition microseconds_per_day : Z := 86400000000.

(** [(expiry - now).days] *)
Definition days_between (expiry now : Z) : Z :=
  (expiry - now) `div` microseconds_per_day.

(** [for x in l: result.add_detail(x)] *)
Definition add_details (r : CheckResult) (l : list string) : CheckResult :=
  foldl add_detail r l.

Module Domains.

Record loop_state := mkLoop {
  ok_count : Z;
  warnings : list string;
  errors : list string;
  new_cache : gmap string value;
  fetched : list string
}.

(** The three-way classification on [days_left]. *)
Definition classify (domain : string) (days_left warn_days : Z)
    (st : loop_state) : loop_state :=
  if bool_decide (days_left < 0) then
    mkLoop (ok_count st) (warnings st) (errors st ++ [domain +:+ ": EXPIRED"])
           (new_cache st) (fetched st)
  else if bool_decide (days_left ≤ warn_days) then
    mkLoop (ok_count st)
           (warnings st ++
              [domain +:+ ": expires in " +:+ pretty days_left +:+ " days"])
           (errors st) (new_cache st) (fetched st)
  else
    mkLoop (ok_count st + 1) (warnings st) (errors st) (new_cache st)
           (fetched st).

Definition set_cache (domain : string) (entry : value) (st : loop_state)
    : loop_state :=
  mkLoop (ok_count st) (warnings st) (errors st)
         (<[domain := entry]> (new_cache st)) (fetched st).

Definition add_error (line : string) (st : loop_state) : loop_state :=
  mkLoop (ok_count st) (warnings st) (errors st ++ [line]) (new_cache st)
         (fetched st).

(** "Fetch fresh data" and what follows it in the loop body. *)
Definition fetch (E : outside) (now warn_days : Z) (domain : string)
    (st : loop_state) : loop_state :=
  let '(success, error_msg, expiry) := _get_domain_expiry E domain in
  let st := mkLoop (ok_count st) (warnings st) (errors st) (new_cache st)
                   (fetched st ++ [domain]) in
  if negb success then
    set_cache domain (VDict {[ "error" := VStr error_msg ]})
      (add_error (domain +:+ ": " +:+ error_msg) st)
  else
    match expiry with
    | None =>
        set_cache domain (VDict {[ "error" := VStr "No expiry date" ]})
          (add_error (domain +:+ ": Could not determine expiry") st)
    | Some expiry =>
        let days_left := days_between expiry now in
        classify domain days_left warn_days
          (set_cache domain (VDict {[ "expiry" := VStr (isoformat E expiry) ]}) st)
    end.

(** The body of [for domain in domains]. *)
Definition step (E : outside) (now warn_days : Z) (cached_data : value)
    (domain : string) (st : loop_state) : exc loop_state :=
  hit ← py_in domain cached_data;
  if hit : bool then
    cache_entry ← py_getitem cached_data domain;
    err ← py_get cache_entry "error" VNone;
    if truthy err then
      Ok (set_cache domain cache_entry
            (add_error (domain +:+ ": " +:+ py_str E err) st))
    else
      expiry_str ← py_get cache_entry "expiry" VNone;
      if truthy expiry_str then
        match expiry_str with
        | VStr str =>
            match fromisoformat E str with
            | Some expiry =>
                let days_left := days_between expiry now in
                Ok (set_cache domain cache_entry
                      (classify domain days_left warn_days st))
            | None => Ok (fetch E now warn_days domain st)
            end
        | _ => Raise (Exn TypeError "fromisoformat: argument must be str")
        end
      else Ok (fetch E now warn_days domain st)
  else Ok (fetch E now warn_days domain st).

(** The loop: the state reached, or the exception together with the
    lookups made before it. *)
Fixpoint loop (E : outside) (now warn_days : Z) (cached_data : value)
    (domains : list string) (st : loop_state) : exc loop_state * list string :=
  match domains with
  | [] => (Ok st, fetched st)
  | domain :: domains' =>
      match step E now warn_days cached_data domain st with
      | Ok st' => loop E now warn_days cached_data domains' st'
      | Raise e => (Raise e, fetched st)
      end
  end.

(** "Build results" *)
Definition build_results (domains : list string) (warn_days : Z)
    (st : loop_state) : list CheckResult :=
  let total := length domains in
  match errors st, warnings st with
  | _ :: _, _ =>
      [add_details
         (CheckResult_new "domains" ERROR
            ("Domains: " +:+ pretty (length (errors st)) +:+ " issue(s)"))
         (errors st)]
  | [], _ :: _ =>
      [add_details
         (CheckResult_new "domains" WARNING
            ("Domains: " +:+ pretty (length (warnings st)) +:+
             " expiring within " +:+ pretty warn_days +:+ " days"))
         (warnings st)]
  | [], [] =>
      [CheckResult_new "domains" OK
         ("Domains: All " +:+ pretty total +:+ " valid (>" +:+
          pretty warn_days +:+ " days)")]
  end.

Definition check_domains (E : outside) (s : fs) (now : Z)
    (domains : list string) (warn_days : Z) (C : cache_settings)
    : check_run :=
  match domains with
  | [] => mkCheckRun (Ok []) s []
  | _ =>
  if negb (WHOIS_AVAILABLE E) then
    mkCheckRun
      (Ok [CheckResult_new "domains" WARNING
             "Domains: python-whois not installed"]) s []
  else
    let opened : exc (option path * value) * fs :=
      if use_cache C then
        match _get_cache_path (expanduser E) "domains.json" s (cache_dir C) with
        | (Ok cache_path, s') =>
            ((λ d, (Some cache_path, d)) <$>
               _load_cache s' now cache_path (cache_hours C), s')
        | (Raise e, s') => (Raise e, s')
        end
      else (Ok (None, VDict ∅), s) in
    match opened with
    | (Raise e, s') => mkCheckRun (Raise e) s' []
    | (Ok (cache_path, cached_data), s') =>
        match loop E now warn_days cached_data domains (mkLoop 0 [] [] ∅ []) with
        | (Raise e, made) => mkCheckRun (Raise e) s' made
        | (Ok st, made) =>
            let saved : exc unit * fs :=
              match cache_path with
              | Some cache_path =>
                  _save_cache s' now cache_path (VDict (new_cache st))
              | None => (Ok (), s')
              end in
            match saved with
            | (Raise e, s'') => mkCheckRun (Raise e) s'' made
            | (Ok _, s'') =>
                mkCheckRun (Ok (build_results domains warn_days st)) s'' made
            end
        end
    end
  end.

End Domains.

Module Containers.

Record loop_state := mkLoop {
  cached_data : value;
  total_critical : Z;
  total_high : Z;
  total_medium : Z;
  errors : list string;
  scanned : Z;
  scans : list string
}.

(** The first statement of the loop body: the counts used for [image],
    the cache as updated, and whether the image was scanned. *)
Definition counts_for (E : outside) (use_cache : bool) (image : string)
    (cached_data : value) : exc (value * value * bool) :=
  hit ← py_in image cached_data;
  reusable ←
    (if hit : bool then
       entry ← py_getitem cached_data image;
       has_error ← py_in "error" entry;
       mret (negb has_error)
     else mret false);
  if reusable : bool then
    counts ← py_getitem cached_data image;
    mret (counts, cached_data, false)
  else
    let counts := _scan_image_trivy E image in
    if use_cache then
      present ← py_in image cached_data;
      cached_data ←
        (if present : bool then mret cached_data
         else py_setitem cached_data image (VDict ∅));
      cached_data ← py_setitem cached_data image counts;
      mret (counts, cached_data, true)
    else mret (counts, cached_data, true).

(** The body of [for image in images]. *)
Definition step (E : outside) (use_cache : bool) (image : string)
    (st : loop_state) : exc loop_state * list string :=
  match counts_for E use_cache image (cached_data st) with
  | Raise e => (Raise e, scans st)
  | Ok (counts, cached_data', scanned_now) =>
      let scans' : list string :=
        if scanned_now : bool then scans st ++ [image] else scans st in
      (has_error ← py_in "error" counts;
       if has_error : bool then
         err ← py_getitem counts "error";
         mret (mkLoop cached_data' (total_critical st) (total_high st)
                      (total_medium st)
                      (errors st ++ [image +:+ ": " +:+ py_str E err])
                      (scanned st) scans')
       else
         critical ← py_get counts "CRITICAL" (VInt 0);
         total_critical' ← py_add (total_critical st) critical;
         high ← py_get counts "HIGH" (VInt 0);
         total_high' ← py_add (total_high st) high;
         medium ← py_get counts "MEDIUM" (VInt 0);
         total_medium' ← py_add (total_medium st) medium;
         mret (mkLoop cached_data' total_critical' total_high' total_medium'
                      (errors st) (scanned st + 1) scans'),
       scans')
  end.

Fixpoint loop (E : outside) (use_cache : bool) (images : list string)
    (st : loop_state) : exc loop_state * list string :=
  match images with
  | [] => (Ok st, scans st)
  | image :: images' =>
      match step E use_cache image st with
      | (Ok st', _) => loop E use_cache images' st'
      | (Raise e, made) => (Raise e, made)
      end
  end.

(** "Build result" and "Determine status" *)
Definition build_results (st : loop_state) : list CheckResult :=
  if scanned st =? 0 then
    match errors st with
    | _ :: _ =>
        [add_details
           (CheckResult_new "containers" WARNING "Containers: Scan failed")
           (take 3 (errors st))]
    | [] => [CheckResult_new "containers" OK "Containers: No images scanned"]
    end
  else
    let status :=
      if 0 <? total_critical st then ERROR
      else if 0 <? total_high st then WARNING
      else OK in
    match status with
    | OK =>
        [CheckResult_new "containers" OK
           ("Containers: " +:+ pretty (scanned st) +:+
            " images scanned, no critical/high vulnerabilities")]
    | _ =>
        let result :=
          CheckResult_new "containers" status
            ("Containers: " +:+ pretty (scanned st) +:+ " images scanned") in
        let result :=
          if 0 <? total_critical st then
            add_detail result
              (pretty (total_critical st) +:+ " critical vulnerabilities")
          else result in
        let result :=
          if 0 <? total_high st then
            add_detail result (pretty (total_high st) +:+ " high vulnerabilities")
          else result in
        let result :=
          if 0 <? total_medium st then
            add_detail result
              (pretty (total_medium st) +:+ " medium vulnerabilities")
          else result in
        [result]
    end.

(** [scanner] is [config.get("scanner", "trivy")]. *)
Definition check_containers (E : outside) (s : fs) (now : Z)
    (scanner : string) (C : cache_settings) : check_run :=
  if negb (String.eqb scanner "trivy") then
    mkCheckRun
      (Ok [CheckResult_new "containers" OK
             "Containers: Only Trivy scanner supported"]) s []
  else if negb (_check_trivy_available E) then
    mkCheckRun
      (Ok [CheckResult_new "containers" OK "Containers: Trivy not installed"])
      s []
  else
    let opened : exc (option path * value) * fs :=
      if use_cache C then
        match _get_cache_path (expanduser E) "container_vulns.json" s
                (cache_dir C) with
        | (Ok cache_path, s') =>
            ((λ d, (Some cache_path, d)) <$>
               _load_cache s' now cache_path (cache_hours C), s')
        | (Raise e, s') => (Raise e, s')
        end
      else (Ok (None, VDict ∅), s) in
    match opened with
    | (Raise e, s') => mkCheckRun (Raise e) s' []
    | (Ok (cache_path, cached), s') =>
        match _get_running_images E with
        | [] =>
            mkCheckRun
              (Ok [CheckResult_new "containers" OK
                     "Containers: No running images found"]) s' []
        | images =>
            let images := take 10 images in
            match loop E (use_cache C) images (mkLoop cached 0 0 0 [] 0 []) with
            | (Raise e, made) => mkCheckRun (Raise e) s' made
            | (Ok st, made) =>
                let saved : exc unit * fs :=
                  match cache_path with
                  | Some cache_path =>
                      _save_cache s' now cache_path (cached_data st)
                  | None => (Ok (), s')
                  end in
                match saved with
                | (Raise e, s'') => mkCheckRun (Raise e) s'' made
                | (Ok _, s'') => mkCheckRun (Ok (build_results st)) s'' made
                end
            end
        end
    end.

End Containers.

(** ** Soft-failure entries *)

(** The test of the domains check on a cached entry:
    [cache_entry.get("error")] is truthy. *)
Definition error_entry (entry : value) : Prop :=
  ∃ err, py_get entry "error" VNone = Ok err ∧ truthy err = true.

(** The test of the containers check on a cached entry:
    ["error" in cached_data[image]]. *)
Definition has_error_key (entry : value) : Prop :=
  py_in "error" entry = Ok true.

(** Either the image has been scanned in this run, or its cached entry is
    still the error entry read from the file. *)
Definition rescan_pending (image : string) (entry : value)
    (st : Containers.loop_state) : Prop :=
  image ∈ Containers.scans st ∨
  ∃ m, Containers.cached_data st = VDict m ∧ m !! image = Some entry.

(** ** Sample inputs *)

Definition sample_probes (kubernetes containers : exc (list CheckResult))
    : probes :=
  mkProbes (Ok []) (Ok []) kubernetes (Ok []) (Ok []) (Ok []) (Ok []) (Ok [])
           (Ok []) containers.

Definition pods_ok : CheckResult :=
  CheckResult_new "k8s-pods" OK "Kubernetes: all pods running".

Definition nodes_warn : CheckResult :=
  add_detail (CheckResult_new "k8s-nodes" WARNING "Kubernetes: 1 node not ready")
             "worker-2: NotReady".






Definition no_op_cli : op_cli := mkOp false (λ _, None).

Definition images_clean : CheckResult :=
  CheckResult_new "containers" OK
    "Containers: 4 images scanned, no critical/high vulnerabilities".

(** The Kubernetes check finishes after 5 seconds; the containers check,
    submitted second, after [containers_done_at] seconds. *)
Definition slow_world (containers_done_at : Z) (i : nat) : unit_world :=
  match i with
  | O => mkUnit (sample_probes (Ok [pods_ok]) (Ok [images_clean])) 5
  | _ => mkUnit (sample_probes (Ok [pods_ok]) (Ok [images_clean]))
                containers_done_at
  end.

(** A configuration that names a 1Password reference for the Todoist
    token and nothing else. *)
Definition todoist_configured : gmap string value :=
  {[ "secrets" := VDict {[ "todoist_token" := VStr "op://Private/Todoist/token" ]} ]}.

(** A file system mounted read-only on which the cache directory does
    not exist yet. *)
Definition readonly_fs : fs := mkFs ∅ ∅ true.

(** An outside world in which WHOIS answers "Domain not found", the
    scanner times out, and [~] expands to [/home/hud]. *)
Definition plain_outside : outside :=
  mkOutside
    (λ p, match p with
          | String "~" rest => "/home/hud" +:+ rest
          | _ => p
          end)
    (λ v, match v with VStr s => s | _ => "" end)
    true
    (λ _, (false, "Domain not found", None))
    (λ _, None)
    (λ _, "")
    true
    ["registry.local/app:1.4"]
    (λ _, VDict {[ "error" := VStr "Scan timed out" ]}).

Definition cache_on : cache_settings := mkCache true "~/.cache/daily-hud" 24.

(** The probes of a unit of work whose domains check runs on [readonly_fs]. *)
Definition readonly_probes : probes :=
  mkProbes (Ok []) (Ok []) (Ok []) (Ok []) (Ok []) (Ok []) (Ok [])
    (outcome (Domains.check_domains plain_outside readonly_fs 0
                ["example.org"] 30 cache_on))
    (Ok []) (Ok []).


Definition domains_json : path := ("/home/hud/.cache/daily-hud", "domains.json").

Definition vulns_json : path :=
  ("/home/hud/.cache/daily-hud", "container_vulns.json").

(** A cache namespace with one soft-failure entry. *)
Definition failed_lookup : gmap string value :=
  {[ "example.org" := VDict {[ "error" := VStr "WHOIS server unavailable" ]} ]}.

Definition failed_scan : gmap string value :=
  {[ "registry.local/app:1.4" := VDict {[ "error" := VStr "Scan timed out" ]} ]}.

(** The file system one second after each of the two caches was saved. *)
Definition cached_fs : fs :=
  mkFs {[ "/home/hud/.cache/daily-hud" ]}
       {[ domains_json := mkFile 0 (Json (VDict failed_lookup)) true;
          vulns_json := mkFile 0 (Json (VDict failed_scan)) true ]}
       false.

(** ** output.py: colours, symbols and printing

    A Python string is held as its UTF-8 bytes; what the program prints is
    the list of the strings passed to [print], one per call. *)

Module Colors.

Definition ESC : string := String "027"%char "".
Definition RESET : string := ESC +:+ "[0m".
Definition BOLD : string := ESC +:+ "[1m".
Definition DIM : string := ESC +:+ "[2m".
Definition GREEN : string := ESC +:+ "[32m".
Definition YELLOW : string := ESC +:+ "[33m".
Definition RED : string := ESC +:+ "[31m".
Definition CYAN : string := ESC +:+ "[36m".
Definition WHITE : string := ESC +:+ "[37m".

End Colors.

(** [SYMBOLS] *)
Definition SYMBOLS (st : Status) : string * string :=
  match st with
  | OK => (Colors.GREEN, "✓")
  | WARNING => (Colors.YELLOW, "⚠")
  | ERROR => (Colors.RED, "✗")
  | UNKNOWN => (Colors.WHITE, "?")
  end.

(** [status.value] *)
Definition Status_value (st : Status) : string :=
  match st with
  | OK => "ok"
  | WARNING => "warning"
  | ERROR => "error"
  | UNKNOWN => "unknown"
  end.

Definition colorize (text color : string) (use_color : bool) : string :=
  if negb use_color then text
  else color +:+ text +:+ Colors.RESET.

Definition format_status (st : Status) (use_color : bool) : string :=
  let '(color, symbol) := SYMBOLS st in
  if use_color then color +:+ symbol +:+ Colors.RESET
  else symbol.

(** A byte that continues a UTF-8 sequence. *)
Definition is_continuation (a : Ascii.ascii) : bool :=
  let n := Ascii.nat_of_ascii a in (128 <=? n)%nat && (n <? 192)%nat.

(** [len(s)]: the number of code points of [s]. *)
Fixpoint py_len (s : string) : nat :=
  match s with
  | "" => 0%nat
  | String a s' => ((if is_continuation a then 0 else 1) + py_len s')%nat
  end.

(** [s * n] *)
Fixpoint py_repeat (s : string) (n : nat) : string :=
  match n with
  | O => ""
  | S n' => s +:+ py_repeat s n'
  end.

(** The header line of [print_section], before it is coloured. *)
Definition section_header (name : string) : string :=
  let header := "── " +:+ name +:+ " " in
  header +:+ py_repeat "─" (Z.to_nat (60 - Z.of_nat (py_len header))).

Definition print_section (name : string) (use_color : bool) : list string :=
  if use_color then [colorize (section_header name) Colors.DIM true]
  else [section_header name].

(** The line printed for one detail. *)
Definition detail_line (detail : string) : string :=
  if Py.startswith "  " detail then "  " +:+ detail
  else "    " +:+ detail.

Definition print_result (result : CheckResult) (use_color verbose : bool)
    : list string :=
  let symbol := format_status (status result) use_color in
  (symbol +:+ " " +:+ message result) ::
  match details result with
  | [] => []
  | _ =>
      if negb (bool_decide (status result = OK)) || verbose
      then detail_line <$> details result
      else []
  end.

Definition print_section_results (section_name : string)
    (results : list CheckResult) (use_color verbose : bool) : list string :=
  print_section section_name use_color ++
  match results with
  | [] => [format_status UNKNOWN use_color +:+ " No data available"]
  | _ => results ≫= (λ result, print_result result use_color verbose)
  end ++
  [""].

(** ["s" if n != 1 else ""] *)
Definition plural (n : nat) : string :=
  if bool_decide (n ≠ 1%nat) then "s" else "".

(** The list [parts] of [print_summary]. *)
Definition summary_parts (results : list CheckResult) (use_color : bool)
    : list string :=
  let ok_count := count_status OK results in
  let warn_count := count_status WARNING results in
  let error_count := count_status ERROR results in
  let part (msg color : string) :=
    if use_color then colorize msg color use_color else msg in
  (if bool_decide (0 < error_count)%nat
   then [part (pretty error_count +:+ " error" +:+ plural error_count) Colors.RED]
   else []) ++
  (if bool_decide (0 < warn_count)%nat
   then [part (pretty warn_count +:+ " warning" +:+ plural warn_count)
              Colors.YELLOW]
   else []) ++
  (if bool_decide (0 < ok_count)%nat &&
      (bool_decide (0 < error_count)%nat || bool_decide (0 < warn_count)%nat)
   then [part (pretty ok_count +:+ " OK") Colors.GREEN]
   else []).

(** [print_summary]; [elapsed] is the text of [f"{elapsed_seconds:.1f}"]. *)
Definition print_summary (results : list CheckResult) (elapsed : string)
    (use_color : bool) : list string :=
  let total := length results in
  let line := py_repeat "═" 60 in
  let parts := summary_parts results use_color in
  let summary :=
    match parts with
    | [] => colorize "All systems OK" Colors.GREEN use_color
    | _ => Py.join ", " parts
    end in
  let timing := pretty total +:+ " checks in " +:+ elapsed +:+ "s" in
  let ruler := if use_color then colorize line Colors.CYAN true else line in
  [ ""; ruler; "Summary: " +:+ summary +:+ " - " +:+ timing; ruler ].

(** One element of the lists built by [results_to_json]. *)
Record json_result := mkJsonResult {
  j_name : string;
  j_status : string;
  j_message : string;
  j_details : list string
}.

Definition result_to_json (r : CheckResult) : json_result :=
  mkJsonResult (name r) (Status_value (status r)) (message r) (details r).

Definition results_to_json (results : list (string * list CheckResult))
    : list (string * list json_result) :=
  (λ sr : string * list CheckResult, (sr.1, result_to_json <$> sr.2))
    <$> results.

(** ** Descriptions used by the properties of [main] and [get_secrets] *)

(** What [main] may leave in its trace: submissions of registered checks,
    reports, and lines on standard error other than the message of the
    empty run-set. *)
Definition expected_event (ev : event) : Prop :=
  match ev with
  | Submit check_name => in_CHECKS check_name = true
  | Stderr line => line ≠ "No checks configured. Edit your config file."
  | _ => True
  end.

(** The value [get_secrets] stores for a reference: the secret, or [None]
    when [get_secret] raises. *)
Definition secret_of (O : op_cli) (reference : value) : option string :=
  match reference with
  | VStr r =>
      match get_secret O r with
      | Ok v => Some v
      | Raise _ => None
      end
  | _ => None
  end.

Definition is_reference (v : value) : Prop :=
  match v with VStr _ => True | _ => False end.


(** A 1Password CLI that is installed and signed in, and prints the same
    token followed by a newline for every reference. *)
Definition signed_in_cli : op_cli :=
  mkOp true (λ _, Some (0, "s3cr3t" +:+ String "010"%char "", "")).

(** ** checks/domains.py: the counters of the loop and repeated runs *)

(** The number of domains the loop has classified so far: each iteration
    increments [ok_count] or appends to [warnings] or to [errors]. *)
Definition domains_counted (st : Domains.loop_state) : Z :=
  Domains.ok_count st + Z.of_nat (length (Domains.warnings st)) +
  Z.of_nat (length (Domains.errors st)).

(** The domains check called once at each of the times [times], each call
    on the file system the previous call left. *)
Fixpoint check_domains_at (E : outside) (s : fs) (times : list Z)
    (domains : list string) (warn_days : Z) (C : cache_settings)
    : list check_run :=
  match times with
  | [] => []
  | now :: times' =>
      let r := Domains.check_domains E s now domains warn_days C in
      r :: check_domains_at E (fs_after r) times' domains warn_days C
  end.

(** Each of the times is at most [max_age_hours] after the one before it,
    the first one after [last]. *)
Fixpoint within_ttl (last : Z) (times : list Z) (max_age_hours : Z) : Prop :=
  match times with
  | [] => True
  | now :: times' =>
      now - last ≤ max_age_hours * microseconds_per_hour ∧
      within_ttl now times' max_age_hours
  end.

(** ** checks/containers.py: repeated runs *)

(** The containers check called once at each of the times [times], each
    call on the file system the previous call left. *)
Fixpoint check_containers_at (E : outside) (s : fs) (times : list Z)
    (scanner : string) (C : cache_settings) : list check_run :=
  match times with
  | [] => []
  | now :: times' =>
      let r := Containers.check_containers E s now scanner C in
      r :: check_containers_at E (fs_after r) times' scanner C
  end.

(** A cache namespace with the counts of a scan that went through. *)
Definition clean_scan : gmap string value :=
  {[ "registry.local/app:1.4" :=
       VDict {[ "CRITICAL" := VInt 0; "HIGH" := VInt 2; "MEDIUM" := VInt 5 ]} ]}.

Definition scanned_fs : fs :=
  mkFs {[ "/home/hud/.cache/daily-hud" ]}
       {[ vulns_json := mkFile 0 (Json (VDict clean_scan)) true ]}
       false.

(** ** checks/containers.py: [_scan_image_trivy] *)

(** The characters of a string held as UTF-8 bytes: a byte that is not a
    continuation byte starts a character. *)
Fixpoint py_chars (s : string) : list string :=
  match s with
  | "" => []
  | String c rest =>
      match py_chars rest with
      | String c' x :: l =>
          if is_continuation c' then String c (String c' x) :: l
          else String c "" :: String c' x :: l
      | l => String c "" :: l
      end
  end.

(** [for x in v]: the items the loop visits, or the [TypeError] of a value
    that cannot be iterated.  A dict yields its keys; the embedding does
    not keep their order. *)
Definition py_iter (v : value) : exc (list value) :=
  match v with
  | VList l => Ok l
  | VDict d => Ok (VStr <$> (map_to_list d).*1)
  | VStr s => Ok (VStr <$> py_chars s)
  | _ => Raise (Exn TypeError "object is not iterable")
  end.

(** [for x in items: st = body(st, x)], stopped by the first exception. *)
Fixpoint for_each {S A} (body : S → A → exc S) (st : S) (items : list A)
    : exc S :=
  match items with
  | [] => Ok st
  | x :: items' => st' ← body st x; for_each body st' items'
  end.

(** What [subprocess.run(["trivy", "image", ...], timeout=timeout)] gives:
    the time runs out, the executable is missing, or the process exits
    with a return code and its standard output. *)
Inductive trivy_run :=
| TimeoutExpired
| FileNotFound
| Completed (returncode : Z) (stdout : file_content).

Module Trivy.

(** [counts = {"CRITICAL": 0, "HIGH": 0, "MEDIUM": 0}] *)
Definition no_counts : gmap string Z :=
  {[ "CRITICAL" := 0; "HIGH" := 0; "MEDIUM" := 0 ]}.

(** [severity in counts]: a list or a dict is not hashable. *)
Definition severity_in (severity : value) (counts : gmap string Z) : exc bool :=
  match severity with
  | VStr s => Ok (bool_decide (is_Some (counts !! s)))
  | VList _ => Raise (Exn TypeError "unhashable type: 'list'")
  | VDict _ => Raise (Exn TypeError "unhashable type: 'dict'")
  | _ => Ok false
  end.

(** The body of [for vuln in target.get("Vulnerabilities", [])]. *)
Definition count_vuln (counts : gmap string Z) (vuln : value)
    : exc (gmap string Z) :=
  severity ← py_get vuln "Severity" (VStr "UNKNOWN");
  known ← severity_in severity counts;
  if known : bool then
    match severity with
    | VStr s => Ok (<[s := default 0 (counts !! s) + 1]> counts)
    | _ => Ok counts
    end
  else Ok counts.

(** The body of [for target in data.get("Results", [])]. *)
Definition count_target (counts : gmap string Z) (target : value)
    : exc (gmap string Z) :=
  vulns ← py_get target "Vulnerabilities" (VList []);
  items ← py_iter vulns;
  for_each count_vuln counts items.

Definition scan_error (msg : string) : value :=
  VDict {[ "error" := VStr msg ]}.

Definition _scan_image_trivy (run : trivy_run) : exc value :=
  match run with
  | TimeoutExpired => Ok (scan_error "Scan timed out")
  | FileNotFound => Ok (scan_error "Trivy not found")
  | Completed returncode stdout =>
      if negb (returncode =? 0) then Ok (scan_error "Scan failed")
      else
        try_except
          (data ← json_load stdout;
           results ← py_get data "Results" (VList []);
           targets ← py_iter results;
           counts ← for_each count_target no_counts targets;
           Ok (VDict (VInt <$> counts)))
          [JSONDecodeError]
          (λ _, Ok (scan_error "Invalid scan output"))
  end.

End Trivy.

(** The number of severities in [l] that are [s]. *)
Definition count_severity (s : string) (l : list string) : Z :=
  Z.of_nat (length (filter (λ x, x = s) l)).

(** A Trivy document with one target that lists three vulnerabilities. *)
Definition trivy_report : value :=
  VDict {[ "SchemaVersion" := VInt 2;
           "Results" := VList
             [ VDict {[ "Target" := VStr "app (alpine 3.19)";
                        "Vulnerabilities" := VList
                          [ VDict {[ "VulnerabilityID" := VStr "CVE-2024-0001";
                                     "Severity" := VStr "CRITICAL" ]};
                            VDict {[ "VulnerabilityID" := VStr "CVE-2024-0002";
                                     "Severity" := VStr "MEDIUM" ]};
                            VDict {[ "VulnerabilityID" := VStr "CVE-2024-0003";
                                     "Severity" := VStr "CRITICAL" ]} ] ]} ] ]}.

(** The three counters, none of them negative. *)
Definition well_counted (counts : gmap string Z) : Prop :=
  ∃ c h m, counts = {[ "CRITICAL" := c; "HIGH" := h; "MEDIUM" := m ]} ∧
           0 ≤ c ∧ 0 ≤ h ∧ 0 ≤ m.

(** [vuln] is a JSON object whose severity, "UNKNOWN" when it gives none,
    is the string [sev]. *)
Definition vuln_of_severity (vuln : value) (sev : string) : Prop :=
  ∃ m, vuln = VDict m ∧ default (VStr "UNKNOWN") (m !! "Severity") = VStr sev.

(** [target] is a JSON object whose vulnerabilities, none when it lists
    none, are JSON objects of the severities [sevs]. *)
Definition target_of_severities (target : value) (sevs : list string) : Prop :=
  ∃ t vulns, target = VDict t ∧
             default (VList []) (t !! "Vulnerabilities") = VList vulns ∧
             Forall2 vuln_of_severity vulns sevs.

(** The scan of [image] went through and counted at least one
    vulnerability of severity [sev]. *)
Definition scan_found (E : outside) (sev : string) (image : string) : Prop :=
  ∃ m n, _scan_image_trivy E image = VDict m ∧ m !! "error" = None ∧
         m !! sev = Some (VInt n) ∧ 0 < n.

(** The scan of [image] gave an entry with an ["error"] key. *)
Definition scan_failed (E : outside) (image : string) : Prop :=
  ∃ m, _scan_image_trivy E image = VDict m ∧ is_Some (m !! "error").

(** What the loop of [check_containers] has computed once it has handled
    the images [handled], each of them scanned. *)
Definition scans_summed (E : outside) (handled : list string)
    (st : Containers.loop_state) : Prop :=
  Containers.cached_data st = VDict ∅ ∧
  0 ≤ Containers.scanned st ∧
  0 ≤ Containers.total_critical st ∧ 0 ≤ Containers.total_high st ∧
  (Containers.scanned st = 0 ↔ Forall (scan_failed E) handled) ∧
  (Containers.errors st = [] ↔ Forall (λ image, ¬ scan_failed E image) handled) ∧
  (0 < Containers.total_critical st ↔ Exists (scan_found E "CRITICAL") handled) ∧
  (0 < Containers.total_high st ↔ Exists (scan_found E "HIGH") handled).

(** An outside world in which the scan of the running image finds two
    critical vulnerabilities and one of medium severity. *)
Definition vulnerable_outside : outside :=
  mkOutside (expanduser plain_outside) (py_str plain_outside) true
    (_get_domain_expiry plain_outside) (fromisoformat plain_outside)
    (isoformat plain_outside) true ["registry.local/app:1.4"]
    (λ _, VDict {[ "CRITICAL" := VInt 2; "HIGH" := VInt 0; "MEDIUM" := VInt 1 ]}).

(** ** checks/cves.py: [check_cves]

    The cache functions of this file are those of checks/domains.py with
    the file name "cves.json". *)

Module Cves.

(** An entry of the list [_get_local_packages] builds. *)
Record package := mkPackage {
  pkg_name : string;
  pkg_version : string;
  pkg_ecosystem : string
}.

(** What the check takes from the system and from OSV.dev. *)
Record world := mkWorld {
  _get_local_packages : list package;
  _query_osv : package → list value
}.

Definition important_packages : list string :=
  [ "openssl"; "openssh"; "curl"; "wget"; "bash"; "sudo";
    "git"; "python3"; "python"; "nodejs"; "nginx"; "apache2";
    "httpd"; "postgresql"; "mysql"; "mariadb"; "redis";
    "docker"; "containerd"; "linux-image" ].

(** [any(imp in p["name"].lower() for imp in important_packages)] *)
Definition is_important (p : package) : bool :=
  existsb (λ imp, Py.contains imp (Py.lower (pkg_name p))) important_packages.

Definition packages_to_check (packages : list package) : list package :=
  take 20 (filter (λ p, is_important p = true) packages).

(** [[v for v in vulns if v["severity"] == s]] *)
Fixpoint select (s : string) (items : list value) : exc (list value) :=
  match items with
  | [] => Ok []
  | v :: items' =>
      severity ← py_getitem v "severity";
      rest ← select s items';
      Ok (if is_str s severity then v :: rest else rest)
  end.

(** The detail line of one advisory. *)
Definition detail_of (E : outside) (vuln : value) : exc string :=
  has_fix ← py_getitem vuln "has_fix";
  let fix_str := if truthy has_fix then " - update available" else "" in
  id ← py_getitem vuln "id";
  package ← py_getitem vuln "package";
  severity ← py_getitem vuln "severity";
  Ok (py_str E id +:+ ": " +:+ py_str E package +:+ " (" +:+
      py_str E severity +:+ ")" +:+ fix_str).

(** From [if not vulns:] to the end of the function.  [len(vulns)] is
    computed after the four comprehensions went over [vulns]: on a value
    that is not a list they raise at its first item. *)
Definition report (E : outside) (vulns : value) : exc (list CheckResult) :=
  if negb (truthy vulns) then
    Ok [CheckResult_new "cves" OK "CVEs: No known vulnerabilities"]
  else
    items ← py_iter vulns;
    critical ← select "critical" items;
    high ← select "high" items;
    medium ← select "medium" items;
    low ← select "low" items;
    let status :=
      match critical, high with
      | _ :: _, _ => ERROR
      | [], _ :: _ => WARNING
      | [], [] => OK
      end in
    let total := length items in
    let result :=
      CheckResult_new "cves" status
        ("CVEs: " +:+ pretty total +:+
         " advisory(ies) affecting installed packages") in
    lines ← mapM (detail_of E) (take 10 (critical ++ high));
    let result := add_details result lines in
    let result :=
      if (10 <? length (critical ++ high))%nat then
        add_detail result
          ("... and " +:+ pretty (length (critical ++ high) - 10)%nat +:+
           " more high/critical")
      else result in
    let result :=
      match medium, low with
      | [], [] => result
      | _, _ =>
          add_detail result
            ("Plus " +:+ pretty (length medium) +:+ " medium, " +:+
             pretty (length low) +:+ " low severity")
      end in
    Ok [result].

(** [check_local] is [config.get("check_local", True)]; the lookups are
    the names of the packages OSV was asked about. *)
Definition check_cves (E : outside) (W : world) (s : fs) (now : Z)
    (check_local : value) (C : cache_settings) : check_run :=
  if negb (truthy check_local) then mkCheckRun (Ok []) s []
  else
    let opened : exc (option path * value) * fs :=
      if use_cache C then
        match _get_cache_path (expanduser E) "cves.json" s (cache_dir C) with
        | (Ok cache_path, s') =>
            ((λ d, (Some cache_path, d)) <$>
               _load_cache s' now cache_path (cache_hours C), s')
        | (Raise e, s') => (Raise e, s')
        end
      else (Ok (None, VDict ∅), s) in
    match opened with
    | (Raise e, s') => mkCheckRun (Raise e) s' []
    | (Ok (cache_path, cached_data), s') =>
        match py_get cached_data "vulns" VNone with
        | Raise e => mkCheckRun (Raise e) s' []
        | Ok cached_vulns =>
            if truthy cached_vulns then
              mkCheckRun (report E cached_vulns) s' []
            else
              match _get_local_packages W with
              | [] =>
                  mkCheckRun
                    (Ok [CheckResult_new "cves" OK
                           "CVEs: No package manager detected"]) s' []
              | packages =>
                  let to_check := packages_to_check packages in
                  let vulns := to_check ≫= _query_osv W in
                  let saved : exc unit * fs :=
                    match cache_path with
                    | Some cache_path =>
                        _save_cache s' now cache_path
                          (VDict {[ "vulns" := VList vulns ]})
                    | None => (Ok (), s')
                    end in
                  match saved with
                  | (Raise e, s'') =>
                      mkCheckRun (Raise e) s'' (pkg_name <$> to_check)
                  | (Ok _, s'') =>
                      mkCheckRun (report E (VList vulns)) s''
                                 (pkg_name <$> to_check)
                  end
              end
        end
    end.

End Cves.

(** The severity of the advisory [v] is the string [s]. *)
Definition has_severity (s : string) (v : value) : Prop :=
  ∃ severity, py_getitem v "severity" = Ok severity ∧ is_str s severity = true.

(** A system with one important package for which OSV lists no advisory. *)
Definition patched_world : Cves.world :=
  Cves.mkWorld [Cves.mkPackage "openssl" "3.0.13-1" "Debian";
                Cves.mkPackage "vim" "9.1" "Debian"]
               (λ _, []).

Definition cves_json : path := ("/home/hud/.cache/daily-hud", "cves.json").

(** One advisory as [_query_osv] builds it. *)
Definition advisory : value :=
  VDict {[ "id" := VStr "CVE-2024-0001"; "summary" := VStr "Buffer overflow";
           "severity" := VStr "critical"; "has_fix" := VBool true;
           "package" := VStr "openssl" ]}.

(** The file system after a run that found nothing, and after one that
    found [advisory]. *)
Definition clean_cves_fs : fs :=
  mkFs {[ "/home/hud/.cache/daily-hud" ]}
       {[ cves_json := mkFile 0 (Json (VDict {[ "vulns" := VList [] ]})) true ]}
       false.

Definition found_cves_fs : fs :=
  mkFs {[ "/home/hud/.cache/daily-hud" ]}
       {[ cves_json :=
            mkFile 0 (Json (VDict {[ "vulns" := VList [advisory] ]})) true ]}
       false.

(** The CVE check called once at each of the times [times], each call on
    the file system the previous call left. *)
Fixpoint check_cves_at (E : outside) (W : Cves.world) (s : fs)
    (times : list Z) (check_local : value) (C : cache_settings)
    : list check_run :=
  match times with
  | [] => []
  | now :: times' =>
      let r := Cves.check_cves E W s now check_local C in
      r :: check_cves_at E W (fs_after r) times' check_local C
  end.

(** The cache file is missing, or it is a readable file that holds an
    empty list of advisories. *)
Definition no_cached_advisory (f : option file) : Prop :=
  f = None ∨
  ∃ mtime, f = Some (mkFile mtime (Json (VDict {[ "vulns" := VList [] ]})) true).

(** An event that is the report of the run, in either form. *)
Definition is_report (ev : event) : bool :=
  match ev with
  | ReportJson _ _ | ReportText _ _ => true
  | _ => false
  end.

(** A line on standard error that is the warning of the [except
    SecretsError] branch of [main]. *)
Definition is_secrets_warning (ev : event) : Prop :=
  match ev with
  | Stderr line => Py.startswith "Warning: Could not load secrets" line = true
  | _ => False
  end.

(** * Properties *)

Example strip_ex : Py.strip "  ssh 	" = "ssh". Proof. reflexivity. Qed.
Example split_ex : Py.split ","%char "a, b,,c" = ["a"; " b"; ""; "c"]. Proof. reflexivity. Qed.
Example split_ex2 : Py.split ","%char "" = [""]. Proof. reflexivity. Qed.
Example title_ex : Py.title "ssh-hOSTS x1y" = "Ssh-Hosts X1Y". Proof. reflexivity. Qed.
Example contains_ex : Py.contains "not signed in" "you are not signed in." = true. Proof. reflexivity. Qed.
Example take_ex : Py.take 3 "ab" = "ab". Proof. reflexivity. Qed.

(** ** Aggregation: exit code and counts *)

Section aggregation.

Implicit Types (l : list CheckResult) (r : CheckResult) (st : Status).

Lemma any_status_true st l :
  any_status st l = true ↔ ∃ r, r ∈ l ∧ status r = st.
Proof.
  unfold any_status. rewrite existsb_exists. split.
  - intros (r & Hin & Hst). exists r. split.
    + by apply list_elem_of_In.
    + by apply bool_decide_eq_true in Hst.
  - intros (r & Hin & Hst). exists r. split.
    + by apply list_elem_of_In.
    + by apply bool_decide_eq_true.
Qed.

Lemma any_status_false st l :
  any_status st l = false ↔ ¬ ∃ r, r ∈ l ∧ status r = st.
Proof.
  rewrite <- any_status_true. destruct (any_status st l); naive_solver.
Qed.

Lemma any_status_app st l1 l2 :
  any_status st (l1 ++ l2) = any_status st l1 || any_status st l2.
Proof. apply existsb_app. Qed.

Lemma count_status_app st l1 l2 :
  count_status st (l1 ++ l2) = (count_status st l1 + count_status st l2)%nat.
Proof. unfold count_status. by rewrite filter_app, length_app. Qed.

Lemma count_status_cons st r l :
  count_status st (r :: l) =
  ((if bool_decide (status r = st) then 1 else 0) + count_status st l)%nat.
Proof.
  unfold count_status. rewrite filter_cons.
  case_bool_decide; case_decide; naive_solver.
Qed.

Lemma exit_code_2 l : exit_code l = 2 ↔ ∃ r, r ∈ l ∧ status r = ERROR.
Proof.
  unfold exit_code. rewrite <- any_status_true.
  destruct (any_status ERROR l), (any_status WARNING l); split; done.
Qed.

Lemma exit_code_1 l :
  exit_code l = 1 ↔
    (¬ ∃ r, r ∈ l ∧ status r = ERROR) ∧ ∃ r, r ∈ l ∧ status r = WARNING.
Proof.
  unfold exit_code. rewrite <- !any_status_true.
  destruct (any_status ERROR l), (any_status WARNING l);
    (split; [intros ? | intros [? ?]]); try done; split; done.
Qed.

Lemma exit_code_0 l :
  exit_code l = 0 ↔
    (¬ ∃ r, r ∈ l ∧ status r = ERROR) ∧ ¬ ∃ r, r ∈ l ∧ status r = WARNING.
Proof.
  unfold exit_code. rewrite <- !any_status_true.
  destruct (any_status ERROR l), (any_status WARNING l);
    (split; [intros ? | intros [? ?]]); try done; split; done.
Qed.

(** C1. The exit code is 2 exactly when some collected result is an ERROR,
    1 exactly when none is an ERROR and some is a WARNING, 0 exactly when
    none is either; a synthetic ERROR result anywhere in the flattened
    list forces 2; and a run whose fan-in returns exits with the code of
    its flattened list, synthetic results included. *)
Theorem exit_code_worst_severity l :
  (exit_code l = 2 ↔ ∃ r, r ∈ l ∧ status r = ERROR) ∧
  (exit_code l = 1 ↔
     (¬ ∃ r, r ∈ l ∧ status r = ERROR) ∧ ∃ r, r ∈ l ∧ status r = WARNING) ∧
  (exit_code l = 0 ↔
     (¬ ∃ r, r ∈ l ∧ status r = ERROR) ∧ ¬ ∃ r, r ∈ l ∧ status r = WARNING) ∧
  (∀ l' check_name msg,
     exit_code (l ++ CheckResult_new check_name ERROR msg :: l') = 2) ∧
  (∀ a timeout W check_name checks_to_run,
     term (run_and_report a timeout W (check_name :: checks_to_run)) =
     match fan_in timeout (submit_all W (check_name :: checks_to_run)) with
     | Ok st => SysExit (exit_code (all_flat_results st))
     | Raise e => Uncaught e
     end).
Proof.
  split; [apply exit_code_2|]. split; [apply exit_code_1|].
  split; [apply exit_code_0|]. split.
  - intros l' check_name msg. apply exit_code_2.
    exists (CheckResult_new check_name ERROR msg). split; [|done].
    apply elem_of_app. right. apply list_elem_of_here.
  - intros a timeout W check_name checks_to_run. unfold run_and_report.
    by destruct (fan_in timeout (submit_all W (check_name :: checks_to_run))).
Qed.





End aggregation.

(** ** Orchestration: the fan-in loop *)

Section orchestration.

Implicit Types (st : run_state) (f g : future) (ys : list future).




(** A yielded future is finished: its [result] never times out. *)
Lemma future_result_finished now f t :
  fut_done_at f ≤ now → future_result now f t = fut_outcome f.
Proof. intros. unfold future_result. rewrite bool_decide_eq_true_2; auto. Qed.

Lemma collect_store timeout now st f :
  fut_done_at f ≤ now → collect timeout now st f = store st f.
Proof.
  intros Hdone. unfold collect, store, unit_results.
  rewrite future_result_finished by done.
  by destruct (fut_outcome f) as [[sec rs]|e].
Qed.

Lemma collect_all_foldl timeout now st ys :
  collect_all timeout now st ys = foldl store st ys.
Proof.
  revert now st. induction ys as [|f ys IH]; intros now st; [done|].
  simpl. rewrite collect_store by lia. apply IH.
Qed.








End orchestration.

Section isolation.

Implicit Types (st : run_state) (f g : future) (ys : list future).

Lemma unit_results_submitted check_name done_at P :
  unit_results (mkFuture check_name done_at (Ok (run_check P check_name))) =
  run_check P check_name.
Proof. unfold unit_results. simpl. by destruct (run_check P check_name). Qed.



End isolation.

(** ** Orchestration: sections and repeated checks *)

Section sections.

Implicit Types (st : run_state) (f g : future) (ys : list future).

Lemma dict_get_is_key {V} (d : list (string * V)) k v :
  dict_get d k = Some v → k ∈ dict_keys d.
Proof.
  induction d as [|[k0 v0] d IH]; [done|]. simpl.
  destruct (String.eqb_spec k0 k) as [->|_].
  - intros _. apply list_elem_of_here.
  - intros H. apply list_elem_of_further. by apply IH.
Qed.



Lemma run_check_section P check_name :
  (run_check P check_name).1 = section_of check_name.
Proof.
  unfold run_check.
  by destruct (called_probe P check_name) as [[rs|e]|].
Qed.





End sections.

(** ** Orchestration: timeouts *)

Section timeouts.

(** The [except] branch of the loop is not reached by a yielded future
    that holds a value: the loop stores what [run_check] returned, however
    long the unit of work took. *)
Lemma collect_submitted timeout now st P check_name done_at :
  done_at ≤ now →
  collect timeout now st (mkFuture check_name done_at (Ok (run_check P check_name)))
  = mkRun (dict_set (all_results st) (section_of check_name)
                    (run_check P check_name).2)
          (all_flat_results st ++ (run_check P check_name).2).
Proof.
  intros Hdone. rewrite collect_store by done.
  unfold store. rewrite unit_results_submitted.
  by rewrite run_check_section.
Qed.


(** C3 on the code.  With a per-check timeout of 30 seconds, a containers
    check that finishes after 100 seconds makes [main] end on an uncaught
    [TimeoutError] after the two submissions: nothing is reported, no
    synthetic result exists, and the exit status is 1.  A containers
    check that finishes after 45 seconds, beyond the per-check timeout,
    has its real result reported as if it had been on time. *)
Theorem slow_probe_is_not_turned_into_a_result :
  main (mkArgs (Some "kubernetes,containers") false) ∅ no_op_cli 30
       (slow_world 100)
    = mkMain [Submit "kubernetes"; Submit "containers"]
             (Uncaught (Exn TimeoutError "1 (of 2) futures unfinished")) ∧
  main (mkArgs (Some "kubernetes,containers") false) ∅ no_op_cli 30
       (slow_world 45)
    = mkMain [ Submit "kubernetes"; Submit "containers";
               ReportText [ ("Kubernetes", [pods_ok]);
                            ("Containers", [images_clean]) ]
                          (mkCounts 2 0 0 2) ]
             (SysExit 0).
Proof. split; by vm_compute. Qed.

End timeouts.

(** ** Selection of the run-set *)

Section selection.

Lemma load_secrets_warned a config O warned secrets :
  load_secrets a config O = Ok (warned, secrets) →
  Forall is_stderr warned.
Proof.
  unfold load_secrets, try_except.
  destruct (get_secrets O config) as [sec|e]; simpl.
  - intros [= <- _]. constructor.
  - case_bool_decide; [|done]. intros [= <- _].
    destruct (json_output a); repeat constructor.
Qed.

Lemma invalid_checks_nonempty checks_to_run c :
  c ∈ checks_to_run → in_CHECKS c = false →
  invalid_checks checks_to_run ≠ [].
Proof.
  intros Hin Hbad Hnil.
  assert (c ∈ invalid_checks checks_to_run) as Hc.
  { unfold invalid_checks. by apply list_elem_of_filter. }
  rewrite Hnil in Hc. by apply elem_of_nil in Hc.
Qed.

(** C7. When the list given with [--only] contains a name that is not
    in the registry, [main] submits no unit of work and prints no report,
    and the process exits with a non-zero status; once the secrets are
    loaded it prints the two lines naming the unknown and the available
    checks and exits with status 1.  An empty run-set gets the message
    "No checks configured" and status 1, again with nothing submitted. *)
Theorem configuration_errors_stop_before_dispatch
    (a : args) (config : gmap string value) (O : op_cli) (timeout : Z)
    (W : nat → unit_world) (s c : string)
    (Honly : only_given a = Some s)
    (Hin : c ∈ explicit_checks s)
    (Hbad : in_CHECKS c = false) :
  let r := main a config O timeout W in
  Forall is_stderr (trace r) ∧
  process_exit_code (term r) ≠ 0 ∧
  (∀ warned secrets,
     load_secrets a config O = Ok (warned, secrets) →
     r = mkMain
           (warned ++
            [ Stderr ("Unknown checks: " +:+
                      Py.join ", " (invalid_checks (explicit_checks s)));
              Stderr ("Available: " +:+ Py.join ", " (dict_keys CHECKS)) ])
           (SysExit 1)) ∧
  run_and_report a timeout W []
    = mkMain [Stderr "No checks configured. Edit your config file."]
             (SysExit 1).
Proof.
  intros r. subst r. unfold main, determine_checks. rewrite Honly.
  pose proof (invalid_checks_nonempty _ _ Hin Hbad) as Hne.
  destruct (invalid_checks (explicit_checks s)) as [|c0 invalid] eqn:Hinv;
    [done|].
  destruct (load_secrets a config O) as [[warned secrets]|e] eqn:Hload.
  - split; [|split; [|split]]; simpl; try done.
    + apply Forall_app. split; [by eapply load_secrets_warned|].
      repeat constructor.
    + by intros ?? [= <- <-].
  - split; [|split; [|split]]; simpl; done.
Qed.

Lemma configuration_errors_stop_before_dispatch_witness :
  only_given (mkArgs (Some "kubernetes, backups") false)
    = Some "kubernetes, backups" ∧
  "backups" ∈ explicit_checks "kubernetes, backups" ∧
  in_CHECKS "backups" = false ∧
  main (mkArgs (Some "kubernetes, backups") false) ∅ no_op_cli 30
       (slow_world 1)
    = mkMain
        [ Stderr "Unknown checks: backups";
          Stderr "Available: todoist, github, kubernetes, truenas, ssh, windows, certs, domains, cves, containers" ]
        (SysExit 1).
Proof.
  assert (Hin : "backups" ∈ explicit_checks "kubernetes, backups").
  { apply list_elem_of_further, list_elem_of_here. }
  split; [reflexivity|]. split; [exact Hin|]. split; [reflexivity|].
  destruct (configuration_errors_stop_before_dispatch
              (mkArgs (Some "kubernetes, backups") false) ∅ no_op_cli 30
              (slow_world 1) "kubernetes, backups" "backups"
              eq_refl Hin eq_refl) as (_ & _ & Hmain & _).
  exact (Hmain [] ∅ eq_refl).
Defined.

End selection.

Section auto_selection.

Variable config : gmap string value.

Lemma auto_select_loop_filter names acc (p : string → bool) :
  (∀ n, n ∈ names → auto_selects config n = Ok (p n)) →
  auto_select_loop config names acc
    = Ok (acc ++ filter (λ n, p n = true) names).
Proof.
  revert acc. induction names as [|n names IH]; intros acc Hp; simpl.
  - by rewrite app_nil_r.
  - rewrite (Hp n) by apply list_elem_of_here. simpl.
    rewrite IH by (intros; by apply Hp, list_elem_of_further).
    rewrite filter_cons. destruct (p n) eqn:Hn.
    + rewrite decide_True by done. by rewrite <- app_assoc.
    + rewrite decide_False by done. done.
Qed.

Lemma is_mapping_dict v : is_mapping v → ∃ d, v = VDict d.
Proof. destruct v; try done. eauto. Qed.

(** C8, as amended.  When the four nested sections the selection reads
    are mappings, the automatic selection returns a run-set; it always
    holds kubernetes and containers; it holds todoist exactly when the
    configuration has a non-empty [todoist_token] entry under [secrets]
    (whether or not that secret resolves), github exactly when
    [github.username] is set, truenas exactly when [truenas.host] is
    set, ssh, windows, certs and domains exactly when their lists are
    non-empty, and cves exactly when [cves.check_local] is unset or
    true. *)
Theorem auto_selection_by_configuration
    (Hmaps : Forall (λ k, is_mapping (config_get config k (VDict ∅)))
                    ["secrets"; "github"; "truenas"; "cves"]) :
  ∃ checks_to_run,
    auto_select config = Ok checks_to_run ∧
    "kubernetes" ∈ checks_to_run ∧
    "containers" ∈ checks_to_run ∧
    ("todoist" ∈ checks_to_run ↔
       truthy <$> py_get (config_get config "secrets" (VDict ∅))
                         "todoist_token" VNone = Ok true) ∧
    ("github" ∈ checks_to_run ↔
       truthy <$> py_get (config_get config "github" (VDict ∅))
                         "username" VNone = Ok true) ∧
    ("truenas" ∈ checks_to_run ↔
       truthy <$> py_get (config_get config "truenas" (VDict ∅))
                         "host" VNone = Ok true) ∧
    ("ssh" ∈ checks_to_run ↔
       truthy (config_get config "ssh_hosts" VNone) = true) ∧
    ("windows" ∈ checks_to_run ↔
       truthy (config_get config "windows_hosts" VNone) = true) ∧
    ("certs" ∈ checks_to_run ↔
       truthy (config_get config "certificates" VNone) = true) ∧
    ("domains" ∈ checks_to_run ↔
       truthy (config_get config "domains" VNone) = true) ∧
    ("cves" ∈ checks_to_run ↔
       truthy <$> py_get (config_get config "cves" (VDict ∅))
                         "check_local" (VBool true) = Ok true).
Proof.
  apply Forall_cons in Hmaps as [(ds & Hs)%is_mapping_dict Hmaps].
  apply Forall_cons in Hmaps as [(dg & Hg)%is_mapping_dict Hmaps].
  apply Forall_cons in Hmaps as [(dt & Ht)%is_mapping_dict Hmaps].
  apply Forall_cons in Hmaps as [(dc & Hc)%is_mapping_dict _].
  rewrite Hs, Hg, Ht, Hc. simpl.
  set (p := λ n : string,
    if String.eqb n "todoist" then truthy (default VNone (ds !! "todoist_token"))
    else if String.eqb n "github" then truthy (default VNone (dg !! "username"))
    else if String.eqb n "kubernetes" then true
    else if String.eqb n "truenas" then truthy (default VNone (dt !! "host"))
    else if String.eqb n "ssh" then truthy (config_get config "ssh_hosts" VNone)
    else if String.eqb n "windows" then
      truthy (config_get config "windows_hosts" VNone)
    else if String.eqb n "certs" then
      truthy (config_get config "certificates" VNone)
    else if String.eqb n "domains" then truthy (config_get config "domains" VNone)
    else if String.eqb n "cves" then
      truthy (default (VBool true) (dc !! "check_local"))
    else if String.eqb n "containers" then true
    else false).
  exists (filter (λ n, p n = true) (dict_keys CHECKS)).
  split.
  { unfold auto_select. rewrite (auto_select_loop_filter _ [] p); [done|].
    intros n Hn. unfold dict_keys, CHECKS in Hn. simpl in Hn.
    repeat (apply elem_of_cons in Hn as [->|Hn]);
      [..|by apply elem_of_nil in Hn];
      unfold auto_selects, and_then, p; rewrite ?Hs, ?Hg, ?Ht, ?Hc; cbn;
      repeat match goal with
             | |- context [truthy ?v] => destruct (truthy v); cbn
             end; reflexivity. }
  assert (Hmem : ∀ n, n ∈ dict_keys CHECKS →
            (n ∈ filter (λ n, p n = true) (dict_keys CHECKS) ↔ p n = true)).
  { intros n Hn. rewrite list_elem_of_filter. tauto. }
  assert (Hok : ∀ b : bool, Ok b = Ok true ↔ b = true).
  { intros b. split; [by intros [= ->] | by intros ->]. }
  assert (Hkeys : ∀ n, In n (dict_keys CHECKS) → n ∈ dict_keys CHECKS).
  { intros n. apply list_elem_of_In. }
  split; [apply Hmem; [apply Hkeys; simpl; tauto | reflexivity]|].
  split; [apply Hmem; [apply Hkeys; simpl; tauto | reflexivity]|].
  repeat split; intros H;
    first [ apply Hmem in H; [|apply Hkeys; simpl; tauto];
            first [exact H | apply Hok; exact H]
          | apply Hmem; [apply Hkeys; simpl; tauto|];
            first [exact H | apply Hok in H; exact H] ].
Qed.

End auto_selection.

Lemma auto_selection_by_configuration_witness :
  Forall (λ k, is_mapping (config_get todoist_configured k (VDict ∅)))
         ["secrets"; "github"; "truenas"; "cves"] ∧
  ∃ checks_to_run,
    auto_select todoist_configured = Ok checks_to_run ∧
    "kubernetes" ∈ checks_to_run ∧
    "containers" ∈ checks_to_run ∧
    "todoist" ∈ checks_to_run.
Proof.
  assert (Hmaps : Forall (λ k, is_mapping (config_get todoist_configured k (VDict ∅)))
                         ["secrets"; "github"; "truenas"; "cves"]).
  { repeat (constructor; [exact I|]). constructor. }
  split; [exact Hmaps|].
  destruct (auto_selection_by_configuration todoist_configured Hmaps)
    as (checks_to_run & Hsel & Hk & Hc & Ht & _).
  exists checks_to_run. repeat split; try done. by apply Ht.
Defined.

(** With the 1Password CLI absent the Todoist secret does not resolve:
    [get_secrets] stores [None] for it.  The automatic selection still
    selects todoist, because the configuration names a reference. *)
Lemma todoist_selected_without_secret :
  get_secrets no_op_cli todoist_configured = Ok {[ "todoist_token" := None ]} ∧
  ¬ secret_resolved {[ "todoist_token" := None ]} "todoist_token" ∧
  auto_select todoist_configured
    = Ok ["todoist"; "kubernetes"; "cves"; "containers"].
Proof.
  split; [by vm_compute|]. split; [|by vm_compute].
  intros [v Hv]. rewrite lookup_singleton_eq in Hv. discriminate.
Qed.

(** ** The cache functions *)

Section cache.

Implicit Types (s : fs) (p : path) (m : gmap string value).

(** Loading never raises. *)
Lemma _load_cache_returns s now p max_age_hours :
  ∃ v, _load_cache s now p max_age_hours = Ok v.
Proof.
  unfold _load_cache. destruct (path_exists s p); simpl; [|by eexists].
  unfold stat_mtime, open_read.
  destruct (fs_files s !! p) as [[mtime content access]|]; simpl;
    [|by eexists].
  destruct (expired now mtime max_age_hours); simpl; [by eexists|].
  destruct access; simpl; [|by eexists].
  destruct content; simpl; by eexists.
Qed.

(** Saving never raises, and leaves the file system as it was when the
    write fails. *)
Lemma _save_cache_returns s now p data :
  (_save_cache s now p data).1 = Ok ().
Proof.
  unfold _save_cache, open_write_dump.
  destruct (fs_readonly s); simpl; [done|].
  case_bool_decide; simpl; [done|].
  by destruct (fs_files s !! p) as [[? ? []]|].
Qed.

Lemma _save_cache_failed s now p data e :
  (open_write_dump s now p data).1 = Raise e →
  (_save_cache s now p data).2 = s.
Proof.
  unfold _save_cache, open_write_dump.
  destruct (fs_readonly s); simpl; [done|].
  case_bool_decide; simpl; [done|].
  by destruct (fs_files s !! p) as [[? ? []]|].
Qed.

Lemma _save_cache_written s now p data :
  (open_write_dump s now p data).1 = Ok () →
  fs_files (_save_cache s now p data).2 !! p
    = Some (mkFile now (Json data) true).
Proof.
  unfold _save_cache, open_write_dump.
  destruct (fs_readonly s); simpl; [done|].
  case_bool_decide; simpl; [done|].
  destruct (fs_files s !! p) as [[? ? []]|]; simpl; try done;
    intros _; apply lookup_insert_eq.
Qed.

(** What loading returns for a readable JSON file. *)
Lemma _load_cache_file s now p max_age_hours mtime v :
  fs_files s !! p = Some (mkFile mtime (Json v) true) →
  _load_cache s now p max_age_hours =
    Ok (if expired now mtime max_age_hours then VDict ∅ else v).
Proof.
  intros Hfile. unfold _load_cache, path_exists, stat_mtime, open_read.
  rewrite Hfile. rewrite bool_decide_eq_true_2 by eauto. simpl.
  by destruct (expired now mtime max_age_hours).
Qed.



End cache.


(** ** The cache directory *)

(** Resolving the cache path raises when the directory cannot be
    created, and only then. *)
Lemma _get_cache_path_raises expanduser file_name s cache_dir :
  expanduser cache_dir ∉ fs_dirs s → fs_readonly s = true →
  (_get_cache_path expanduser file_name s cache_dir).1
    = Raise (os_error "30" "Read-only file system" (expanduser cache_dir)).
Proof.
  intros Hdir Hro. unfold _get_cache_path, mkdir_parents. simpl.
  rewrite bool_decide_eq_false_2 by done. by rewrite Hro.
Qed.

(** C6 on the code.  On a read-only file system without the cache
    directory, [_get_cache_path] raises [OSError]; the exception leaves
    [check_domains] before any domain is looked at, and [run_check] turns
    it into the result of the whole Domains section.  The probe does not
    continue with an empty cache. *)
Theorem cache_directory_error_escapes :
  (_get_cache_path (expanduser plain_outside) "domains.json" readonly_fs
                   "~/.cache/daily-hud").1
    = Raise (Exn OSError
               "[Errno 30] Read-only file system: '/home/hud/.cache/daily-hud'") ∧
  Domains.check_domains plain_outside readonly_fs 0 ["example.org"] 30 cache_on
    = mkCheckRun
        (Raise (Exn OSError
                  "[Errno 30] Read-only file system: '/home/hud/.cache/daily-hud'"))
        readonly_fs [] ∧
  run_check readonly_probes "domains"
    = ("Domains",
       [CheckResult_new "domains" ERROR
          "Domains: Error - [Errno 30] Read-only file system: '/home/hud/.cach"]) ∧
  outcome (Domains.check_domains plain_outside readonly_fs 0 ["example.org"] 30
             (mkCache false "~/.cache/daily-hud" 24))
    = Ok [add_detail (CheckResult_new "domains" ERROR "Domains: 1 issue(s)")
                     "example.org: Domain not found"].
Proof.
  split; [by vm_compute|]. split; [by vm_compute|].
  split; [by vm_compute|]. by vm_compute.
Qed.

(** ** Soft-failure entries in the domains check *)

Section domains_cache.

Variables (E : outside) (now warn_days : Z).
Variables (cached : gmap string value) (d : string) (entry : value).
Hypothesis Hentry : cached !! d = Some entry.
Hypothesis Herror : error_entry entry.

Import Domains.

Lemma classify_frame domain days_left st :
  fetched (classify domain days_left warn_days st) = fetched st ∧
  new_cache (classify domain days_left warn_days st) = new_cache st.
Proof. unfold classify. by repeat case_bool_decide. Qed.

Lemma fetch_effect domain st :
  fetched (fetch E now warn_days domain st) = fetched st ++ [domain] ∧
  ∃ v, new_cache (fetch E now warn_days domain st)
       = <[domain := v]> (new_cache st).
Proof.
  unfold fetch.
  destruct (_get_domain_expiry E domain) as [[success error_msg] expiry].
  destruct success; simpl; [|by eauto].
  destruct expiry as [expiry|]; simpl; [|by eauto].
  destruct (classify_frame domain (days_between expiry now)
              (set_cache domain (VDict {[ "expiry" := VStr (isoformat E expiry) ]})
                 (mkLoop (ok_count st) (warnings st) (errors st) (new_cache st)
                         (fetched st ++ [domain])))) as [-> ->].
  simpl. eauto.
Qed.

(** An iteration looks up at most its own domain and writes only its
    own key of the new cache. *)
Lemma step_effect cached_data domain st st' :
  step E now warn_days cached_data domain st = Ok st' →
  (fetched st' = fetched st ∨ fetched st' = fetched st ++ [domain]) ∧
  ∃ v, new_cache st' = <[domain := v]> (new_cache st).
Proof.
  unfold step.
  destruct (py_in domain cached_data) as [hit|e]; simpl; [|done].
  destruct hit; [|intros [= <-]; destruct (fetch_effect domain st); eauto].
  destruct (py_getitem cached_data domain) as [cache_entry|e]; simpl; [|done].
  destruct (py_get cache_entry "error" VNone) as [err|e]; simpl; [|done].
  destruct (truthy err); [intros [= <-]; simpl; eauto|].
  destruct (py_get cache_entry "expiry" VNone) as [expiry_str|e]; simpl;
    [|done].
  destruct (truthy expiry_str);
    [|intros [= <-]; destruct (fetch_effect domain st); eauto].
  destruct expiry_str as [| | |str| |]; try done.
  destruct (fromisoformat E str) as [expiry|];
    [|intros [= <-]; destruct (fetch_effect domain st); eauto].
  intros [= <-]. simpl.
  destruct (classify_frame domain (days_between expiry now) st) as [-> ->].
  eauto.
Qed.

(** The iteration for a domain whose cached entry is an error entry. *)
Lemma step_error_entry st :
  ∃ line,
    step E now warn_days (VDict cached) d st
      = Ok (set_cache d entry (add_error line st)).
Proof.
  destruct Herror as (err & Hget & Htruthy).
  unfold step. simpl. rewrite Hentry.
  rewrite bool_decide_eq_true_2 by eauto. simpl.
  rewrite Hget. simpl. rewrite Htruthy. eauto.
Qed.

Lemma loop_error_entry domains st res made :
  loop E now warn_days (VDict cached) domains st = (res, made) →
  (d ∉ fetched st → d ∉ made) ∧
  (∀ st', res = Ok st' →
     d ∈ domains ∨ new_cache st !! d = Some entry →
     new_cache st' !! d = Some entry).
Proof.
  revert st. induction domains as [|domain domains IH]; intros st; simpl.
  - intros [= <- <-]. split; [done|].
    intros st' [= <-] [Hin|Hold]; [by apply elem_of_nil in Hin | done].
  - destruct (decide (domain = d)) as [->|Hne].
    + destruct (step_error_entry st) as (line & ->).
      intros Hloop. apply IH in Hloop as [Hfetch Hcache]. simpl in *.
      split; [exact Hfetch|].
      intros st' Hres _. apply (Hcache st' Hres). right.
      apply lookup_insert_eq.
    + destruct (step E now warn_days (VDict cached) domain st) as [st1|e]
        eqn:Hstep.
      * apply step_effect in Hstep as [Hf (v & Hc)].
        intros Hloop. apply IH in Hloop as [Hfetch Hcache].
        split.
        -- intros Hnot. apply Hfetch. destruct Hf as [-> | ->]; [done|].
           rewrite elem_of_app, list_elem_of_singleton.
           intros [?|?]; [done|congruence].
        -- intros st' Hres Hor. apply (Hcache st' Hres).
           destruct Hor as [Hin|Hold].
           ++ apply elem_of_cons in Hin as [->|Hin]; [done|by left].
           ++ right. rewrite Hc. by rewrite lookup_insert_ne.
      * intros [= <- <-]. split; [done|]. done.
Qed.

End domains_cache.

(** ** Soft-failure entries in the containers check *)

Section containers_cache.

Variables (E : outside) (use_cache : bool).
Variables (image : string) (entry : value).
Hypothesis Herror : has_error_key entry.

Import Containers.

Lemma bool_decide_is_Some_Some {A} (x : A) :
  bool_decide (is_Some (Some x)) = true.
Proof. apply bool_decide_eq_true_2. eauto. Qed.

Lemma counts_for_error_entry m :
  m !! image = Some entry →
  ∃ counts cached_data',
    counts_for E use_cache image (VDict m) = Ok (counts, cached_data', true).
Proof.
  intros Hm. unfold counts_for. simpl. rewrite Hm.
  rewrite bool_decide_is_Some_Some. cbn.
  unfold has_error_key in Herror. rewrite Herror. cbn.
  destruct use_cache; cbn; eauto.
Qed.

Lemma counts_for_frame other m counts cached_data' scanned_now :
  other ≠ image →
  counts_for E use_cache other (VDict m) = Ok (counts, cached_data', scanned_now) →
  ∃ m', cached_data' = VDict m' ∧ m' !! image = m !! image.
Proof.
  intros Hne. unfold counts_for. simpl.
  destruct (m !! other) as [x|] eqn:Hother; intros Hc.
  - rewrite bool_decide_is_Some_Some in Hc. cbn in Hc.
    destruct (py_in "error" x) as [has_error|e]; cbn in Hc; [|done].
    destruct has_error; cbn in Hc.
    + destruct use_cache; cbn in Hc.
      * injection Hc as _ <- _. eexists. split; [done|].
        by rewrite lookup_insert_ne.
      * injection Hc as _ <- _. eauto.
    + injection Hc as _ <- _. eauto.
  - case_bool_decide as Hx; [by destruct Hx as [? ?]|]. cbn in Hc.
    destruct use_cache; cbn in Hc.
    + injection Hc as _ <- _. eexists. split; [done|].
      by rewrite !lookup_insert_ne.
    + injection Hc as _ <- _. eauto.
Qed.

Lemma step_scans other st st' made :
  step E use_cache other st = (Ok st', made) →
  ∃ counts cached_data' scanned_now,
    counts_for E use_cache other (cached_data st)
      = Ok (counts, cached_data', scanned_now) ∧
    cached_data st' = cached_data' ∧
    scans st' = (if scanned_now : bool then scans st ++ [other] else scans st).
Proof.
  unfold step.
  destruct (counts_for E use_cache other (cached_data st))
    as [[[counts cached_data'] scanned_now]|e]; [|done].
  intros [= Hres _]. exists counts, cached_data', scanned_now.
  split; [done|].
  destruct (py_in "error" counts) as [has_error|e]; simpl in Hres; [|done].
  destruct has_error.
  - destruct (py_getitem counts "error"); simpl in Hres; [|done].
    by injection Hres as <-.
  - destruct (py_get counts "CRITICAL" (VInt 0)); simpl in Hres; [|done].
    destruct (py_add (total_critical st) _); simpl in Hres; [|done].
    destruct (py_get counts "HIGH" (VInt 0)); simpl in Hres; [|done].
    destruct (py_add (total_high st) _); simpl in Hres; [|done].
    destruct (py_get counts "MEDIUM" (VInt 0)); simpl in Hres; [|done].
    destruct (py_add (total_medium st) _); simpl in Hres; [|done].
    by injection Hres as <-.
Qed.

Lemma loop_rescans images st st' made :
  loop E use_cache images st = (Ok st', made) →
  made = scans st' ∧
  (image ∈ scans st → image ∈ made) ∧
  (rescan_pending image entry st → image ∈ images → image ∈ made).
Proof.
  revert st. induction images as [|other images IH]; intros st; simpl.
  - intros [= <- <-]. split; [done|]. split; [done|].
    intros _ Hin. by apply elem_of_nil in Hin.
  - destruct (step E use_cache other st) as [[st1|e] made1] eqn:Hstep; [|done].
    intros Hloop. apply IH in Hloop as (Hmade & Hmono & Hpend).
    apply step_scans in Hstep
      as (counts & cached_data' & scanned_now & Hcounts & Hcd & Hscans).
    assert (Hkeep : image ∈ scans st → image ∈ scans st1).
    { intros Hin. rewrite Hscans. destruct scanned_now; [|done].
      apply elem_of_app. by left. }
    split; [done|]. split; [by auto|].
    intros Hp Hin. destruct (decide (other = image)) as [->|Hne].
    + destruct Hp as [Hdone | (m & Hm & Hlook)]; [by auto|].
      apply Hmono. rewrite Hscans. rewrite Hm in Hcounts.
      destruct (counts_for_error_entry m Hlook) as (c & cd & Hc).
      rewrite Hc in Hcounts. injection Hcounts as _ _ <-.
      apply elem_of_app. right. apply list_elem_of_here.
    + apply elem_of_cons in Hin as [->|Hin]; [done|].
      apply Hpend; [|done].
      destruct Hp as [Hdone | (m & Hm & Hlook)]; [left; by auto|].
      right. rewrite Hm in Hcounts.
      apply counts_for_frame in Hcounts as (m' & -> & Hm'); [|done].
      exists m'. split; [done|]. by rewrite Hm'.
Qed.

End containers_cache.

(** ** Soft-failure entries: the two checks compared *)

(** C5, as amended.  In the domains check an entry of an unexpired cache
    whose ["error"] value is non-empty is a valid cached value: the check
    makes no WHOIS lookup for that domain, and when it returns it hands
    [_save_cache] a mapping that holds the entry unchanged.  A load within
    the TTL of a save returns the saved mapping, soft-failure entries
    included.  The containers check does the opposite on purpose: an
    image whose cached entry has an ["error"] key is scanned again in
    every run that returns. *)
Theorem domains_keeps_cached_errors_containers_rescans
    (E : outside) (s s' : fs) (now warn_days : Z) (domains : list string)
    (C : cache_settings) (cache_path : path) (cached : gmap string value)
    (d : string) (entry : value)
    (Hwhois : WHOIS_AVAILABLE E = true)
    (Huse : use_cache C = true)
    (Hpath : _get_cache_path (expanduser E) "domains.json" s (cache_dir C)
             = (Ok cache_path, s'))
    (Hload : _load_cache s' now cache_path (cache_hours C) = Ok (VDict cached))
    (Hentry : cached !! d = Some entry)
    (Herror : error_entry entry)
    (Hd : d ∈ domains) :
  let r := Domains.check_domains E s now domains warn_days C in
  (d ∉ lookups r) ∧
  (∀ rs, outcome r = Ok rs →
     ∃ m, m !! d = Some entry ∧
          fs_after r = (_save_cache s' now cache_path (VDict m)).2) ∧
  (∀ s0 p m saved_at later max_age_hours,
     (open_write_dump s0 saved_at p (VDict m)).1 = Ok () →
     later - saved_at ≤ max_age_hours * microseconds_per_hour →
     _load_cache (_save_cache s0 saved_at p (VDict m)).2 later p max_age_hours
       = Ok (VDict m)) ∧
  (∀ E' s1 s1' now' C' vulns_path cached' image entry' rs,
     _check_trivy_available E' = true →
     use_cache C' = true →
     _get_cache_path (expanduser E') "container_vulns.json" s1 (cache_dir C')
       = (Ok vulns_path, s1') →
     _load_cache s1' now' vulns_path (cache_hours C') = Ok (VDict cached') →
     cached' !! image = Some entry' →
     has_error_key entry' →
     image ∈ take 10 (_get_running_images E') →
     outcome (Containers.check_containers E' s1 now' "trivy" C') = Ok rs →
     image ∈ lookups (Containers.check_containers E' s1 now' "trivy" C')).
Proof.
  intros r. subst r.
  assert (Hrun : ∃ res made,
    Domains.loop E now warn_days (VDict cached) domains
                 (Domains.mkLoop 0 [] [] ∅ []) = (res, made) ∧
    Domains.check_domains E s now domains warn_days C =
      match res with
      | Raise e => mkCheckRun (Raise e) s' made
      | Ok st =>
          mkCheckRun (Ok (Domains.build_results domains warn_days st))
            (_save_cache s' now cache_path (VDict (Domains.new_cache st))).2 made
      end).
  { destruct (Domains.loop E now warn_days (VDict cached) domains
                (Domains.mkLoop 0 [] [] ∅ [])) as [res made] eqn:Hloop.
    exists res, made. split; [done|].
    unfold Domains.check_domains.
    destruct domains as [|d0 domains']; [by apply elem_of_nil in Hd|].
    rewrite Hwhois, Huse, Hpath, Hload. cbn -[Domains.loop]. rewrite Hloop.
    destruct res as [st|e]; [|done].
    pose proof (_save_cache_returns s' now cache_path
                  (VDict (Domains.new_cache st))) as Hsave.
    destruct (_save_cache s' now cache_path (VDict (Domains.new_cache st)))
      as [saved s'']. simpl in Hsave. by rewrite Hsave. }
  destruct Hrun as (res & made & Hloop & ->).
  pose proof (loop_error_entry E now warn_days cached d entry Hentry Herror
                domains _ res made Hloop) as [Hfetch Hcache].
  split; [|split; [|split]].
  - destruct res; simpl; apply Hfetch; simpl; apply not_elem_of_nil.
  - intros rs Hout. destruct res as [st|e]; [|done]. simpl.
    exists (Domains.new_cache st). split; [|done].
    apply Hcache; [done|by left].
  - intros s0 p m saved_at later max_age_hours Hwrite Hfresh.
    rewrite (_load_cache_file _ _ _ _ saved_at (VDict m)).
    + unfold expired. by rewrite bool_decide_eq_false_2 by lia.
    + by apply _save_cache_written.
  - intros E' s1 s1' now' C' vulns_path cached' image entry' rs
           Htrivy Huse' Hpath' Hload' Hentry' Herror' Himage.
    unfold Containers.check_containers.
    cbn -[Containers.loop take]. rewrite Htrivy, Huse', Hpath', Hload'.
    cbn -[Containers.loop take].
    destruct (_get_running_images E') as [|i images] eqn:Himages;
      [by apply elem_of_nil in Himage|].
    destruct (Containers.loop E' true (take 10 (i :: images))
                (Containers.mkLoop (VDict cached') 0 0 0 [] 0 []))
      as [[st|e] made'] eqn:Hloop'; [|done].
    pose proof (_save_cache_returns s1' now' vulns_path
                  (Containers.cached_data st)) as Hsave.
    destruct (_save_cache s1' now' vulns_path (Containers.cached_data st))
      as [saved s1'']. simpl in Hsave. rewrite Hsave. simpl. intros _.
    apply (loop_rescans E' true image entry' Herror') in Hloop'
      as (_ & _ & Hpend).
    apply Hpend; [|done]. right. simpl. eauto.
Qed.

Lemma domains_keeps_cached_errors_containers_rescans_witness :
  _get_cache_path (expanduser plain_outside) "domains.json" cached_fs
                  (cache_dir cache_on) = (Ok domains_json, cached_fs) ∧
  _load_cache cached_fs 1000000 domains_json (cache_hours cache_on)
    = Ok (VDict failed_lookup) ∧
  failed_lookup !! "example.org"
    = Some (VDict {[ "error" := VStr "WHOIS server unavailable" ]}) ∧
  error_entry (VDict {[ "error" := VStr "WHOIS server unavailable" ]}) ∧
  "example.org" ∉
    lookups (Domains.check_domains plain_outside cached_fs 1000000
               ["example.org"] 30 cache_on).
Proof.
  assert (Hpath : _get_cache_path (expanduser plain_outside) "domains.json"
                    cached_fs (cache_dir cache_on) = (Ok domains_json, cached_fs))
    by (by vm_compute).
  assert (Hload : _load_cache cached_fs 1000000 domains_json (cache_hours cache_on)
                  = Ok (VDict failed_lookup)) by (by vm_compute).
  assert (Hentry : failed_lookup !! "example.org"
                   = Some (VDict {[ "error" := VStr "WHOIS server unavailable" ]}))
    by (by vm_compute).
  assert (Herror : error_entry (VDict {[ "error" := VStr "WHOIS server unavailable" ]})).
  { exists (VStr "WHOIS server unavailable"). split; by vm_compute. }
  split; [exact Hpath|]. split; [exact Hload|]. split; [exact Hentry|].
  split; [exact Herror|].
  exact (proj1 (domains_keeps_cached_errors_containers_rescans
                  plain_outside cached_fs cached_fs 1000000 30 ["example.org"]
                  cache_on domains_json failed_lookup "example.org"
                  (VDict {[ "error" := VStr "WHOIS server unavailable" ]})
                  eq_refl eq_refl Hpath Hload Hentry Herror
                  (list_elem_of_here _ _))).
Defined.

(** The containers check one second after its cache was saved with a
    soft-failure entry for the only running image: the entry is read
    back from the unexpired cache, and the image is scanned again. *)
Lemma containers_rescans_cached_error :
  _load_cache cached_fs 1000000 vulns_json 6 = Ok (VDict failed_scan) ∧
  failed_scan !! "registry.local/app:1.4"
    = Some (VDict {[ "error" := VStr "Scan timed out" ]}) ∧
  _get_running_images plain_outside = ["registry.local/app:1.4"] ∧
  lookups (Containers.check_containers plain_outside cached_fs 1000000 "trivy"
             (mkCache true "~/.cache/daily-hud" 6))
    = ["registry.local/app:1.4"].
Proof.
  split; [by vm_compute|]. split; [by vm_compute|].
  split; [reflexivity|]. by vm_compute.
Qed.

(** * Further properties of the code *)

(** ** output.py: what is printed *)

Section printing.

Implicit Types (l : list CheckResult) (r : CheckResult) (st : Status).

Lemma count_status_positive st l :
  (0 < count_status st l)%nat ↔ ∃ r, r ∈ l ∧ status r = st.
Proof.
  induction l as [|r l IH].
  - split; [unfold count_status; simpl; lia|].
    intros (? & Hin & _). by apply elem_of_nil in Hin.
  - rewrite count_status_cons. case_bool_decide as Hr.
    + split; [|lia]. intros _. exists r. split; [apply list_elem_of_here|done].
    + simpl. rewrite IH. split.
      * intros (r' & Hin & Hst). exists r'. split; [|done].
        by apply list_elem_of_further.
      * intros (r' & Hin & Hst). exists r'. split; [|done].
        apply elem_of_cons in Hin as [->|Hin]; [done|exact Hin].
Qed.

Lemma prefix_append s t : String.prefix s (s +:+ t) = true.
Proof.
  induction s as [|a s IH]; [by destruct t|].
  change (String a s +:+ t) with (String a (s +:+ t)). simpl.
  by destruct (ascii_dec a a).
Qed.

Lemma prefix_split s t : String.prefix s t = true → ∃ rest, t = s +:+ rest.
Proof.
  revert t. induction s as [|a s IH]; intros t; [by exists t|].
  destruct t as [|b t]; simpl; [done|].
  destruct (ascii_dec a b) as [<-|]; [|done].
  intros (rest & ->)%IH. by exists rest.
Qed.

Lemma detail_line_indented detail :
  Py.startswith "    " (detail_line detail) = true ∧
  (detail_line detail = "  " +:+ detail ∨ detail_line detail = "    " +:+ detail).
Proof.
  unfold detail_line, Py.startswith.
  destruct (String.prefix "  " detail) eqn:Hp.
  - split; [|by left]. apply prefix_split in Hp as (rest & ->).
    apply (prefix_append "    " rest).
  - split; [apply prefix_append | by right].
Qed.

(** X1. An OK result printed without the verbose flag is one line, its
    details hidden; a result that is not OK, or any result under the
    verbose flag, is one status line followed by one line per detail.
    Every printed detail line starts with four spaces and is the detail
    itself behind two or four spaces. *)
Theorem details_hidden_when_ok_and_indented r (use_color verbose : bool) :
  hd_error (print_result r use_color verbose)
    = Some (format_status (status r) use_color +:+ " " +:+ message r) ∧
  (status r = OK → verbose = false →
   print_result r use_color verbose
     = [format_status OK use_color +:+ " " +:+ message r]) ∧
  (status r ≠ OK ∨ verbose = true →
   tail (print_result r use_color verbose) = detail_line <$> details r) ∧
  (∀ line, line ∈ tail (print_result r use_color verbose) →
     Py.startswith "    " line = true ∧
     ∃ detail, detail ∈ details r ∧
               (line = "  " +:+ detail ∨ line = "    " +:+ detail)).
Proof.
  unfold print_result. split; [done|]. split; [|split].
  - intros -> ->. by destruct (details r).
  - intros Hshow. simpl.
    destruct (details r) as [|d ds] eqn:Hd; [done|].
    destruct Hshow as [Hne| ->].
    + by rewrite bool_decide_eq_false_2.
    + by rewrite orb_true_r.
  - intros line Hline. simpl in Hline.
    assert (Hin : line ∈ detail_line <$> details r).
    { destruct (details r) as [|d ds]; [by apply elem_of_nil in Hline|].
      destruct (negb _ || verbose); [done|by apply elem_of_nil in Hline]. }
    apply list_elem_of_fmap in Hin as (detail & -> & Hdetail).
    destruct (detail_line_indented detail) as [Hind Hshape].
    split; [done|]. by exists detail.
Qed.

Lemma summary_parts_empty l use_color :
  summary_parts l use_color = [] ↔
  count_status ERROR l = 0%nat ∧ count_status WARNING l = 0%nat.
Proof.
  unfold summary_parts.
  destruct (count_status ERROR l) as [|e], (count_status WARNING l) as [|w];
    repeat case_bool_decide; simpl; try lia; split; try done;
    intros [? ?]; done.
Qed.

(** X2. The summary line reads "All systems OK" exactly when the exit
    code is 0: the list [parts] of [print_summary] is empty if and only if
    no result is an ERROR or a WARNING.  Results of status UNKNOWN do not
    prevent it, and a run with results of status OK only never lists an
    "OK" part. *)
Theorem summary_all_ok_iff_exit_zero l (elapsed : string) (use_color : bool) :
  (summary_parts l use_color = [] ↔ exit_code l = 0) ∧
  (exit_code l = 0 →
   print_summary l elapsed use_color !! 2%nat
     = Some ("Summary: " +:+ colorize "All systems OK" Colors.GREEN use_color
             +:+ " - " +:+ pretty (length l) +:+ " checks in " +:+ elapsed
             +:+ "s")) ∧
  (Forall (λ r, status r = OK ∨ status r = UNKNOWN) l →
   summary_parts l use_color = []) ∧
  length (print_summary l elapsed use_color) = 4%nat.
Proof.
  assert (Hiff : summary_parts l use_color = [] ↔ exit_code l = 0).
  { rewrite summary_parts_empty, exit_code_0.
    rewrite <- !count_status_positive. lia. }
  split; [exact Hiff|]. split; [|split; [|done]].
  - intros Hzero%Hiff. unfold print_summary. by rewrite Hzero.
  - intros Hall. apply Hiff, exit_code_0. rewrite Forall_forall in Hall.
    split; intros (r & Hin & Hst); destruct (Hall r Hin); congruence.
Qed.

Lemma append_assoc s1 s2 s3 : (s1 +:+ s2) +:+ s3 = s1 +:+ s2 +:+ s3.
Proof.
  induction s1 as [|a s1 IH]; [done|].
  change ((String a s1 +:+ s2) +:+ s3) with (String a ((s1 +:+ s2) +:+ s3)).
  by rewrite IH.
Qed.

Lemma py_len_app s1 s2 : py_len (s1 +:+ s2) = (py_len s1 + py_len s2)%nat.
Proof.
  induction s1 as [|a s1 IH]; [done|].
  change (String a s1 +:+ s2) with (String a (s1 +:+ s2)).
  simpl. rewrite IH. lia.
Qed.

Lemma py_len_repeat_dash n : py_len (py_repeat "─" n) = n.
Proof.
  induction n as [|n IH]; [done|].
  simpl py_repeat. rewrite py_len_app, IH. done.
Qed.

(** X3. The section header is the name between "── " and a space, filled
    with dashes to 60 characters: its length in characters is 60 when the
    name has at most 56 characters, and the length of the name plus 4
    otherwise; the name is never cut. *)
Theorem section_header_width (name : string) :
  py_len (section_header name) = Nat.max 60 (py_len name + 4) ∧
  ∃ dashes, section_header name
            = "── " +:+ name +:+ " " +:+ py_repeat "─" dashes.
Proof.
  unfold section_header. split.
  - rewrite py_len_app, py_len_repeat_dash.
    rewrite (py_len_app "── "), (py_len_app name).
    change (py_len "── ") with 3%nat. change (py_len " ") with 1%nat. lia.
  - eexists. rewrite !append_assoc. reflexivity.
Qed.

Lemma Status_value_inj st1 st2 : Status_value st1 = Status_value st2 → st1 = st2.
Proof. by destruct st1, st2. Qed.

Lemma result_to_json_inj r1 r2 : result_to_json r1 = result_to_json r2 → r1 = r2.
Proof.
  destruct r1 as [n1 s1 m1 d1], r2 as [n2 s2 m2 d2]. unfold result_to_json.
  simpl. intros [= -> Hs -> ->]. by apply Status_value_inj in Hs as ->.
Qed.

(** X4. The JSON form of the results loses nothing: it lists the sections
    under the same names in the same order, and two result dictionaries
    with the same JSON form are equal. *)
Theorem results_to_json_faithful (d1 d2 : list (string * list CheckResult))
    (Hsame : results_to_json d1 = results_to_json d2) :
  d1 = d2 ∧ (results_to_json d1).*1 = d1.*1.
Proof.
  split.
  - assert (Hinj : Inj (=) (=) result_to_json).
    { intros r1 r2. apply result_to_json_inj. }
    revert d2 Hsame. induction d1 as [|[s1 rs1] d1 IH]; intros [|[s2 rs2] d2] H;
      try done.
    unfold results_to_json in H. rewrite !fmap_cons in H.
    apply (inj2 cons) in H as [Hhead Hrest]. simpl in Hhead.
    apply (inj2 pair) in Hhead as [-> Hrs].
    apply (inj (fmap result_to_json)) in Hrs as ->.
    f_equal. by apply IH.
  - unfold results_to_json. rewrite <- list_fmap_compose. done.
Qed.

Lemma results_to_json_faithful_witness :
  results_to_json [("Kubernetes", [pods_ok; nodes_warn])]
    = results_to_json [("Kubernetes", [pods_ok; nodes_warn])] ∧
  (results_to_json [("Kubernetes", [pods_ok; nodes_warn])]).*1 = ["Kubernetes"].
Proof.
  split; [reflexivity|].
  exact (proj2 (results_to_json_faithful
                  [("Kubernetes", [pods_ok; nodes_warn])]
                  [("Kubernetes", [pods_ok; nodes_warn])] eq_refl)).
Defined.

End printing.

(** ** daily_hud.py: the [--only] list *)

Section only_list.













End only_list.

(** ** secrets.py *)

Section secrets.

Variable O : op_cli.

Lemma get_secret_raises r e :
  get_secret O r = Raise e → exn_class_of e = SecretsError.
Proof.
  unfold get_secret.
  destruct (negb (Py.startswith "op://" r)); [by intros [= <-]|].
  destruct (negb (op_available O)); [by intros [= <-]|].
  destruct (op_read O r) as [[[returncode stdout] stderr]|]; [|by intros [= <-]].
  destruct (negb (returncode =? 0)); [|done].
  destruct (Py.contains _ _); by intros [= <-].
Qed.

Lemma get_secret_returns r v :
  get_secret O r = Ok v ↔
  Py.startswith "op://" r = true ∧ op_available O = true ∧
  ∃ stdout stderr, op_read O r = Some (0, stdout, stderr) ∧ v = Py.strip stdout.
Proof.
  unfold get_secret.
  destruct (Py.startswith "op://" r); simpl; [|by split; [|intros [? _]]].
  destruct (op_available O); simpl; [|by split; [|intros (_ & ? & _)]].
  destruct (op_read O r) as [[[returncode stdout] stderr]|];
    [|split; [done|by intros (_ & _ & ? & ? & ? & _)]].
  destruct (Z.eqb_spec returncode 0) as [->|Hrc]; simpl.
  - split.
    + intros [= <-]. eauto 10.
    + by intros (_ & _ & out & err & [= <- <-] & ->).
  - split.
    + by destruct (Py.contains _ _).
    + intros (_ & _ & out & err & [= ? _ _] & _). done.
Qed.

Lemma get_secrets_entry_returns reference x :
  get_secrets_entry O reference = Ok x →
  is_reference reference ∧ x = secret_of O reference.
Proof.
  destruct reference as [| | |r| |]; try done. simpl.
  unfold try_except. destruct (get_secret O r) as [v|e] eqn:Hget; simpl.
  - by intros [= <-].
  - rewrite (get_secret_raises _ _ Hget).
    rewrite bool_decide_eq_true_2 by apply list_elem_of_here.
    by intros [= <-].
Qed.

Lemma get_secrets_entry_reference reference :
  is_reference reference →
  get_secrets_entry O reference = Ok (secret_of O reference).
Proof.
  destruct reference as [| | |r| |]; try done. intros _. simpl.
  unfold try_except. destruct (get_secret O r) as [v|e] eqn:Hget; simpl; [done|].
  rewrite (get_secret_raises _ _ Hget).
  by rewrite bool_decide_eq_true_2 by apply list_elem_of_here.
Qed.

Lemma get_secrets_entry_raises reference e :
  get_secrets_entry O reference = Raise e →
  ¬ is_reference reference ∧ exn_class_of e ≠ SecretsError.
Proof.
  intros Hraise. destruct reference as [| | |r| |];
    try (simpl in Hraise; injection Hraise as <-; split; [by intros [] | done]).
  by rewrite (get_secrets_entry_reference (VStr r) I) in Hraise.
Qed.

Lemma mapM_exc_ok {A B} (f : A → exc B) (g : A → B) (l : list A) :
  Forall (λ x, f x = Ok (g x)) l → mapM f l = Ok (g <$> l).
Proof.
  induction 1 as [|x l Hx Hl IH]; [done|].
  simpl. rewrite Hx. simpl. rewrite IH. done.
Qed.

Lemma mapM_exc_raise {A B} (f : A → exc B) (l : list A) e :
  mapM f l = Raise e → ∃ x, x ∈ l ∧ f x = Raise e.
Proof.
  induction l as [|x l IH]; [done|]. simpl.
  destruct (f x) as [y|e'] eqn:Hx; simpl.
  - destruct (mapM f l) as [k|e'] eqn:Hl; simpl; [done|].
    intros [= ->]. destruct (IH eq_refl) as (x' & Hin & Hx').
    exists x'. split; [by apply list_elem_of_further | done].
  - intros [= ->]. exists x. split; [apply list_elem_of_here | done].
Qed.

Lemma mapM_exc_all {A B} (f : A → exc B) (l : list A) k :
  mapM f l = Ok k → Forall (λ x, ∃ y, f x = Ok y) l.
Proof.
  revert k. induction l as [|x l IH]; intros k; [constructor|]. simpl.
  destruct (f x) as [y|e] eqn:Hx; simpl; [|done].
  destruct (mapM f l) as [k'|e] eqn:Hl; simpl; [|done].
  intros _. constructor; [by exists y | by eapply IH].
Qed.

(** What [get_secrets] does on a [secrets] section that is a mapping. *)
Lemma get_secrets_mapping config sc :
  config_get config "secrets" (VDict ∅) = VDict sc →
  (map_Forall (λ _ reference, is_reference reference) sc →
   get_secrets O config = Ok (secret_of O <$> sc)) ∧
  (∀ e, get_secrets O config = Raise e →
        exn_class_of e ≠ SecretsError ∧
        ¬ map_Forall (λ _ reference, is_reference reference) sc) ∧
  (∀ secrets, get_secrets O config = Ok secrets →
              map_Forall (λ _ reference, is_reference reference) sc).
Proof.
  intros Hsc. unfold get_secrets. unfold config_get in Hsc. rewrite Hsc.
  set (f := λ kv : string * value,
              v ← get_secrets_entry O kv.2; mret (kv.1, v)).
  assert (Hall : map_Forall (λ _ reference, is_reference reference) sc →
                 mapM f (map_to_list sc)
                 = Ok (prod_map id (secret_of O) <$> map_to_list sc)).
  { intros Hrefs. apply mapM_exc_ok. apply Forall_forall.
    intros [k reference] Hin%elem_of_map_to_list. unfold f. simpl.
    by rewrite (get_secrets_entry_reference reference (Hrefs k reference Hin)). }
  assert (Hbad : ∀ e, mapM f (map_to_list sc) = Raise e →
                 exn_class_of e ≠ SecretsError ∧
                 ¬ map_Forall (λ _ reference, is_reference reference) sc).
  { intros e (kv & Hin & Hraise)%mapM_exc_raise. destruct kv as [k reference].
    apply elem_of_map_to_list in Hin. unfold f in Hraise. simpl in Hraise.
    destruct (get_secrets_entry O reference) as [v|e'] eqn:Hentry; [done|].
    simpl in Hraise. injection Hraise as ->.
    apply get_secrets_entry_raises in Hentry as [Hnot Hclass].
    split; [done|]. intros Hrefs. apply Hnot. by apply (Hrefs k). }
  split; [|split].
  - intros Hrefs. rewrite (Hall Hrefs). simpl. f_equal.
    by rewrite list_to_map_fmap, list_to_map_to_list.
  - intros e. destruct (mapM f (map_to_list sc)) as [entries|e'] eqn:HM; [done|].
    simpl. intros [= ->]. by apply Hbad.
  - intros secrets. destruct (mapM f (map_to_list sc)) as [entries|e'] eqn:HM;
      [|done].
    intros _ k reference Hk%elem_of_map_to_list.
    apply mapM_exc_all in HM. rewrite Forall_forall in HM.
    destruct (HM _ Hk) as [y Hy]. unfold f in Hy. simpl in Hy.
    destruct (get_secrets_entry O reference) as [v|e'] eqn:Hentry; [|done].
    by apply get_secrets_entry_returns in Hentry as [? _].
Qed.

End secrets.

(** ** [str.strip] *)

Section strip.








End strip.

(** ** secrets.py: what the two functions return *)




Lemma auto_select_loop_members config names acc l :
  auto_select_loop config names acc = Ok l →
  (∃ l', l = acc ++ l' ∧ l' `sublist_of` names) ∧
  (∀ n, n ∈ names → auto_selects config n = Ok true → n ∈ l).
Proof.
  revert acc l. induction names as [|name names IH]; intros acc l; simpl.
  - intros [= <-]. split; [exists []; by rewrite app_nil_r|].
    intros n Hn. by apply elem_of_nil in Hn.
  - destruct (auto_selects config name) as [c|e] eqn:Hname; simpl; [|done].
    intros Hloop. apply IH in Hloop as ((l' & -> & Hsub) & Hmem).
    destruct c.
    + split.
      * exists (name :: l'). rewrite <- app_assoc. split; [done|].
        by apply sublist_skip.
      * intros n Hn Hsel. apply elem_of_cons in Hn as [->|Hn]; [|by apply Hmem].
        rewrite <- app_assoc. apply elem_of_app. right. apply list_elem_of_here.
    + split.
      * exists l'. split; [done|]. by apply sublist_cons.
      * intros n Hn Hsel. apply elem_of_cons in Hn as [->|Hn]; [|by apply Hmem].
        congruence.
Qed.

(** X8. A resolved Todoist secret is enough for the automatic selection:
    when [get_secrets] stored a value under [todoist_token], every run-set
    that the automatic selection returns holds todoist. *)
Theorem resolved_todoist_secret_selects_todoist (O : op_cli)
    (config : gmap string value) (secrets : gmap string (option string))
    (checks_to_run : list string)
    (Hsecrets : get_secrets O config = Ok secrets)
    (Hresolved : secret_resolved secrets "todoist_token")
    (Hauto : auto_select config = Ok checks_to_run) :
  "todoist" ∈ checks_to_run.
Proof.
  assert (∃ sc, config_get config "secrets" (VDict ∅) = VDict sc) as [sc Hsc].
  { unfold get_secrets in Hsecrets. unfold config_get.
    destruct (default (VDict ∅) (config !! "secrets")); try done. eauto. }
  destruct (get_secrets_mapping O config sc Hsc) as (Hok & _ & Hrefs).
  pose proof (Hok (Hrefs _ Hsecrets)) as Heq. rewrite Hsecrets in Heq.
  injection Heq as ->. destruct Hresolved as [v Hv].
  rewrite lookup_fmap in Hv.
  destruct (sc !! "todoist_token") as [reference|] eqn:Href; [|done].
  destruct reference as [| | |r| |]; try done. simpl in Hv.
  destruct (get_secret O r) as [v'|e] eqn:Hr; [|done].
  apply get_secret_returns in Hr as (Hprefix & _).
  assert (Htruthy : truthy (VStr r) = true).
  { destruct r; [done|]. done. }
  unfold auto_select in Hauto.
  apply auto_select_loop_members in Hauto as (_ & Hmem).
  apply Hmem; [apply list_elem_of_here|].
  unfold auto_selects, and_then. simpl. rewrite Hsc. simpl. rewrite Href.
  simpl in *. by rewrite Htruthy.
Qed.

Lemma resolved_todoist_secret_selects_todoist_witness :
  get_secrets signed_in_cli todoist_configured
    = Ok {[ "todoist_token" := Some "s3cr3t" ]} ∧
  secret_resolved {[ "todoist_token" := Some "s3cr3t" ]} "todoist_token" ∧
  "todoist" ∈ ["todoist"; "kubernetes"; "cves"; "containers"].
Proof.
  assert (Hsecrets : get_secrets signed_in_cli todoist_configured
                     = Ok {[ "todoist_token" := Some "s3cr3t" ]})
    by (by vm_compute).
  assert (Hresolved : secret_resolved {[ "todoist_token" := Some "s3cr3t" ]}
                                      "todoist_token").
  { exists "s3cr3t". apply lookup_singleton_eq. }
  split; [exact Hsecrets|]. split; [exact Hresolved|].
  apply (resolved_todoist_secret_selects_todoist signed_in_cli todoist_configured
           _ _ Hsecrets Hresolved).
  by vm_compute.
Defined.

(** ** daily_hud.py: the run-set and the trace of [main] *)

Section run_set.

Lemma split_go_nonempty sep cur s : Py.split_go sep cur s ≠ [].
Proof.
  revert cur. induction s as [|a s IH]; intros cur; simpl; [done|].
  destruct (Ascii.eqb a sep); [done|apply IH].
Qed.

Lemma key_in_CHECKS n : n ∈ dict_keys CHECKS → in_CHECKS n = true.
Proof.
  unfold dict_keys, CHECKS. simpl. intros Hn.
  repeat (apply elem_of_cons in Hn as [->|Hn]); [..|by apply elem_of_nil in Hn];
    by vm_compute.
Qed.

Lemma invalid_checks_nil checks_to_run :
  invalid_checks checks_to_run = [] →
  Forall (λ c, in_CHECKS c = true) checks_to_run.
Proof.
  unfold invalid_checks. induction checks_to_run as [|c l IH]; [constructor|].
  rewrite filter_cons. case_decide as Hc; [done|].
  intros Hl. constructor; [|by apply IH]. by destruct (in_CHECKS c).
Qed.

Lemma NoDup_registry : NoDup (dict_keys CHECKS).
Proof. unfold dict_keys, CHECKS. simpl. by apply (bool_decide_unpack (NoDup _)). Qed.

Lemma auto_select_members config checks_to_run :
  auto_select config = Ok checks_to_run →
  checks_to_run `sublist_of` dict_keys CHECKS ∧
  "kubernetes" ∈ checks_to_run ∧ "containers" ∈ checks_to_run.
Proof.
  unfold auto_select.
  intros ((l' & -> & Hsub) & Hmem)%auto_select_loop_members.
  split; [done|]. split; apply Hmem; try reflexivity.
  - apply list_elem_of_In. simpl. tauto.
  - apply list_elem_of_In. simpl. tauto.
Qed.

Lemma determine_checks_registered (a : args) (config : gmap string value)
    (checks_to_run : list string) :
  determine_checks a config = Ok (inl checks_to_run) →
  checks_to_run ≠ [] ∧ Forall (λ c, in_CHECKS c = true) checks_to_run.
Proof.
  unfold determine_checks.
  destruct (only_given a) as [s|] eqn:Honly.
  - destruct (invalid_checks (explicit_checks s)) eqn:Hinvalid; [|done].
    intros [= <-]. split; [|by apply invalid_checks_nil].
    unfold explicit_checks, Py.split.
    pose proof (split_go_nonempty ","%char "" s) as Hne.
    by destruct (Py.split_go _ _ _).
  - destruct (auto_select config) as [l|e] eqn:Hauto; [|done].
    simpl. intros [= <-].
    apply auto_select_members in Hauto as (Hsub & Hk & Hc).
    split; [intros ->; by apply elem_of_nil in Hk|].
    apply Forall_forall. intros c Hin. apply key_in_CHECKS.
    by eapply elem_of_sublist.
Qed.

(** X9. The run-set that [main] determines is never empty and holds
    registered names only.  Under the automatic selection it also holds
    kubernetes and containers, follows the order of the registry and names
    no check twice. *)
Theorem run_set_is_registered_and_never_empty (a : args)
    (config : gmap string value) (checks_to_run : list string)
    (Hdet : determine_checks a config = Ok (inl checks_to_run)) :
  checks_to_run ≠ [] ∧
  Forall (λ c, in_CHECKS c = true) checks_to_run ∧
  (only_given a = None →
   "kubernetes" ∈ checks_to_run ∧ "containers" ∈ checks_to_run ∧
   checks_to_run `sublist_of` dict_keys CHECKS ∧ NoDup checks_to_run).
Proof.
  destruct (determine_checks_registered a config checks_to_run Hdet)
    as [Hne Hknown].
  split; [exact Hne|]. split; [exact Hknown|]. intros Honly.
  unfold determine_checks in Hdet. rewrite Honly in Hdet.
  destruct (auto_select config) as [l|e] eqn:Hauto; [|done].
  simpl in Hdet. injection Hdet as <-.
  apply auto_select_members in Hauto as (Hsub & Hk & Hc).
  split; [done|]. split; [done|]. split; [done|].
  eapply sublist_NoDup; [apply NoDup_registry | exact Hsub].
Qed.

Lemma run_set_is_registered_and_never_empty_witness :
  determine_checks (mkArgs None false) todoist_configured
    = Ok (inl ["todoist"; "kubernetes"; "cves"; "containers"]) ∧
  ["todoist"; "kubernetes"; "cves"; "containers"] ≠ @nil string.
Proof.
  assert (Hdet : determine_checks (mkArgs None false) todoist_configured
                 = Ok (inl ["todoist"; "kubernetes"; "cves"; "containers"]))
    by (by vm_compute).
  split; [exact Hdet|].
  exact (proj1 (run_set_is_registered_and_never_empty _ _ _ Hdet)).
Defined.

Lemma get_secrets_never_SecretsError O config e :
  get_secrets O config = Raise e → exn_class_of e ≠ SecretsError.
Proof.
  destruct (config_get config "secrets" (VDict ∅)) as [| | | | |sc] eqn:Hsc;
    try (unfold get_secrets; unfold config_get in Hsc; rewrite Hsc;
         by intros [= <-]).
  intros He. by eapply (get_secrets_mapping O config sc Hsc).
Qed.

Lemma load_secrets_silent a config O warned secrets :
  load_secrets a config O = Ok (warned, secrets) → warned = [].
Proof.
  unfold load_secrets, try_except.
  destruct (get_secrets O config) as [s|e] eqn:Hget; simpl.
  - by intros [= <- _].
  - apply get_secrets_never_SecretsError in Hget.
    rewrite bool_decide_eq_false_2; [done|].
    intros Hin. apply list_elem_of_singleton in Hin. done.
Qed.

Lemma append_head a s x : String a s +:+ x = String a (s +:+ x).
Proof. done. Qed.

(** X10. Whatever the arguments, the configuration and the outside world,
    [main] submits registered checks only, and it never prints "No checks
    configured": the test of the empty run-set cannot succeed. *)
Theorem main_submits_registered_checks_only (a : args)
    (config : gmap string value) (O : op_cli) (timeout : Z)
    (W : nat → unit_world) :
  Forall expected_event (trace (main a config O timeout W)).
Proof.
  unfold main.
  destruct (load_secrets a config O) as [[warned secrets]|e] eqn:Hload;
    [|constructor].
  apply load_secrets_silent in Hload as ->.
  destruct (determine_checks a config) as [[checks_to_run|lines]|e] eqn:Hdet;
    [| |constructor].
  - apply determine_checks_registered in Hdet as [Hne Hknown].
    simpl. unfold run_and_report.
    destruct checks_to_run as [|c cs]; [done|].
    assert (Hsub : Forall expected_event (Submit <$> c :: cs)).
    { apply Forall_fmap. eapply Forall_impl; [exact Hknown|]. done. }
    destruct (fan_in timeout (submit_all W (c :: cs))); [|exact Hsub].
    cbn [trace]. apply Forall_app. split; [exact Hsub|].
    constructor; [|constructor]. by destruct (json_output a).
  - unfold determine_checks in Hdet.
    destruct (only_given a) as [s|];
      [|by destruct (auto_select config)].
    destruct (invalid_checks (explicit_checks s)); [done|].
    injection Hdet as <-. simpl.
    repeat constructor; simpl; rewrite append_head; done.
Qed.

End run_set.


(** ** daily_hud.py: what the report lists *)

Section report.

Lemma dict_set_fresh {V} (d : list (string * V)) k v :
  k ∉ d.*1 → dict_set d k v = d ++ [(k, v)].
Proof.
  induction d as [|[k' v'] d IH]; intros Hk; [done|].
  simpl in *. apply not_elem_of_cons in Hk as [Hne Hk].
  destruct (String.eqb k' k) eqn:Heq.
  - apply String.eqb_eq in Heq. congruence.
  - by rewrite IH.
Qed.

Lemma dict_set_keys_present {V} (d : list (string * V)) k v :
  k ∈ d.*1 → (dict_set d k v).*1 = d.*1.
Proof.
  induction d as [|[k' v'] d IH]; intros Hk; [by apply elem_of_nil in Hk|].
  simpl in *. destruct (String.eqb k' k) eqn:Heq.
  - apply String.eqb_eq in Heq as ->. done.
  - simpl. f_equal. apply IH.
    apply elem_of_cons in Hk as [->|Hk]; [|done].
    by rewrite String.eqb_refl in Heq.
Qed.

Lemma NoDup_dict_set {V} (d : list (string * V)) k v :
  NoDup d.*1 → NoDup (dict_set d k v).*1.
Proof.
  intros Hd. destruct (decide (k ∈ d.*1)) as [Hk|Hk].
  - by rewrite dict_set_keys_present.
  - rewrite dict_set_fresh by done. rewrite fmap_app. simpl.
    apply NoDup_app. split; [done|]. split; [|apply NoDup_singleton].
    intros x Hx Hx'. apply list_elem_of_singleton in Hx' as ->. done.
Qed.

Lemma NoDup_foldl_store st ys :
  NoDup (all_results st).*1 → NoDup (all_results (foldl store st ys)).*1.
Proof.
  revert st. induction ys as [|f ys IH]; intros st Hst; [done|].
  simpl. apply IH. unfold store. simpl. by apply NoDup_dict_set.
Qed.

Lemma dict_get_elem_of {V} (d : list (string * V)) k v :
  NoDup d.*1 → dict_get d k = Some v ↔ (k, v) ∈ d.
Proof.
  induction d as [|[k' v'] d IH]; intros Hd.
  - simpl. split; [done|]. intros H. by apply elem_of_nil in H.
  - simpl in Hd. apply NoDup_cons in Hd as [Hk' Hd]. simpl.
    destruct (String.eqb k' k) eqn:Heq.
    + apply String.eqb_eq in Heq as ->. split.
      * intros [= ->]. apply elem_of_cons. by left.
      * intros [[= ->]|Hin]%elem_of_cons; [done|].
        exfalso. apply Hk'. apply list_elem_of_fmap. by exists (k, v).
    + rewrite IH by done. split.
      * intros Hin. apply elem_of_cons. by right.
      * intros [[= -> ->]|Hin]%elem_of_cons; [|done].
        by rewrite String.eqb_refl in Heq.
Qed.

Lemma dict_get_present {V} (d : list (string * V)) k :
  k ∈ d.*1 → is_Some (dict_get d k).
Proof.
  induction d as [|[k' v'] d IH]; intros Hk; [by apply elem_of_nil in Hk|].
  simpl in *. destruct (String.eqb k' k) eqn:Heq; [done|].
  apply IH. apply elem_of_cons in Hk as [->|Hk]; [|done].
  by rewrite String.eqb_refl in Heq.
Qed.

Lemma listed_sections_keys {V} (d : list (string * V)) (order : list string) :
  (omap (λ s, (λ rs, (s, rs)) <$> dict_get d s) order).*1
  = filter (λ s, s ∈ d.*1) order.
Proof.
  induction order as [|s order IH]; [done|].
  rewrite filter_cons. cbn [omap list_omap].
  destruct (dict_get d s) as [rs|] eqn:Hget; cbn [fmap option_fmap option_map].
  - rewrite fmap_cons. cbn [fst].
    rewrite decide_True; [by rewrite IH|].
    by eapply dict_get_is_key.
  - rewrite decide_False; [exact IH|].
    intros Hin. apply dict_get_present in Hin. rewrite Hget in Hin.
    by destruct Hin.
Qed.

Lemma other_sections_keys {V} (d : list (string * V)) (order : list string) :
  (filter (λ sr, sr.1 ∉ order) d).*1 = filter (λ s, s ∉ order) d.*1.
Proof.
  induction d as [|[k v] d IH]; [done|].
  rewrite fmap_cons, !filter_cons. cbn [fst].
  destruct (decide (k ∉ order)); [rewrite fmap_cons|]; by rewrite IH.
Qed.

Lemma listed_sections_Permutation {V} (d : list (string * V))
    (order : list string) :
  NoDup d.*1 → NoDup order →
  omap (λ s, (λ rs, (s, rs)) <$> dict_get d s) order
  ≡ₚ filter (λ sr, sr.1 ∈ order) d.
Proof.
  intros Hd Horder. apply NoDup_Permutation.
  - apply (NoDup_fmap_1 fst). rewrite listed_sections_keys.
    by apply NoDup_filter.
  - apply NoDup_filter. by apply (NoDup_fmap_1 fst).
  - intros [s rs]. rewrite list_elem_of_omap, list_elem_of_filter. simpl. split.
    + intros (s' & Hin & Hget).
      destruct (dict_get d s') as [rs'|] eqn:Hget'; [|done].
      simpl in Hget. injection Hget as -> ->.
      split; [done|]. by apply dict_get_elem_of.
    + intros [Hin Hd']. exists s. split; [done|].
      apply dict_get_elem_of in Hd'; [|done]. by rewrite Hd'.
Qed.

Lemma NoDup_section_order : NoDup section_order.
Proof. by apply (bool_decide_unpack (NoDup _)). Qed.

Lemma sections_printed_Permutation (d : list (string * list CheckResult)) :
  NoDup d.*1 → sections_printed d ≡ₚ d.
Proof.
  intros Hd. unfold sections_printed.
  rewrite listed_sections_Permutation by (done || apply NoDup_section_order).
  apply filter_app_complement.
Qed.

(** X11. Whatever the futures the loop handles, the text report prints
    every section of [all_results] exactly once, with the list stored for
    it: the sections of [section_order] first, in that order, then the
    others in the order in which they were first stored. *)
Theorem report_prints_every_section_once (timeout now : Z)
    (yielded : list future) :
  sections_printed (all_results (collect_all timeout now (mkRun [] []) yielded))
    ≡ₚ all_results (collect_all timeout now (mkRun [] []) yielded) ∧
  NoDup (sections_printed
           (all_results (collect_all timeout now (mkRun [] []) yielded))).*1 ∧
  (sections_printed
     (all_results (collect_all timeout now (mkRun [] []) yielded))).*1
  = filter (λ s, s ∈ (all_results
                        (collect_all timeout now (mkRun [] []) yielded)).*1)
           section_order ++
    filter (λ s, s ∉ section_order)
           (all_results (collect_all timeout now (mkRun [] []) yielded)).*1.
Proof.
  rewrite collect_all_foldl.
  assert (Hd : NoDup (all_results (foldl store (mkRun [] []) yielded)).*1).
  { apply NoDup_foldl_store. simpl. constructor. }
  pose proof (sections_printed_Permutation _ Hd) as Hperm.
  split; [exact Hperm|]. split.
  - by rewrite Hperm.
  - unfold sections_printed.
    by rewrite fmap_app, listed_sections_keys, other_sections_keys.
Qed.







End report.


(** ** checks/domains.py: the check as a whole *)

Section domains_check.

Variable E : outside.
Variables now warn_days : Z.

Lemma classify_counts domain days_left st :
  domains_counted (Domains.classify domain days_left warn_days st)
  = domains_counted st + 1.
Proof.
  unfold Domains.classify, domains_counted.
  repeat case_bool_decide; simpl; rewrite ?length_app; simpl; lia.
Qed.

Lemma fetch_counts domain st :
  domains_counted (Domains.fetch E now warn_days domain st)
  = domains_counted st + 1.
Proof.
  unfold Domains.fetch.
  destruct (_get_domain_expiry E domain) as [[success error_msg] expiry].
  destruct success; simpl.
  - destruct expiry as [expiry|]; simpl.
    + rewrite classify_counts. done.
    + unfold domains_counted. simpl. rewrite length_app. simpl. lia.
  - unfold domains_counted. simpl. rewrite length_app. simpl. lia.
Qed.

Lemma step_counts cached_data domain st st' :
  Domains.step E now warn_days cached_data domain st = Ok st' →
  domains_counted st' = domains_counted st + 1.
Proof.
  unfold Domains.step.
  destruct (py_in domain cached_data) as [hit|e]; simpl; [|done].
  destruct hit; [|intros [= <-]; apply fetch_counts].
  destruct (py_getitem cached_data domain) as [cache_entry|e]; simpl; [|done].
  destruct (py_get cache_entry "error" VNone) as [err|e]; simpl; [|done].
  destruct (truthy err).
  { intros [= <-]. unfold domains_counted. simpl. rewrite length_app. simpl. lia. }
  destruct (py_get cache_entry "expiry" VNone) as [expiry_str|e]; simpl;
    [|done].
  destruct (truthy expiry_str); [|intros [= <-]; apply fetch_counts].
  destruct expiry_str as [| | |str| |]; try done.
  destruct (fromisoformat E str) as [expiry|];
    [|intros [= <-]; apply fetch_counts].
  intros [= <-].
  change (domains_counted (Domains.classify domain (days_between expiry now)
                             warn_days st) = domains_counted st + 1).
  apply classify_counts.
Qed.

Lemma loop_accounts cached_data domains st res made :
  Domains.loop E now warn_days cached_data domains st = (res, made) →
  (∃ l, made = Domains.fetched st ++ l ∧ l `sublist_of` domains) ∧
  (∀ st', res = Ok st' →
     made = Domains.fetched st' ∧
     domains_counted st' = domains_counted st + Z.of_nat (length domains) ∧
     dom (Domains.new_cache st')
       = dom (Domains.new_cache st) ∪ list_to_set domains).
Proof.
  revert st. induction domains as [|domain domains IH]; intros st; simpl.
  - intros [= <- <-]. split.
    + exists []. by rewrite app_nil_r.
    + intros st' [= <-]. split; [done|]. split; [lia|].
      by rewrite ?list_to_set_nil, (right_id_L ∅ (∪)).
  - destruct (Domains.step E now warn_days cached_data domain st)
      as [st1|e] eqn:Hstep.
    + intros Hloop. apply IH in Hloop as [(l & -> & Hsub) Hok].
      pose proof (step_counts _ _ _ _ Hstep) as Hcount.
      apply step_effect in Hstep as [Hfetched (v & Hcache)]. split.
      * destruct Hfetched as [->| ->].
        -- exists l. split; [done|]. by apply sublist_cons.
        -- exists (domain :: l). rewrite <- app_assoc. split; [done|].
           by apply sublist_skip.
      * intros st' Hres. destruct (Hok st' Hres) as (Hmade & Hc & Hdom).
        split; [done|]. split; [lia|].
        rewrite Hdom, Hcache, dom_insert_L, ?list_to_set_cons.
        rewrite (comm_L (∪) {[domain]}), <- (assoc_L (∪)). done.
    + intros [= <- <-]. split; [|done].
      exists []. rewrite app_nil_r. split; [done|]. apply sublist_nil_l.
Qed.

Lemma step_uncached domain st :
  Domains.step E now warn_days (VDict ∅) domain st
  = Ok (Domains.fetch E now warn_days domain st).
Proof.
  unfold Domains.step. simpl. rewrite lookup_empty.
  rewrite bool_decide_eq_false_2; [done|]. by intros [? ?].
Qed.

Lemma loop_uncached domains st :
  ∃ st', Domains.loop E now warn_days (VDict ∅) domains st
         = (Ok st', Domains.fetched st ++ domains).
Proof.
  revert st. induction domains as [|domain domains IH]; intros st.
  - exists st. simpl. by rewrite app_nil_r.
  - cbn [Domains.loop]. rewrite step_uncached.
    destruct (IH (Domains.fetch E now warn_days domain st)) as (st' & ->).
    exists st'. destruct (fetch_effect E now warn_days domain st) as [-> _].
    by rewrite <- app_assoc.
Qed.

Lemma add_details_fields r l :
  name (add_details r l) = name r ∧ status (add_details r l) = status r ∧
  message (add_details r l) = message r ∧
  details (add_details r l) = details r ++ l.
Proof.
  unfold add_details. revert r.
  induction l as [|x l IH]; intros r; simpl.
  - by rewrite app_nil_r.
  - destruct (IH (add_detail r x)) as (-> & -> & -> & ->). simpl.
    by rewrite <- app_assoc.
Qed.

Lemma build_results_one domains st :
  ∃ r, Domains.build_results domains warn_days st = [r] ∧
       name r = "domains" ∧
       (status r = OK ↔ Domains.errors st = [] ∧ Domains.warnings st = []) ∧
       (status r = ERROR ↔ Domains.errors st ≠ []).
Proof.
  unfold Domains.build_results.
  destruct (Domains.errors st) as [|e es]; [destruct (Domains.warnings st)|];
    eexists; (split; [reflexivity|]);
    rewrite ?(proj1 (add_details_fields _ _)),
            ?(proj1 (proj2 (add_details_fields _ _))); simpl;
    (split; [done|]); split; split; try done; by intros [].
Qed.

(** How the check runs once WHOIS is there and the list is not empty:
    either the cache path cannot be made, or the loop runs on what the
    cache gave, and the cache is saved when the loop returns. *)
Lemma check_domains_cases (s : fs) (domains : list string)
    (C : cache_settings) :
  WHOIS_AVAILABLE E = true → domains ≠ [] →
  (∃ e s', use_cache C = true ∧
     _get_cache_path (expanduser E) "domains.json" s (cache_dir C)
       = (Raise e, s') ∧
     Domains.check_domains E s now domains warn_days C
       = mkCheckRun (Raise e) s' []) ∨
  (∃ cache_path cached s' res made,
     match cache_path with
     | Some p =>
         use_cache C = true ∧
         _get_cache_path (expanduser E) "domains.json" s (cache_dir C)
           = (Ok p, s') ∧
         _load_cache s' now p (cache_hours C) = Ok cached
     | None => use_cache C = false ∧ s' = s ∧ cached = VDict ∅
     end ∧
     Domains.loop E now warn_days cached domains (Domains.mkLoop 0 [] [] ∅ [])
       = (res, made) ∧
     Domains.check_domains E s now domains warn_days C
       = match res with
         | Raise e => mkCheckRun (Raise e) s' made
         | Ok st =>
             mkCheckRun (Ok (Domains.build_results domains warn_days st))
               match cache_path with
               | Some p =>
                   (_save_cache s' now p (VDict (Domains.new_cache st))).2
               | None => s'
               end made
         end).
Proof.
  intros Hwhois Hne. unfold Domains.check_domains.
  destruct domains as [|d0 domains']; [done|]. rewrite Hwhois.
  cbn -[Domains.loop _get_cache_path _load_cache _save_cache].
  destruct (use_cache C).
  - destruct (_get_cache_path (expanduser E) "domains.json" s (cache_dir C))
      as [[p|e] s'] eqn:Hpath.
    + right. destruct (_load_cache_returns s' now p (cache_hours C))
        as [cached Hload].
      rewrite Hload. cbn -[Domains.loop _get_cache_path _load_cache _save_cache].
      destruct (Domains.loop E now warn_days cached (d0 :: domains')
                  (Domains.mkLoop 0 [] [] ∅ [])) as [res made] eqn:Hloop.
      exists (Some p), cached, s', res, made. split; [done|]. split; [done|].
      destruct res as [st|e]; [|done].
      pose proof (_save_cache_returns s' now p
                    (VDict (Domains.new_cache st))) as Hsave.
      destruct (_save_cache s' now p (VDict (Domains.new_cache st)))
        as [saved s'']. simpl in Hsave. by rewrite Hsave.
    + left. exists e, s'. done.
  - right.
    destruct (Domains.loop E now warn_days (VDict ∅) (d0 :: domains')
                (Domains.mkLoop 0 [] [] ∅ [])) as [res made] eqn:Hloop.
    exists None, (VDict ∅), s, res, made. split; [done|]. split; [done|].
    by destruct res.
Qed.


End domains_check.



Section domains_cache_file.

Variable E : outside.
Variables warn_days : Z.

Lemma _get_cache_path_exists file_name s dir :
  expanduser E dir ∈ fs_dirs s →
  _get_cache_path (expanduser E) file_name s dir
    = (Ok (expanduser E dir, file_name), s).
Proof.
  intros Hdir. unfold _get_cache_path, mkdir_parents. simpl.
  by rewrite bool_decide_eq_true_2.
Qed.

Lemma _save_cache_goes_through s now (p : path) data f :
  fs_readonly s = false → p.1 ∈ fs_dirs s →
  fs_files s !! p = Some f → f_access f = true →
  _save_cache s now p data
    = (Ok (), mkFs (fs_dirs s) (<[p := mkFile now (Json data) true]> (fs_files s))
                   false).
Proof.
  intros Hrw Hdir Hfile Haccess. unfold _save_cache, open_write_dump.
  rewrite Hrw, Hfile. rewrite bool_decide_eq_false_2 by (by intros []).
  destruct f as [mtime content access]. simpl in Haccess. by subst access.
Qed.

Lemma _load_cache_after_save s now later p data max_age_hours :
  (open_write_dump s now p data).1 = Ok () →
  later - now ≤ max_age_hours * microseconds_per_hour →
  _load_cache (_save_cache s now p data).2 later p max_age_hours = Ok data.
Proof.
  intros Hwrite Hfresh.
  rewrite (_load_cache_file _ _ _ _ now data)
    by (by apply _save_cache_written).
  unfold expired. rewrite bool_decide_eq_false_2; [done|lia].
Qed.

(** X14. With the cache enabled, a run of the domains check that returns
    hands [_save_cache] a mapping whose keys are exactly the configured
    domains: entries of domains that are no longer configured are dropped
    and every configured domain has one.  When the write goes through, a
    load within the TTL returns that mapping. *)
Theorem check_domains_saves_the_configured_domains (now : Z) (s : fs)
    (domains : list string) (C : cache_settings) (rs : list CheckResult)
    (Hwhois : WHOIS_AVAILABLE E = true) (Hne : domains ≠ [])
    (Huse : use_cache C = true)
    (Hrun : outcome (Domains.check_domains E s now domains warn_days C)
            = Ok rs) :
  ∃ p s' m,
    _get_cache_path (expanduser E) "domains.json" s (cache_dir C) = (Ok p, s') ∧
    fs_after (Domains.check_domains E s now domains warn_days C)
      = (_save_cache s' now p (VDict m)).2 ∧
    dom m = list_to_set domains ∧
    ((open_write_dump s' now p (VDict m)).1 = Ok () →
     ∀ later, later - now ≤ cache_hours C * microseconds_per_hour →
       _load_cache (fs_after (Domains.check_domains E s now domains warn_days C))
                   later p (cache_hours C) = Ok (VDict m)).
Proof.
  destruct (check_domains_cases E now warn_days s domains C Hwhois Hne)
    as [(e & s' & _ & _ & Hcheck)
       |(cache_path & cached & s' & res & made & Hopen & Hloop & Hcheck)];
    rewrite Hcheck in Hrun |- *; [done|].
  destruct cache_path as [p|]; [|destruct Hopen; congruence].
  destruct Hopen as (_ & Hpath & _).
  apply loop_accounts in Hloop as [_ Hok].
  destruct res as [st|e]; [|done].
  destruct (Hok st eq_refl) as (_ & _ & Hdom). simpl in Hdom.
  exists p, s', (Domains.new_cache st). split; [done|]. split; [done|].
  split; [by rewrite Hdom, dom_empty_L, (left_id_L ∅ (∪))|].
  intros Hwrite later Hfresh. simpl. by apply _load_cache_after_save.
Qed.

(** X15. With the cache disabled the domains check leaves the file system
    alone, cannot raise, and asks WHOIS about every configured domain,
    once each and in the configured order. *)
Theorem check_domains_without_cache (now : Z) (s : fs)
    (domains : list string) (C : cache_settings)
    (Hwhois : WHOIS_AVAILABLE E = true) (Huse : use_cache C = false) :
  fs_after (Domains.check_domains E s now domains warn_days C) = s ∧
  lookups (Domains.check_domains E s now domains warn_days C) = domains ∧
  (domains ≠ [] →
   ∃ r, outcome (Domains.check_domains E s now domains warn_days C) = Ok [r] ∧
        name r = "domains").
Proof.
  destruct domains as [|d0 domains'] eqn:Hdomains; [done|].
  rewrite <- Hdomains. assert (Hne : domains ≠ []) by (by subst domains).
  clear Hdomains.
  destruct (check_domains_cases E now warn_days s domains C Hwhois Hne)
    as [(e & s' & Huse' & _)
       |(cache_path & cached & s' & res & made & Hopen & Hloop & Hcheck)];
    [congruence|].
  destruct cache_path as [p|]; [destruct Hopen; congruence|].
  destruct Hopen as (_ & -> & ->).
  destruct (loop_uncached E now warn_days domains (Domains.mkLoop 0 [] [] ∅ []))
    as (st & Hloop').
  rewrite Hloop' in Hloop. injection Hloop as <- <-.
  rewrite Hcheck. simpl. split; [done|]. split; [done|]. intros _.
  destruct (build_results_one warn_days domains st) as (r & -> & Hname & _).
  by exists r.
Qed.

(** X16. A failed lookup is kept for as long as the check keeps running:
    every run that returns rewrites the cache file, soft-failure entries
    included, so the age of the file starts again.  When the domains
    check runs at times none of which is more than the TTL after the one
    before, on a writable cache whose file holds a soft-failure entry for
    a configured domain, and every run returns, then no run asks WHOIS
    about that domain again. *)
Theorem cached_failure_is_never_retried (s : fs) (times : list Z)
    (domains : list string) (C : cache_settings) (d : string) (entry : value)
    (cached : gmap string value) (t0 : Z)
    (Hwhois : WHOIS_AVAILABLE E = true) (Huse : use_cache C = true)
    (Hdir : expanduser E (cache_dir C) ∈ fs_dirs s)
    (Hrw : fs_readonly s = false)
    (Hfile : fs_files s !! (expanduser E (cache_dir C), "domains.json")
             = Some (mkFile t0 (Json (VDict cached)) true))
    (Hentry : cached !! d = Some entry) (Herror : error_entry entry)
    (Hd : d ∈ domains)
    (Httl : within_ttl t0 times (cache_hours C))
    (Hreturn : Forall (λ r, ∃ rs, outcome r = Ok rs)
                      (check_domains_at E s times domains warn_days C)) :
  Forall (λ r, d ∉ lookups r)
         (check_domains_at E s times domains warn_days C).
Proof.
  revert s cached t0 Hdir Hrw Hfile Hentry Httl Hreturn.
  induction times as [|now times IH];
    intros s cached t0 Hdir Hrw Hfile Hentry Httl Hreturn; [constructor|].
  cbn [check_domains_at] in *. destruct Httl as [Hfresh Httl].
  apply Forall_cons in Hreturn as [[rs Hrs] Hreturn].
  assert (Hne : domains ≠ []) by (intros ->; by apply elem_of_nil in Hd).
  destruct (check_domains_cases E now warn_days s domains C Hwhois Hne)
    as [(e & s' & _ & _ & Hcheck)
       |(cache_path & cached0 & s' & res & made & Hopen & Hloop & Hcheck)];
    [by rewrite Hcheck in Hrs|].
  destruct cache_path as [p|]; [|destruct Hopen; congruence].
  destruct Hopen as (_ & Hpath & Hload).
  rewrite (_get_cache_path_exists "domains.json" s (cache_dir C) Hdir) in Hpath.
  injection Hpath as <- <-.
  rewrite (_load_cache_file _ _ _ _ _ _ Hfile) in Hload.
  unfold expired in Hload. rewrite bool_decide_eq_false_2 in Hload by lia.
  injection Hload as <-.
  pose proof (loop_error_entry E now warn_days cached d entry Hentry Herror
                domains _ res made Hloop) as [Hfetch Hcache].
  rewrite Hcheck in Hrs, Hreturn |- *.
  destruct res as [st|e]; [|done]. simpl in Hreturn |- *.
  rewrite (_save_cache_goes_through s now
             (expanduser E (cache_dir C), "domains.json") _ _
             Hrw Hdir Hfile eq_refl) in Hreturn |- *.
  simpl in Hreturn |- *. constructor.
  - apply Hfetch. simpl. apply not_elem_of_nil.
  - apply (IH _ (Domains.new_cache st) now); simpl; try done.
    + apply lookup_insert_eq.
    + apply (Hcache st eq_refl). by left.
Qed.

End domains_cache_file.

Lemma check_domains_saves_the_configured_domains_witness :
  outcome (Domains.check_domains plain_outside cached_fs 1000000
             ["example.com"] 30 cache_on)
    = Ok [mkCheckResult "domains" ERROR "Domains: 1 issue(s)"
            ["example.com: Domain not found"]] ∧
  ∃ m, fs_after (Domains.check_domains plain_outside cached_fs 1000000
                   ["example.com"] 30 cache_on)
       = (_save_cache cached_fs 1000000 domains_json (VDict m)).2 ∧
       dom m = {[ "example.com" ]}.
Proof.
  assert (Hrun : outcome (Domains.check_domains plain_outside cached_fs 1000000
                            ["example.com"] 30 cache_on)
                 = Ok [mkCheckResult "domains" ERROR "Domains: 1 issue(s)"
                         ["example.com: Domain not found"]])
    by (by vm_compute).
  split; [exact Hrun|].
  destruct (check_domains_saves_the_configured_domains plain_outside 30
              1000000 cached_fs ["example.com"] cache_on _ eq_refl
              ltac:(done) eq_refl Hrun)
    as (p & s' & m & Hpath & Hafter & Hdom & _).
  assert (Hpath' : _get_cache_path (expanduser plain_outside) "domains.json"
                     cached_fs (cache_dir cache_on) = (Ok domains_json, cached_fs))
    by (by vm_compute).
  rewrite Hpath' in Hpath. injection Hpath as <- <-.
  exists m. split; [exact Hafter|]. rewrite Hdom.
  by rewrite list_to_set_cons, list_to_set_nil, (right_id_L ∅ (∪)).
Defined.

Lemma check_domains_without_cache_witness :
  lookups (Domains.check_domains plain_outside cached_fs 1000000
             ["example.org"; "example.com"] 30
             (mkCache false "~/.cache/daily-hud" 24))
  = ["example.org"; "example.com"].
Proof.
  exact (proj1 (proj2 (check_domains_without_cache plain_outside 30 1000000 cached_fs
                         ["example.org"; "example.com"]
                         (mkCache false "~/.cache/daily-hud" 24)
                         eq_refl eq_refl))).
Defined.


(** Three runs, each less than 24 hours after the one before, the last one
    66 hours after the failed lookup was cached. *)
Lemma cached_failure_is_never_retried_witness :
  within_ttl 0 [80000000000; 160000000000; 240000000000] (cache_hours cache_on) ∧
  Forall (λ r, "example.org" ∉ lookups r)
         (check_domains_at plain_outside cached_fs
            [80000000000; 160000000000; 240000000000]
            ["example.org"; "example.com"] 30 cache_on).
Proof.
  assert (Httl : within_ttl 0 [80000000000; 160000000000; 240000000000]
                            (cache_hours cache_on)).
  { simpl. unfold microseconds_per_hour. lia. }
  split; [exact Httl|].
  apply (cached_failure_is_never_retried plain_outside 30 cached_fs
           [80000000000; 160000000000; 240000000000]
           ["example.org"; "example.com"] cache_on "example.org"
           (VDict {[ "error" := VStr "WHOIS server unavailable" ]})
           failed_lookup 0 eq_refl eq_refl).
  - apply (bool_decide_unpack _). by vm_compute.
  - reflexivity.
  - by vm_compute.
  - by vm_compute.
  - exists (VStr "WHOIS server unavailable"). split; by vm_compute.
  - apply list_elem_of_here.
  - exact Httl.
  - vm_compute. repeat (constructor; [eexists; reflexivity|]). constructor.
Defined.


(** ** checks/containers.py: the check as a whole *)

Section containers_check.

Variable E : outside.

Lemma step_lookups use_cache image st :
  (Containers.step E use_cache image st).2
  = match Containers.counts_for E use_cache image (Containers.cached_data st) with
    | Ok (_, _, true) => Containers.scans st ++ [image]
    | _ => Containers.scans st
    end.
Proof.
  unfold Containers.step.
  by destruct (Containers.counts_for E use_cache image
                 (Containers.cached_data st)) as [[[counts cd] []]|e].
Qed.

Lemma step_made use_cache image st res made :
  Containers.step E use_cache image st = (res, made) →
  (made = Containers.scans st ∨ made = Containers.scans st ++ [image]) ∧
  (∀ st', res = Ok st' → Containers.scans st' = made).
Proof.
  intros Hstep. pose proof (step_lookups use_cache image st) as Hmade.
  rewrite Hstep in Hmade. simpl in Hmade. split.
  - rewrite Hmade.
    destruct (Containers.counts_for E use_cache image
                (Containers.cached_data st)) as [[[counts cd] []]|e]; auto.
  - intros st' ->.
    apply step_scans in Hstep as (counts & cd & sn & Hc & _ & ->).
    rewrite Hmade, Hc. by destruct sn.
Qed.

Lemma loop_made use_cache images st res made :
  Containers.loop E use_cache images st = (res, made) →
  (∃ l, made = Containers.scans st ++ l ∧ l `sublist_of` images) ∧
  (∀ st', res = Ok st' → made = Containers.scans st').
Proof.
  revert st. induction images as [|image images IH]; intros st; simpl.
  - intros [= <- <-]. split; [|by intros st' [= <-]].
    exists []. by rewrite app_nil_r.
  - destruct (Containers.step E use_cache image st) as [[st1|e] made1] eqn:Hstep.
    + intros Hloop. apply IH in Hloop as [(l & -> & Hsub) Hok].
      apply step_made in Hstep as [Hmade Hscans].
      split; [|exact Hok]. rewrite (Hscans st1 eq_refl).
      destruct Hmade as [->| ->].
      * exists l. split; [done|]. by apply sublist_cons.
      * exists (image :: l). rewrite <- app_assoc. split; [done|].
        by apply sublist_skip.
    + intros [= <- <-]. split; [|done].
      apply step_made in Hstep as [[->| ->] _].
      * exists []. rewrite app_nil_r. split; [done|]. apply sublist_nil_l.
      * exists [image]. split; [done|]. apply sublist_skip, sublist_nil_l.
Qed.

Lemma containers_build_results_one st :
  ∃ r, Containers.build_results st = [r] ∧ name r = "containers".
Proof.
  unfold Containers.build_results.
  destruct (Containers.scanned st =? 0).
  - destruct (Containers.errors st); eexists; (split; [reflexivity|]); [done|].
    by rewrite (proj1 (add_details_fields _ _)).
  - destruct (0 <? Containers.total_critical st),
             (0 <? Containers.total_high st),
             (0 <? Containers.total_medium st);
      eexists; (split; [reflexivity|]); done.
Qed.

(** How the check runs once the scanner is Trivy and Trivy is there. *)
Lemma check_containers_cases (s : fs) (now : Z) (C : cache_settings) :
  _check_trivy_available E = true →
  (∃ e s', use_cache C = true ∧
     _get_cache_path (expanduser E) "container_vulns.json" s (cache_dir C)
       = (Raise e, s') ∧
     Containers.check_containers E s now "trivy" C
       = mkCheckRun (Raise e) s' []) ∨
  (∃ cache_path cached s',
     match cache_path with
     | Some p =>
         use_cache C = true ∧
         _get_cache_path (expanduser E) "container_vulns.json" s (cache_dir C)
           = (Ok p, s') ∧
         _load_cache s' now p (cache_hours C) = Ok cached
     | None => use_cache C = false ∧ s' = s ∧ cached = VDict ∅
     end ∧
     ((_get_running_images E = [] ∧
       Containers.check_containers E s now "trivy" C
         = mkCheckRun
             (Ok [CheckResult_new "containers" OK
                    "Containers: No running images found"]) s' []) ∨
      (_get_running_images E ≠ [] ∧
       ∃ res made,
         Containers.loop E (use_cache C) (take 10 (_get_running_images E))
           (Containers.mkLoop cached 0 0 0 [] 0 []) = (res, made) ∧
         Containers.check_containers E s now "trivy" C
           = match res with
             | Raise e => mkCheckRun (Raise e) s' made
             | Ok st =>
                 mkCheckRun (Ok (Containers.build_results st))
                   match cache_path with
                   | Some p =>
                       (_save_cache s' now p (Containers.cached_data st)).2
                   | None => s'
                   end made
             end))).
Proof.
  intros Htrivy. unfold Containers.check_containers.
  rewrite Htrivy.
  cbn -[Containers.loop _get_cache_path _load_cache _save_cache take].
  destruct (use_cache C).
  - destruct (_get_cache_path (expanduser E) "container_vulns.json" s
                (cache_dir C)) as [[p|e] s'] eqn:Hpath.
    + right. destruct (_load_cache_returns s' now p (cache_hours C))
        as [cached Hload].
      rewrite Hload.
      cbn -[Containers.loop _get_cache_path _load_cache _save_cache take].
      exists (Some p), cached, s'. split; [done|].
      destruct (_get_running_images E) as [|image images] eqn:Himages;
        [by left|right]. split; [done|].
      destruct (Containers.loop E true (take 10 (image :: images))
                  (Containers.mkLoop cached 0 0 0 [] 0 []))
        as [res made] eqn:Hloop.
      exists res, made. split; [done|].
      destruct res as [st|e]; [|done].
      pose proof (_save_cache_returns s' now p (Containers.cached_data st))
        as Hsave.
      destruct (_save_cache s' now p (Containers.cached_data st))
        as [saved s'']. simpl in Hsave. by rewrite Hsave.
    + left. exists e, s'. done.
  - right. exists None, (VDict ∅), s. split; [done|].
    destruct (_get_running_images E) as [|image images] eqn:Himages;
      [by left|right]. split; [done|].
    destruct (Containers.loop E false (take 10 (image :: images))
                (Containers.mkLoop (VDict ∅) 0 0 0 [] 0 []))
      as [res made] eqn:Hloop.
    exists res, made. split; [done|]. by destruct res.
Qed.

(** X17. Whatever the configuration, the cache and the cluster, the
    containers check scans at most ten images in a run: the scans it makes
    are among the first ten running images, each at most once and in that
    order.  When it returns, it returns exactly one result, named
    "containers". *)
Theorem check_containers_scans_at_most_ten (s : fs) (now : Z)
    (scanner : string) (C : cache_settings) :
  lookups (Containers.check_containers E s now scanner C)
    `sublist_of` take 10 (_get_running_images E) ∧
  (length (lookups (Containers.check_containers E s now scanner C)) ≤ 10)%nat ∧
  (∀ rs, outcome (Containers.check_containers E s now scanner C) = Ok rs →
     ∃ r, rs = [r] ∧ name r = "containers").
Proof.
  assert (Hmain :
    lookups (Containers.check_containers E s now scanner C)
      `sublist_of` take 10 (_get_running_images E) ∧
    (∀ rs, outcome (Containers.check_containers E s now scanner C) = Ok rs →
       ∃ r, rs = [r] ∧ name r = "containers")).
  { destruct (String.eqb scanner "trivy") eqn:Hscanner.
    - apply String.eqb_eq in Hscanner as ->.
      destruct (_check_trivy_available E) eqn:Htrivy.
      + destruct (check_containers_cases s now C Htrivy)
          as [(e & s' & _ & _ & ->)
             |(cache_path & cached & s' & _ &
               [[_ ->]|(_ & res & made & Hloop & ->)])]; simpl.
        * split; [apply sublist_nil_l|done].
        * split; [apply sublist_nil_l|]. intros rs [= <-]. by eexists.
        * apply loop_made in Hloop as [(l & -> & Hsub) _]. simpl in Hsub.
          destruct res as [st|e]; simpl; (split; [done|]); [|done].
          intros rs [= <-]. apply containers_build_results_one.
      + unfold Containers.check_containers. rewrite Htrivy. simpl.
        split; [apply sublist_nil_l|]. intros rs [= <-]. by eexists.
    - unfold Containers.check_containers. rewrite Hscanner. simpl.
      split; [apply sublist_nil_l|]. intros rs [= <-]. by eexists. }
  destruct Hmain as [Hsub Hone]. split; [done|]. split; [|done].
  apply sublist_length in Hsub. rewrite length_take in Hsub. lia.
Qed.

Lemma counts_for_clean use_cache image entry m :
  py_in "error" entry = Ok false → m !! image = Some entry →
  Containers.counts_for E use_cache image (VDict m)
  = Ok (entry, VDict m, false).
Proof.
  intros Hclean Hm. unfold Containers.counts_for. simpl. rewrite Hm.
  rewrite bool_decide_is_Some_Some. cbn. rewrite Hclean. by cbn.
Qed.

Lemma loop_reuses use_cache image entry images st res made :
  py_in "error" entry = Ok false →
  Containers.loop E use_cache images st = (res, made) →
  (∃ m, Containers.cached_data st = VDict m ∧ m !! image = Some entry) →
  image ∉ Containers.scans st →
  image ∉ made ∧
  (∀ st', res = Ok st' →
     ∃ m', Containers.cached_data st' = VDict m' ∧ m' !! image = Some entry).
Proof.
  intros Hclean. revert st.
  induction images as [|other images IH]; intros st; simpl.
  - intros [= <- <-] Hm Hnot. split; [done|]. by intros st' [= <-].
  - intros Hloop (m & Hcd & Hm) Hnot.
    pose proof (step_lookups use_cache other st) as Hmade1.
    destruct (Containers.step E use_cache other st) as [[st1|e] made1] eqn:Hstep.
    + pose proof Hstep as Hstep'.
      apply step_scans in Hstep'
        as (counts & cd & sn & Hc & Hcd1 & Hscans1).
      rewrite Hcd in Hc. apply (IH st1 Hloop).
      * destruct (decide (other = image)) as [->|Hne].
        -- rewrite (counts_for_clean use_cache image entry m Hclean Hm) in Hc.
           injection Hc as <- <- <-. exists m. by rewrite Hcd1.
        -- destruct (counts_for_frame E use_cache image other m counts cd sn
                       Hne Hc) as (m' & -> & Hm').
           exists m'. split; [done|]. by rewrite Hm'.
      * rewrite Hscans1. destruct (decide (other = image)) as [->|Hne].
        -- rewrite (counts_for_clean use_cache image entry m Hclean Hm) in Hc.
           by injection Hc as <- <- <-.
        -- destruct sn; [|done]. rewrite elem_of_app, list_elem_of_singleton.
           intros [?|?]; [done|]. by apply Hne.
    + injection Hloop as <- <-. split; [|done]. simpl in Hmade1.
      rewrite Hmade1, Hcd. destruct (decide (other = image)) as [->|Hne].
      * by rewrite (counts_for_clean use_cache image entry m Hclean Hm).
      * destruct (Containers.counts_for E use_cache other (VDict m))
          as [[[counts cd] []]|e']; try done.
        rewrite elem_of_app, list_elem_of_singleton.
        intros [?|?]; [done|]. by apply Hne.
Qed.

(** X18. An image whose entry in the unexpired cache has no ["error"] key
    is not scanned: the check takes the cached counts, and the mapping it
    hands to [_save_cache] when it returns still holds the entry. *)
Theorem clean_cached_scan_is_reused (s s' : fs) (now : Z)
    (C : cache_settings) (cache_path : path) (cached : gmap string value)
    (image : string) (entry : value)
    (Htrivy : _check_trivy_available E = true)
    (Huse : use_cache C = true)
    (Hpath : _get_cache_path (expanduser E) "container_vulns.json" s
               (cache_dir C) = (Ok cache_path, s'))
    (Hload : _load_cache s' now cache_path (cache_hours C) = Ok (VDict cached))
    (Hentry : cached !! image = Some entry)
    (Hclean : py_in "error" entry = Ok false) :
  image ∉ lookups (Containers.check_containers E s now "trivy" C) ∧
  (∀ rs, outcome (Containers.check_containers E s now "trivy" C) = Ok rs →
     _get_running_images E ≠ [] →
     ∃ m, m !! image = Some entry ∧
          fs_after (Containers.check_containers E s now "trivy" C)
          = (_save_cache s' now cache_path (VDict m)).2).
Proof.
  destruct (check_containers_cases s now C Htrivy)
    as [(e & s1 & _ & Hpath' & _)
       |(p & cached' & s1 & Hopen &
         [[Himages ->]|(Himages & res & made & Hloop & ->)])];
    [congruence| |].
  - simpl. split; [apply not_elem_of_nil|done].
  - destruct p as [p|]; [|destruct Hopen; congruence].
    destruct Hopen as (_ & Hpath' & Hload').
    rewrite Hpath in Hpath'. injection Hpath' as <- <-.
    rewrite Hload in Hload'. injection Hload' as <-.
    destruct (loop_reuses (use_cache C) image entry _ _ res made Hclean Hloop)
      as [Hnot Hkeep].
    + exists cached. done.
    + simpl. apply not_elem_of_nil.
    + destruct res as [st|e]; simpl; (split; [done|]); [|done].
      intros rs _ _. destruct (Hkeep st eq_refl) as (m' & Hcd & Hm').
      exists m'. split; [done|]. by rewrite Hcd.
Qed.

(** X19. The counts of a scan that went through are kept for as long as
    the check keeps running: every run that returns rewrites the cache
    file, so the age of the file starts again.  When the containers check
    runs at times none of which is more than the TTL after the one
    before, on a writable cache whose file holds an entry without an
    ["error"] key for an image, some image is running, and every run
    returns, then no run scans that image again. *)
Theorem cached_scan_is_never_refreshed (s : fs) (times : list Z)
    (C : cache_settings) (image : string) (entry : value)
    (cached : gmap string value) (t0 : Z)
    (Htrivy : _check_trivy_available E = true) (Huse : use_cache C = true)
    (Himages : _get_running_images E ≠ [])
    (Hdir : expanduser E (cache_dir C) ∈ fs_dirs s)
    (Hrw : fs_readonly s = false)
    (Hfile : fs_files s !! (expanduser E (cache_dir C), "container_vulns.json")
             = Some (mkFile t0 (Json (VDict cached)) true))
    (Hentry : cached !! image = Some entry)
    (Hclean : py_in "error" entry = Ok false)
    (Httl : within_ttl t0 times (cache_hours C))
    (Hreturn : Forall (λ r, ∃ rs, outcome r = Ok rs)
                      (check_containers_at E s times "trivy" C)) :
  Forall (λ r, image ∉ lookups r) (check_containers_at E s times "trivy" C).
Proof.
  revert s cached t0 Hdir Hrw Hfile Hentry Httl Hreturn.
  induction times as [|now times IH];
    intros s cached t0 Hdir Hrw Hfile Hentry Httl Hreturn; [constructor|].
  cbn [check_containers_at] in *. destruct Httl as [Hfresh Httl].
  apply Forall_cons in Hreturn as [[rs Hrs] Hreturn].
  destruct (check_containers_cases s now C Htrivy)
    as [(e & s' & _ & _ & Hcheck)
       |(cache_path & cached0 & s' & Hopen &
         [[Hnone _]|(_ & res & made & Hloop & Hcheck)])];
    [by rewrite Hcheck in Hrs|done|].
  destruct cache_path as [p|]; [|destruct Hopen; congruence].
  destruct Hopen as (_ & Hpath & Hload).
  rewrite (_get_cache_path_exists E "container_vulns.json" s (cache_dir C) Hdir)
    in Hpath.
  injection Hpath as <- <-.
  rewrite (_load_cache_file _ _ _ _ _ _ Hfile) in Hload.
  unfold expired in Hload. rewrite bool_decide_eq_false_2 in Hload by lia.
  injection Hload as <-.
  destruct (loop_reuses (use_cache C) image entry _ _ res made Hclean Hloop)
    as [Hnot Hkeep]; [by exists cached|simpl; apply not_elem_of_nil|].
  rewrite Hcheck in Hrs, Hreturn |- *.
  destruct res as [st|e]; [|done]. simpl in Hreturn |- *.
  destruct (Hkeep st eq_refl) as (m' & Hcd & Hm').
  rewrite (_save_cache_goes_through s now
             (expanduser E (cache_dir C), "container_vulns.json") _ _
             Hrw Hdir Hfile eq_refl) in Hreturn |- *.
  simpl in Hreturn |- *. constructor; [done|].
  apply (IH _ m' now); simpl; try done.
  rewrite Hcd. apply lookup_insert_eq.
Qed.

Lemma counts_for_uncached image :
  Containers.counts_for E false image (VDict ∅)
  = Ok (_scan_image_trivy E image, VDict ∅, true).
Proof.
  unfold Containers.counts_for. simpl. rewrite lookup_empty.
  rewrite bool_decide_eq_false_2; [done|]. by intros [? ?].
Qed.

Lemma loop_uncached_scans images st st' made :
  Containers.cached_data st = VDict ∅ →
  Containers.loop E false images st = (Ok st', made) →
  made = Containers.scans st ++ images.
Proof.
  revert st. induction images as [|image images IH]; intros st Hcd; simpl.
  - intros [= <- <-]. by rewrite app_nil_r.
  - destruct (Containers.step E false image st) as [[st1|e] made1] eqn:Hstep;
      [|done].
    intros Hloop.
    apply step_scans in Hstep as (counts & cd & sn & Hc & Hcd1 & Hscans1).
    rewrite Hcd, counts_for_uncached in Hc. injection Hc as <- <- <-.
    apply IH in Hloop; [|done]. rewrite Hloop, Hscans1.
    by rewrite <- app_assoc.
Qed.

(** X20. With the cache disabled the containers check leaves the file
    system alone, and a run that returns has scanned every one of the
    first ten running images, once each and in order. *)
Theorem check_containers_without_cache (s : fs) (now : Z)
    (C : cache_settings) (rs : list CheckResult)
    (Htrivy : _check_trivy_available E = true)
    (Huse : use_cache C = false)
    (Hrun : outcome (Containers.check_containers E s now "trivy" C) = Ok rs) :
  fs_after (Containers.check_containers E s now "trivy" C) = s ∧
  lookups (Containers.check_containers E s now "trivy" C)
    = take 10 (_get_running_images E).
Proof.
  destruct (check_containers_cases s now C Htrivy)
    as [(e & s' & Huse' & _)
       |(cache_path & cached & s' & Hopen &
         [[Himages Hcheck]|(Himages & res & made & Hloop & Hcheck)])];
    [congruence| |];
    (destruct cache_path as [p|]; [destruct Hopen; congruence|]);
    destruct Hopen as (_ & -> & ->); rewrite Hcheck in Hrun |- *.
  - simpl. by rewrite Himages.
  - rewrite Huse in Hloop. destruct res as [st|e]; [|done]. simpl.
    split; [done|]. by apply loop_uncached_scans in Hloop.
Qed.

End containers_check.

Lemma clean_cached_scan_is_reused_witness :
  _load_cache scanned_fs 1000000 vulns_json (cache_hours cache_on)
    = Ok (VDict clean_scan) ∧
  "registry.local/app:1.4" ∉
    lookups (Containers.check_containers plain_outside scanned_fs 1000000
               "trivy" cache_on).
Proof.
  assert (Hpath : _get_cache_path (expanduser plain_outside)
                    "container_vulns.json" scanned_fs (cache_dir cache_on)
                  = (Ok vulns_json, scanned_fs)) by (by vm_compute).
  assert (Hload : _load_cache scanned_fs 1000000 vulns_json (cache_hours cache_on)
                  = Ok (VDict clean_scan)) by (by vm_compute).
  split; [exact Hload|].
  refine (proj1 (clean_cached_scan_is_reused plain_outside scanned_fs scanned_fs
                   1000000 cache_on vulns_json clean_scan
                   "registry.local/app:1.4"
                   (VDict {[ "CRITICAL" := VInt 0; "HIGH" := VInt 2;
                             "MEDIUM" := VInt 5 ]})
                   eq_refl eq_refl Hpath Hload _ _)); by vm_compute.
Defined.

(** Four runs five hours apart with a TTL of six hours. *)
Lemma cached_scan_is_never_refreshed_witness :
  within_ttl 0 [18000000000; 36000000000; 54000000000; 72000000000] 6 ∧
  Forall (λ r, "registry.local/app:1.4" ∉ lookups r)
         (check_containers_at plain_outside scanned_fs
            [18000000000; 36000000000; 54000000000; 72000000000]
            "trivy" (mkCache true "~/.cache/daily-hud" 6)).
Proof.
  assert (Httl : within_ttl 0
                   [18000000000; 36000000000; 54000000000; 72000000000] 6).
  { simpl. unfold microseconds_per_hour. lia. }
  split; [exact Httl|].
  apply (cached_scan_is_never_refreshed plain_outside scanned_fs
           [18000000000; 36000000000; 54000000000; 72000000000]
           (mkCache true "~/.cache/daily-hud" 6) "registry.local/app:1.4"
           (VDict {[ "CRITICAL" := VInt 0; "HIGH" := VInt 2;
                     "MEDIUM" := VInt 5 ]})
           clean_scan 0 eq_refl eq_refl).
  - done.
  - apply (bool_decide_unpack _). by vm_compute.
  - reflexivity.
  - by vm_compute.
  - by vm_compute.
  - by vm_compute.
  - exact Httl.
  - vm_compute. repeat (constructor; [eexists; reflexivity|]). constructor.
Defined.

Lemma check_containers_without_cache_witness :
  outcome (Containers.check_containers plain_outside scanned_fs 1000000
             "trivy" (mkCache false "~/.cache/daily-hud" 6))
    = Ok [mkCheckResult "containers" WARNING "Containers: Scan failed"
            ["registry.local/app:1.4: Scan timed out"]] ∧
  lookups (Containers.check_containers plain_outside scanned_fs 1000000
             "trivy" (mkCache false "~/.cache/daily-hud" 6))
    = ["registry.local/app:1.4"].
Proof.
  assert (Hrun : outcome (Containers.check_containers plain_outside scanned_fs
                            1000000 "trivy"
                            (mkCache false "~/.cache/daily-hud" 6))
                 = Ok [mkCheckResult "containers" WARNING
                         "Containers: Scan failed"
                         ["registry.local/app:1.4: Scan timed out"]])
    by (by vm_compute).
  split; [exact Hrun|].
  exact (proj2 (check_containers_without_cache plain_outside scanned_fs 1000000
                  (mkCache false "~/.cache/daily-hud" 6) _
                  eq_refl eq_refl Hrun)).
Defined.


(** ** checks/containers.py: the counts of a scan *)

Section trivy_counts.

Lemma counts_lookup (c h m : Z) (s : string) :
  ({[ "CRITICAL" := c; "HIGH" := h; "MEDIUM" := m ]} : gmap string Z) !! s
  = if decide (s = "CRITICAL") then Some c
    else if decide (s = "HIGH") then Some h
    else if decide (s = "MEDIUM") then Some m
    else None.
Proof.
  repeat case_decide; subst; try done.
  rewrite !lookup_insert_ne by done. by apply lookup_singleton_ne.
Qed.

Lemma count_severity_cons s sev l :
  count_severity s (sev :: l)
  = (if decide (sev = s) then 1 else 0) + count_severity s l.
Proof.
  unfold count_severity. rewrite filter_cons.
  case_decide; simpl; lia.
Qed.

Lemma count_severity_app s l1 l2 :
  count_severity s (l1 ++ l2) = count_severity s l1 + count_severity s l2.
Proof.
  unfold count_severity. rewrite filter_app, length_app. lia.
Qed.

Lemma count_severity_nonneg s l : 0 ≤ count_severity s l.
Proof. unfold count_severity. lia. Qed.

(** One vulnerability with a severity that is a string. *)
Lemma count_vuln_severity (c h m : Z) (vuln : value) (sev : string) :
  vuln_of_severity vuln sev →
  Trivy.count_vuln {[ "CRITICAL" := c; "HIGH" := h; "MEDIUM" := m ]} vuln
  = Ok {[ "CRITICAL" := c + count_severity "CRITICAL" [sev];
          "HIGH" := h + count_severity "HIGH" [sev];
          "MEDIUM" := m + count_severity "MEDIUM" [sev] ]}.
Proof.
  intros (mm & -> & Hsev). unfold Trivy.count_vuln. simpl. rewrite Hsev.
  simpl. rewrite counts_lookup, !count_severity_cons.
  unfold count_severity. simpl.
  repeat case_decide; subst; try done; simpl; rewrite ?Z.add_0_r;
    try rewrite bool_decide_is_Some_Some;
    try (rewrite bool_decide_eq_false_2 by (by intros [? ?])); f_equal.
Qed.


Lemma for_each_Forall2 {S A B} (body : S → A → exc S) (step : S → B → S)
    (R : A → B → Prop) (st : S) (items : list A) (ys : list B) :
  (∀ st x y, R x y → body st x = Ok (step st y)) →
  Forall2 R items ys →
  for_each body st items = Ok (foldl step st ys).
Proof.
  intros Hbody Hitems. revert st.
  induction Hitems as [|x y items ys Hxy _ IH]; intros st; [done|].
  simpl. rewrite (Hbody st x y Hxy). simpl. apply IH.
Qed.

Lemma for_each_invariant {S A} (body : S → A → exc S) (P : S → Prop)
    (Q : exn → Prop) (st : S) (items : list A) :
  (∀ st x, P st → match body st x with Ok st' => P st' | Raise e => Q e end) →
  P st →
  match for_each body st items with Ok st' => P st' | Raise e => Q e end.
Proof.
  intros Hbody. revert st.
  induction items as [|x items IH]; intros st Hst; [done|].
  simpl. specialize (Hbody st x Hst).
  destruct (body st x) as [st1|e]; simpl; [by apply IH|done].
Qed.

(** The counters after the vulnerabilities of the severities [sevs]. *)
Lemma count_vulns_severities (c h m : Z) (vulns : list value)
    (sevs : list string) :
  Forall2 vuln_of_severity vulns sevs →
  for_each Trivy.count_vuln {[ "CRITICAL" := c; "HIGH" := h; "MEDIUM" := m ]}
           vulns
  = Ok {[ "CRITICAL" := c + count_severity "CRITICAL" sevs;
          "HIGH" := h + count_severity "HIGH" sevs;
          "MEDIUM" := m + count_severity "MEDIUM" sevs ]}.
Proof.
  intros Hvulns. revert c h m.
  induction Hvulns as [|vuln sev vulns sevs Hvuln _ IH]; intros c h m.
  - simpl. unfold count_severity. simpl. by rewrite !Z.add_0_r.
  - simpl. rewrite (count_vuln_severity c h m vuln sev Hvuln). simpl.
    rewrite IH. rewrite !(count_severity_cons _ sev sevs).
    rewrite !(count_severity_cons _ sev []).
    unfold count_severity at 1 2 3. simpl.
    rewrite !Z.add_0_r, !Z.add_assoc. done.
Qed.

Lemma count_target_severities (c h m : Z) (target : value)
    (sevs : list string) :
  target_of_severities target sevs →
  Trivy.count_target {[ "CRITICAL" := c; "HIGH" := h; "MEDIUM" := m ]} target
  = Ok {[ "CRITICAL" := c + count_severity "CRITICAL" sevs;
          "HIGH" := h + count_severity "HIGH" sevs;
          "MEDIUM" := m + count_severity "MEDIUM" sevs ]}.
Proof.
  intros (t & vulns & -> & Hvulns & Hsevs). unfold Trivy.count_target.
  cbn [py_get]. rewrite Hvulns. cbn [mbind exc_bind py_iter].
  by apply count_vulns_severities.
Qed.

Lemma count_targets_severities (c h m : Z) (targets : list value)
    (sevss : list (list string)) :
  Forall2 target_of_severities targets sevss →
  for_each Trivy.count_target
           {[ "CRITICAL" := c; "HIGH" := h; "MEDIUM" := m ]} targets
  = Ok {[ "CRITICAL" := c + count_severity "CRITICAL" (concat sevss);
          "HIGH" := h + count_severity "HIGH" (concat sevss);
          "MEDIUM" := m + count_severity "MEDIUM" (concat sevss) ]}.
Proof.
  intros Htargets. revert c h m.
  induction Htargets as [|target sevs targets sevss Htarget _ IH];
    intros c h m.
  - simpl. unfold count_severity. simpl. by rewrite !Z.add_0_r.
  - cbn [for_each].
    rewrite (count_target_severities c h m target sevs Htarget).
    cbn [mbind exc_bind]. rewrite IH. cbn [concat].
    rewrite !count_severity_app, !Z.add_assoc. done.
Qed.

(** X21. On the output of a Trivy run that exited with 0 and printed a
    document of the expected shape (a JSON object whose "Results", when
    there are any, are objects whose "Vulnerabilities", when there are
    any, are objects with a string as "Severity"), [_scan_image_trivy]
    returns exactly the three counts: the number of listed vulnerabilities
    of severity CRITICAL, of severity HIGH and of severity MEDIUM, all the
    targets taken together.  Vulnerabilities of any other severity are
    not counted. *)
Theorem scan_counts_every_vulnerability (d : gmap string value)
    (targets : list value) (sevss : list (list string))
    (Hresults : default (VList []) (d !! "Results") = VList targets)
    (Htargets : Forall2 target_of_severities targets sevss) :
  Trivy._scan_image_trivy (Completed 0 (Json (VDict d)))
  = Ok (VDict {[ "CRITICAL" := VInt (count_severity "CRITICAL" (concat sevss));
                 "HIGH" := VInt (count_severity "HIGH" (concat sevss));
                 "MEDIUM" := VInt (count_severity "MEDIUM" (concat sevss)) ]}).
Proof.
  unfold Trivy._scan_image_trivy. simpl. rewrite Hresults. simpl.
  unfold Trivy.no_counts.
  rewrite (count_targets_severities 0 0 0 targets sevss Htargets). simpl.
  rewrite !Z.add_0_l. by rewrite !fmap_insert, map_fmap_singleton.
Qed.

Lemma py_get_raises v key dflt e :
  py_get v key dflt = Raise e → exn_class_of e = AttributeError.
Proof. destruct v; simpl; try done; by intros [= <-]. Qed.

Lemma py_iter_raises v e :
  py_iter v = Raise e → exn_class_of e = TypeError.
Proof. destruct v; simpl; try done; by intros [= <-]. Qed.

Lemma count_vuln_invariant counts vuln :
  well_counted counts →
  match Trivy.count_vuln counts vuln with
  | Ok counts' => well_counted counts'
  | Raise e => exn_class_of e = AttributeError ∨ exn_class_of e = TypeError
  end.
Proof.
  intros (c & h & m & -> & Hc & Hh & Hm). unfold Trivy.count_vuln.
  destruct (py_get vuln "Severity" (VStr "UNKNOWN")) as [severity|e] eqn:Hget;
    simpl; [|left; by eapply py_get_raises].
  destruct severity as [| | |s| |]; simpl; try (by right);
    try (by exists c, h, m).
  rewrite counts_lookup.
  repeat case_decide; subst; simpl;
    try rewrite bool_decide_is_Some_Some;
    try (rewrite bool_decide_eq_false_2 by (by intros [? ?]));
    try (by exists c, h, m).
  - exists (c + 1), h, m. split; [done|lia].
  - exists c, (h + 1), m. split; [done|lia].
  - exists c, h, (m + 1). split; [done|lia].
Qed.

Lemma count_target_invariant counts target :
  well_counted counts →
  match Trivy.count_target counts target with
  | Ok counts' => well_counted counts'
  | Raise e => exn_class_of e = AttributeError ∨ exn_class_of e = TypeError
  end.
Proof.
  intros Hcounts. unfold Trivy.count_target.
  destruct (py_get target "Vulnerabilities" (VList [])) as [vulns|e] eqn:Hget;
    simpl; [|left; by eapply py_get_raises].
  destruct (py_iter vulns) as [items|e] eqn:Hiter; simpl;
    [|right; by eapply py_iter_raises].
  apply (for_each_invariant Trivy.count_vuln well_counted
           (λ e, exn_class_of e = AttributeError ∨ exn_class_of e = TypeError));
    [|done].
  intros st x Hst. by apply count_vuln_invariant.
Qed.

(** A run that exited with 0 and printed a JSON document. *)
Lemma scan_document_cases (data : value) :
  match Trivy._scan_image_trivy (Completed 0 (Json data)) with
  | Ok v =>
      ∃ c h m, v = VDict {[ "CRITICAL" := VInt c; "HIGH" := VInt h;
                            "MEDIUM" := VInt m ]} ∧
               0 ≤ c ∧ 0 ≤ h ∧ 0 ≤ m
  | Raise e => exn_class_of e = AttributeError ∨ exn_class_of e = TypeError
  end.
Proof.
  simpl.
  destruct (py_get data "Results" (VList [])) as [results|e] eqn:Hget; simpl.
  2:{ pose proof (py_get_raises _ _ _ _ Hget) as He.
      rewrite He. simpl. by left. }
  destruct (py_iter results) as [targets|e] eqn:Hiter; simpl.
  2:{ pose proof (py_iter_raises _ _ Hiter) as He.
      rewrite He. simpl. by right. }
  pose proof (for_each_invariant Trivy.count_target well_counted
                (λ e, exn_class_of e = AttributeError ∨
                      exn_class_of e = TypeError)
                Trivy.no_counts targets) as Hinv.
  destruct (for_each Trivy.count_target Trivy.no_counts targets)
    as [counts|e]; simpl.
  - destruct Hinv as (c & h & m & -> & Hc & Hh & Hm).
    + intros st x Hst. by apply count_target_invariant.
    + by exists 0, 0, 0.
    + exists c, h, m. by rewrite !fmap_insert, map_fmap_singleton.
  - assert (He : exn_class_of e = AttributeError ∨
                 exn_class_of e = TypeError).
    { apply Hinv; [|by exists 0, 0, 0].
      intros st x Hst. by apply count_target_invariant. }
    destruct He as [He|He]; rewrite He; simpl; auto.
Qed.

(** What a scan that returns gives to [check_containers]. *)
Lemma scan_shape (run : trivy_run) (v : value) :
  Trivy._scan_image_trivy run = Ok v →
  (∃ msg, v = Trivy.scan_error msg) ∨
  (∃ c h m, v = VDict {[ "CRITICAL" := VInt c; "HIGH" := VInt h;
                         "MEDIUM" := VInt m ]} ∧
            0 ≤ c ∧ 0 ≤ h ∧ 0 ≤ m).
Proof.
  destruct run as [| |returncode stdout].
  - intros [= <-]. left. by eexists.
  - intros [= <-]. left. by eexists.
  - destruct (returncode =? 0) eqn:Hcode.
    + apply Z.eqb_eq in Hcode as ->. destruct stdout as [data|].
      * pose proof (scan_document_cases data) as Hdoc. intros Hv.
        rewrite Hv in Hdoc. by right.
      * intros [= <-]. left. by eexists.
    + simpl. rewrite Hcode. intros [= <-]. left. by eexists.
Qed.


End trivy_counts.

Lemma scan_counts_every_vulnerability_witness :
  Trivy._scan_image_trivy (Completed 0 (Json trivy_report))
  = Ok (VDict {[ "CRITICAL" := VInt 2; "HIGH" := VInt 0; "MEDIUM" := VInt 1 ]}).
Proof.
  unfold trivy_report.
  eapply (scan_counts_every_vulnerability _ _
            [["CRITICAL"; "MEDIUM"; "CRITICAL"]]); [by vm_compute|].
  constructor; [|constructor].
  eexists _, _. split; [reflexivity|]. split; [reflexivity|].
  repeat (constructor; [eexists; split; [reflexivity|reflexivity]|]).
  constructor.
Defined.


(** ** checks/containers.py: the status of the check from the scans *)

Section containers_status.

Variable E : outside.

Lemma not_scan_failed_counts image c h m :
  _scan_image_trivy E image
    = VDict {[ "CRITICAL" := VInt c; "HIGH" := VInt h; "MEDIUM" := VInt m ]} →
  ¬ scan_failed E image ∧
  (scan_found E "CRITICAL" image ↔ 0 < c) ∧
  (scan_found E "HIGH" image ↔ 0 < h).
Proof.
  intros Hv. split; [|split].
  - intros (m' & Hv' & [x Hx]). rewrite Hv in Hv'. injection Hv' as <-.
    done.
  - split.
    + intros (m' & n & Hv' & _ & Hn & Hpos). rewrite Hv in Hv'.
      injection Hv' as <-. by injection Hn as <-.
    + intros Hpos. by eexists _, c.
  - split.
    + intros (m' & n & Hv' & _ & Hn & Hpos). rewrite Hv in Hv'.
      injection Hv' as <-. by injection Hn as <-.
    + intros Hpos. by eexists _, h.
Qed.

Lemma scan_failed_error image msg :
  _scan_image_trivy E image = Trivy.scan_error msg →
  scan_failed E image ∧ ∀ sev, ¬ scan_found E sev image.
Proof.
  intros Hv. split.
  - exists {[ "error" := VStr msg ]}. split; [done|]. by eexists.
  - intros sev (m' & n & Hv' & Hnone & _). rewrite Hv in Hv'.
    injection Hv' as <-. done.
Qed.

Lemma step_sums (image : string) (handled : list string)
    (st : Containers.loop_state) (run : trivy_run) :
  Trivy._scan_image_trivy run = Ok (_scan_image_trivy E image) →
  scans_summed E handled st →
  ∃ st', (Containers.step E false image st).1 = Ok st' ∧
         scans_summed E (handled ++ [image]) st'.
Proof.
  intros Hrun (Hcd & Hscanned & Htc & Hth & Hzero & Herrors & Hcritical & Hhigh).
  unfold Containers.step. rewrite Hcd, counts_for_uncached.
  destruct (scan_shape run _ Hrun) as [[msg Hv]|(c & h & m & Hv & Hc & Hh & Hm)].
  - destruct (scan_failed_error image msg Hv) as [Hfailed Hnone].
    rewrite Hv. cbn. eexists. split; [reflexivity|].
    unfold scans_summed. cbn. split; [done|]. split; [done|].
    split; [done|]. split; [done|].
    rewrite Forall_app, Forall_singleton, Forall_app, Forall_singleton.
    rewrite !Exists_app, !Exists_cons, !Exists_nil.
    split; [tauto|]. split.
    { split; [intros [_ [=]]%app_eq_nil|tauto]. }
    split.
    + rewrite Hcritical. specialize (Hnone "CRITICAL"). tauto.
    + rewrite Hhigh. specialize (Hnone "HIGH"). tauto.
  - destruct (not_scan_failed_counts image c h m Hv) as (Hnot & Hfc & Hfh).
    rewrite Hv. cbn. eexists. split; [reflexivity|].
    unfold scans_summed. cbn. split; [done|]. split; [lia|].
    split; [lia|]. split; [lia|].
    rewrite Forall_app, Forall_singleton, Forall_app, Forall_singleton.
    rewrite !Exists_app, !Exists_cons, !Exists_nil.
    split; [split; [lia|tauto]|]. split; [tauto|]. split.
    + rewrite Hfc. split; [|intros [?%Hcritical|[?|[]]]; lia].
      intros Hpos. destruct (decide (0 < c)); [tauto|].
      left. apply Hcritical. lia.
    + rewrite Hfh. split; [|intros [?%Hhigh|[?|[]]]; lia].
      intros Hpos. destruct (decide (0 < h)); [tauto|].
      left. apply Hhigh. lia.
Qed.


Lemma loop_sums (images handled : list string) (st : Containers.loop_state) :
  (∀ image, image ∈ images →
     ∃ run, Trivy._scan_image_trivy run = Ok (_scan_image_trivy E image)) →
  scans_summed E handled st →
  ∃ st' made,
    Containers.loop E false images st = (Ok st', made) ∧
    scans_summed E (handled ++ images) st'.
Proof.
  revert handled st.
  induction images as [|image images IH]; intros handled st Hscan Hst.
  - exists st, (Containers.scans st). by rewrite app_nil_r.
  - destruct (Hscan image) as [run Hrun]; [apply list_elem_of_here|].
    destruct (step_sums image handled st run Hrun Hst) as (st1 & Hstep & Hst1).
    cbn [Containers.loop].
    destruct (Containers.step E false image st) as [res made1].
    simpl in Hstep. subst res.
    destruct (IH (handled ++ [image]) st1) as (st' & made & Hloop & Hst');
      [|done|].
    + intros image' Hin. apply Hscan. by apply list_elem_of_further.
    + exists st', made. split; [done|]. by rewrite <- app_assoc in Hst'.
Qed.

Lemma scan_found_not_failed sev image :
  scan_found E sev image → ¬ scan_failed E image.
Proof.
  intros (m & n & Hv & Hnone & _) (m' & Hv' & [x Hx]).
  rewrite Hv in Hv'. injection Hv' as <-. congruence.
Qed.

(** X23. The status of the containers check, read off the scans.  With
    the cache disabled, some image running, and every scan of the first
    ten running images returning what [_scan_image_trivy] returns, the
    check returns one result.  It is an ERROR exactly when some scan that
    went through counted a critical vulnerability; it is a WARNING exactly
    when none counted a critical one and some counted one of high
    severity, or when every scan failed.  A failed scan beside a scan
    that went through changes nothing. *)
Theorem containers_status_follows_the_scans (s : fs) (now : Z)
    (C : cache_settings)
    (Htrivy : _check_trivy_available E = true)
    (Huse : use_cache C = false)
    (Himages : _get_running_images E ≠ [])
    (Hscan : ∀ image, image ∈ take 10 (_get_running_images E) →
       ∃ run, Trivy._scan_image_trivy run = Ok (_scan_image_trivy E image)) :
  ∃ r,
    outcome (Containers.check_containers E s now "trivy" C) = Ok [r] ∧
    (status r = ERROR ↔
     Exists (scan_found E "CRITICAL") (take 10 (_get_running_images E))) ∧
    (status r = WARNING ↔
     (¬ Exists (scan_found E "CRITICAL") (take 10 (_get_running_images E)) ∧
      Exists (scan_found E "HIGH") (take 10 (_get_running_images E))) ∨
     Forall (scan_failed E) (take 10 (_get_running_images E))).
Proof.
  destruct (check_containers_cases E s now C Htrivy)
    as [(e & s' & Huse' & _)
       |(cache_path & cached & s' & Hopen &
         [[Hnone _]|(_ & res & made & Hloop & ->)])];
    [congruence|done|].
  destruct cache_path as [p|]; [destruct Hopen; congruence|].
  destruct Hopen as (_ & -> & ->). rewrite Huse in Hloop.
  destruct (loop_sums (take 10 (_get_running_images E)) []
              (Containers.mkLoop (VDict ∅) 0 0 0 [] 0 []) Hscan)
    as (st & made' & Hloop' & Hst).
  { unfold scans_summed. simpl. rewrite !Exists_nil.
    repeat split; try done; try lia; by constructor. }
  rewrite Hloop' in Hloop. injection Hloop as <- <-. simpl in Hst |- *.
  destruct Hst as (_ & Hscanned & Htc & Hth & Hzero & Herrors & Hcritical & Hhigh).
  assert (Hsome : take 10 (_get_running_images E) ≠ []).
  { by destruct (_get_running_images E). }
  assert (Hclash : ∀ l, l ≠ [] → Forall (scan_failed E) l →
                        Forall (λ image, ¬ scan_failed E image) l → False).
  { intros [|x l] Hl Hfailed Hnot; [done|].
    apply Forall_cons in Hfailed as [? _]. by apply Forall_cons in Hnot as [? _]. }
  assert (Hfound : ∀ sev, Exists (scan_found E sev)
                            (take 10 (_get_running_images E)) →
                          ¬ Forall (scan_failed E)
                              (take 10 (_get_running_images E))).
  { intros sev (image & Hin & Hf)%Exists_exists Hall.
    rewrite Forall_forall in Hall.
    by apply (scan_found_not_failed sev image Hf), Hall. }
  unfold Containers.build_results.
  destruct (Containers.scanned st =? 0) eqn:Hs.
  - apply Z.eqb_eq in Hs. pose proof (proj1 Hzero Hs) as Hall.
    destruct (Containers.errors st) as [|line lines] eqn:Hlines.
    + exfalso. apply (Hclash _ Hsome Hall). by apply Herrors.
    + eexists. split; [reflexivity|].
      rewrite (proj1 (proj2 (add_details_fields _ _))). simpl.
      split; [split; [done|by intros ?%Hfound]|].
      split; [by right|done].
  - apply Z.eqb_neq in Hs.
    assert (Hnot : ¬ Forall (scan_failed E) (take 10 (_get_running_images E)))
      by (by intros ?%Hzero).
    destruct (0 <? Containers.total_critical st) eqn:Hc.
    + apply Z.ltb_lt in Hc.
      assert (Hex : Exists (scan_found E "CRITICAL")
                      (take 10 (_get_running_images E)))
        by (by apply Hcritical).
      destruct (0 <? Containers.total_high st),
               (0 <? Containers.total_medium st);
        (eexists; split; [reflexivity|]); simpl;
        (split; [split; [by intros _|done]|]); (split; [done|]);
        (intros [[Hno _]|Hall]; [by destruct Hno|by destruct Hnot]).
    + apply Z.ltb_ge in Hc.
      assert (Hno : ¬ Exists (scan_found E "CRITICAL")
                        (take 10 (_get_running_images E)))
        by (intros ?%Hcritical; lia).
      destruct (0 <? Containers.total_high st) eqn:Hh.
      * apply Z.ltb_lt in Hh.
        assert (Hex : Exists (scan_found E "HIGH")
                        (take 10 (_get_running_images E)))
          by (by apply Hhigh).
        destruct (0 <? Containers.total_medium st);
          (eexists; split; [reflexivity|]); simpl;
          (split; [split; [done|by intros ?%Hno]|]);
          (split; [by left|done]).
      * apply Z.ltb_ge in Hh. eexists. split; [reflexivity|]. simpl.
        split; [split; [done|by intros ?%Hno]|].
        split; [done|]. intros [[_ Hex]|Hall]; [|done].
        apply Hhigh in Hex. lia.
Qed.

End containers_status.

Lemma containers_status_follows_the_scans_witness :
  ∃ r, outcome (Containers.check_containers vulnerable_outside scanned_fs
                  1000000 "trivy" (mkCache false "~/.cache/daily-hud" 6))
       = Ok [r] ∧ status r = ERROR.
Proof.
  destruct (containers_status_follows_the_scans vulnerable_outside scanned_fs
              1000000 (mkCache false "~/.cache/daily-hud" 6)
              eq_refl eq_refl) as (r & Hrun & Herror & _).
  - done.
  - intros image _. exists (Completed 0 (Json trivy_report)). by vm_compute.
  - exists r. split; [exact Hrun|]. apply Herror.
    apply Exists_cons_hd. eexists _, 2. by vm_compute.
Defined.


(** ** checks/cves.py: the report and the cache *)

Section cves_check.

Variable E : outside.

Lemma select_elem_of (s : string) (items l : list value) :
  Cves.select s items = Ok l →
  ∀ v, v ∈ l ↔ v ∈ items ∧ has_severity s v.
Proof.
  revert l. induction items as [|x items IH]; intros l; simpl.
  - intros [= <-] v. split; [by intros ?%elem_of_nil|].
    by intros [?%elem_of_nil _].
  - destruct (py_getitem x "severity") as [severity|e] eqn:Hsev; simpl; [|done].
    destruct (Cves.select s items) as [rest|e]; simpl; [|done].
    intros [= <-] v. specialize (IH rest eq_refl v).
    destruct (is_str s severity) eqn:Hs.
    + rewrite !elem_of_cons, IH. split.
      * intros [->|[Hin Hv]]; [|by auto]. split; [by left|]. by exists severity.
      * intros [[->|Hin] Hv]; [by left|by right].
    + rewrite elem_of_cons, IH. split; [by intros [? ?]; auto|].
      intros [[->|Hin] Hv]; [|done].
      destruct Hv as (severity' & Hsev' & Hs'). congruence.
Qed.

Lemma select_nonempty (s : string) (items l : list value) :
  Cves.select s items = Ok l →
  l ≠ [] ↔ Exists (has_severity s) items.
Proof.
  intros Hsel. pose proof (select_elem_of s items l Hsel) as Hl.
  rewrite Exists_exists. split.
  - destruct l as [|v l]; [done|]. intros _. exists v.
    apply Hl. by left.
  - intros (v & Hin & Hv) ->. by apply (elem_of_nil v), Hl.
Qed.

Lemma mapM_exc_length {A B} (f : A → exc B) (l : list A) (k : list B) :
  mapM f l = Ok k → length k = length l.
Proof.
  revert k. induction l as [|x l IH]; intros k; simpl; [by intros [= <-]|].
  destruct (f x) as [y|e]; simpl; [|done].
  destruct (mapM f l) as [k'|e]; simpl; [|done].
  intros [= <-]. simpl. by rewrite (IH k').
Qed.

(** What [report] returns on a list of advisories. *)
Lemma report_result (items : list value) (rs : list CheckResult) :
  Cves.report E (VList items) = Ok rs →
  ∃ r, rs = [r] ∧ name r = "cves" ∧
       (length (details r) ≤ 12)%nat ∧
       (status r = ERROR ↔ Exists (has_severity "critical") items) ∧
       (status r = WARNING ↔
        ¬ Exists (has_severity "critical") items ∧
        Exists (has_severity "high") items).
Proof.
  unfold Cves.report. destruct items as [|v0 items0] eqn:Hitems.
  { simpl. intros [= <-]. eexists. split; [done|]. split; [done|].
    split; [simpl; lia|]. rewrite !Exists_nil. by split; split; try tauto. }
  rewrite <- Hitems. replace (negb (truthy (VList items))) with false
    by (by subst items). cbn [py_iter mbind exc_bind].
  clear Hitems v0 items0.
  destruct (Cves.select "critical" items) as [critical|e] eqn:Hc; cbn [mbind exc_bind]; [|done].
  destruct (Cves.select "high" items) as [high|e] eqn:Hh; cbn [mbind exc_bind]; [|done].
  destruct (Cves.select "medium" items) as [medium|e] eqn:Hm; cbn [mbind exc_bind]; [|done].
  destruct (Cves.select "low" items) as [low|e] eqn:Hl; cbn [mbind exc_bind]; [|done].
  destruct (mapM (Cves.detail_of E) (take 10 (critical ++ high)))
    as [lines|e] eqn:Hlines; cbn [mbind exc_bind]; [|done].
  apply mapM_exc_length in Hlines. rewrite length_take in Hlines.
  apply select_nonempty in Hc, Hh.
  intros [= <-]. eexists. split; [reflexivity|].
  assert (Hst :
    ∀ status0,
      status0 = match critical, high with
                | _ :: _, _ => ERROR
                | [], _ :: _ => WARNING
                | [], [] => OK
                end →
      (status0 = ERROR ↔ Exists (has_severity "critical") items) ∧
      (status0 = WARNING ↔
       ¬ Exists (has_severity "critical") items ∧
       Exists (has_severity "high") items)).
  { intros status0 ->. destruct critical as [|c cs].
    - assert (Hno : ¬ Exists (has_severity "critical") items)
        by (by intros ?%Hc).
      destruct high as [|h hs].
      + assert (Hnoh : ¬ Exists (has_severity "high") items)
          by (by intros ?%Hh).
        split; split; try done; tauto.
      + assert (Hsome : Exists (has_severity "high") items)
          by (by apply Hh).
        split; split; try done; tauto.
    - assert (Hsome : Exists (has_severity "critical") items)
        by (by apply Hc).
      split; split; try done; tauto. }
  destruct medium as [|m ms], low as [|l ls],
           (10 <? length (critical ++ high))%nat;
    cbn [name status details add_detail];
    rewrite ?length_app;
    rewrite ?(proj1 (add_details_fields _ _)),
            ?(proj1 (proj2 (add_details_fields _ _))),
            ?(proj2 (proj2 (proj2 (add_details_fields _ _))));
    cbn [name status details CheckResult_new length app];
    (split; [done|]); (split; [lia|]); clear Hlines;
    destruct critical; exact (Hst _ eq_refl).
Qed.

End cves_check.


Section cves_cache.

Variable E : outside.
Variable W : Cves.world.

(** How the check runs once [check_local] is set. *)
Lemma check_cves_cases (s : fs) (now : Z) (check_local : value)
    (C : cache_settings) :
  truthy check_local = true →
  (∃ e s', use_cache C = true ∧
     _get_cache_path (expanduser E) "cves.json" s (cache_dir C)
       = (Raise e, s') ∧
     Cves.check_cves E W s now check_local C = mkCheckRun (Raise e) s' []) ∨
  (∃ cache_path cached s',
     match cache_path with
     | Some p =>
         use_cache C = true ∧
         _get_cache_path (expanduser E) "cves.json" s (cache_dir C)
           = (Ok p, s') ∧
         _load_cache s' now p (cache_hours C) = Ok cached
     | None => use_cache C = false ∧ s' = s ∧ cached = VDict ∅
     end ∧
     match py_get cached "vulns" VNone with
     | Raise e =>
         Cves.check_cves E W s now check_local C = mkCheckRun (Raise e) s' []
     | Ok v =>
         if truthy v then
           Cves.check_cves E W s now check_local C
             = mkCheckRun (Cves.report E v) s' []
         else if bool_decide (Cves._get_local_packages W = []) then
           Cves.check_cves E W s now check_local C
             = mkCheckRun
                 (Ok [CheckResult_new "cves" OK
                        "CVEs: No package manager detected"]) s' []
         else
           Cves.check_cves E W s now check_local C
             = mkCheckRun
                 (Cves.report E
                    (VList (Cves.packages_to_check (Cves._get_local_packages W)
                              ≫= Cves._query_osv W)))
                 match cache_path with
                 | Some p =>
                     (_save_cache s' now p
                        (VDict {[ "vulns" :=
                          VList (Cves.packages_to_check
                                   (Cves._get_local_packages W)
                                   ≫= Cves._query_osv W) ]})).2
                 | None => s'
                 end
                 (Cves.pkg_name <$>
                    Cves.packages_to_check (Cves._get_local_packages W))
     end).
Proof.
  intros Hlocal. unfold Cves.check_cves. rewrite Hlocal.
  cbn -[_get_cache_path _load_cache _save_cache Cves.report
        Cves.packages_to_check].
  destruct (use_cache C).
  - destruct (_get_cache_path (expanduser E) "cves.json" s (cache_dir C))
      as [[p|e] s'] eqn:Hpath.
    + right. destruct (_load_cache_returns s' now p (cache_hours C))
        as [cached Hload].
      rewrite Hload.
      cbn -[_get_cache_path _load_cache _save_cache Cves.report
            Cves.packages_to_check].
      exists (Some p), cached, s'. split; [done|].
      destruct (py_get cached "vulns" VNone) as [v|e]; [|done].
      destruct (truthy v); [done|].
      destruct (Cves._get_local_packages W) as [|p0 l0]; [done|].
      rewrite bool_decide_eq_false_2 by done.
      pose proof (_save_cache_returns s' now p
        (VDict {[ "vulns" := VList (Cves.packages_to_check (p0 :: l0)
                                      ≫= Cves._query_osv W) ]})) as Hsave.
      destruct (_save_cache s' now p _) as [saved s'']. simpl in Hsave.
      by rewrite Hsave.
    + left. exists e, s'. done.
  - right. exists None, (VDict ∅), s. split; [done|]. simpl.
    destruct (Cves._get_local_packages W) as [|p0 l0]; [done|].
    by rewrite bool_decide_eq_false_2.
Qed.

End cves_cache.


Section cves_runs.

Variable E : outside.
Variable W : Cves.world.

Lemma packages_to_check_bound (packages : list Cves.package) :
  (length (Cves.packages_to_check packages) ≤ 20)%nat ∧
  Cves.packages_to_check packages `sublist_of` packages ∧
  Forall (λ p, Cves.is_important p = true) (Cves.packages_to_check packages).
Proof.
  unfold Cves.packages_to_check. split; [rewrite length_take; lia|]. split.
  - etrans; [apply sublist_take|apply sublist_filter].
  - apply Forall_take, Forall_forall. by intros p [? _]%list_elem_of_filter.
Qed.

(** X24. With the cache disabled, the CVE check leaves the file system
    alone and asks OSV about at most twenty packages, all of them among
    the important ones and in the order in which the system lists them.
    When it returns, it returns one result, named "cves", with at most
    twelve detail lines; the result is an ERROR exactly when OSV listed a
    critical advisory for one of these packages, and a WARNING exactly
    when it listed none that is critical and one of high severity. *)
Theorem check_cves_without_cache (s : fs) (now : Z) (check_local : value)
    (C : cache_settings)
    (Hlocal : truthy check_local = true)
    (Huse : use_cache C = false)
    (Hpackages : Cves._get_local_packages W ≠ []) :
  fs_after (Cves.check_cves E W s now check_local C) = s ∧
  lookups (Cves.check_cves E W s now check_local C)
    = Cves.pkg_name <$> Cves.packages_to_check (Cves._get_local_packages W) ∧
  (length (lookups (Cves.check_cves E W s now check_local C)) ≤ 20)%nat ∧
  ∀ rs, outcome (Cves.check_cves E W s now check_local C) = Ok rs →
    ∃ r, rs = [r] ∧ name r = "cves" ∧ (length (details r) ≤ 12)%nat ∧
         (status r = ERROR ↔
          Exists (has_severity "critical")
                 (Cves.packages_to_check (Cves._get_local_packages W)
                    ≫= Cves._query_osv W)) ∧
         (status r = WARNING ↔
          ¬ Exists (has_severity "critical")
                   (Cves.packages_to_check (Cves._get_local_packages W)
                      ≫= Cves._query_osv W) ∧
          Exists (has_severity "high")
                 (Cves.packages_to_check (Cves._get_local_packages W)
                    ≫= Cves._query_osv W)).
Proof.
  destruct (check_cves_cases E W s now check_local C Hlocal)
    as [(e & s' & Huse' & _)|(cache_path & cached & s' & Hopen & Hcheck)];
    [congruence|].
  destruct cache_path as [p|]; [destruct Hopen; congruence|].
  destruct Hopen as (_ & -> & ->). simpl in Hcheck.
  rewrite bool_decide_eq_false_2 in Hcheck by done. rewrite Hcheck. simpl.
  split; [done|]. split; [done|]. split.
  - rewrite length_fmap. apply packages_to_check_bound.
  - intros rs Hrs. by apply (report_result E).
Qed.

Lemma _save_cache_creates s now (p : path) data :
  fs_readonly s = false → p.1 ∈ fs_dirs s → fs_files s !! p = None →
  _save_cache s now p data
    = (Ok (), mkFs (fs_dirs s) (<[p := mkFile now (Json data) true]> (fs_files s))
                   false).
Proof.
  intros Hrw Hdir Hfile. unfold _save_cache, open_write_dump.
  rewrite Hrw, Hfile. by rewrite bool_decide_eq_false_2 by (by intros []).
Qed.

Lemma _load_cache_no_advisory s now (p : path) max_age_hours :
  no_cached_advisory (fs_files s !! p) →
  ∃ cached, _load_cache s now p max_age_hours = Ok cached ∧
            ∃ v, py_get cached "vulns" VNone = Ok v ∧ truthy v = false.
Proof.
  intros [Hnone|[mtime Hfile]].
  - unfold _load_cache, path_exists. rewrite Hnone.
    rewrite bool_decide_eq_false_2 by (by intros [? ?]). simpl.
    exists (VDict ∅). split; [done|]. by exists VNone.
  - rewrite (_load_cache_file _ _ _ _ _ _ Hfile).
    destruct (expired now mtime max_age_hours).
    + exists (VDict ∅). split; [done|]. by exists VNone.
    + eexists. split; [done|]. by exists (VList []).
Qed.

(** X25. A clean result is never served from the cache.  On a system for
    which OSV lists no advisory, with a writable cache directory and a
    cache file that is missing or holds an empty list, every run of the
    CVE check asks OSV again about every package to check and reports "No
    known vulnerabilities", however short the time between the runs: the
    empty list a run saves is not taken as a cached value by the next. *)
Theorem clean_result_is_never_served_from_cache (s : fs) (times : list Z)
    (check_local : value) (C : cache_settings)
    (Hlocal : truthy check_local = true)
    (Huse : use_cache C = true)
    (Hpackages : Cves._get_local_packages W ≠ [])
    (Hclean : Cves.packages_to_check (Cves._get_local_packages W)
                ≫= Cves._query_osv W = [])
    (Hdir : expanduser E (cache_dir C) ∈ fs_dirs s)
    (Hrw : fs_readonly s = false)
    (Hfile : no_cached_advisory
               (fs_files s !! (expanduser E (cache_dir C), "cves.json"))) :
  Forall (λ r,
            lookups r = Cves.pkg_name <$>
                          Cves.packages_to_check (Cves._get_local_packages W) ∧
            outcome r = Ok [CheckResult_new "cves" OK
                              "CVEs: No known vulnerabilities"])
         (check_cves_at E W s times check_local C).
Proof.
  revert s Hdir Hrw Hfile.
  induction times as [|now times IH]; intros s Hdir Hrw Hfile; [constructor|].
  cbn [check_cves_at].
  destruct (check_cves_cases E W s now check_local C Hlocal)
    as [(e & s' & _ & Hpath & _)|(cache_path & cached & s' & Hopen & Hcheck)].
  { by rewrite (_get_cache_path_exists E "cves.json" s (cache_dir C) Hdir)
      in Hpath. }
  destruct cache_path as [p|]; [|destruct Hopen; congruence].
  destruct Hopen as (_ & Hpath & Hload).
  rewrite (_get_cache_path_exists E "cves.json" s (cache_dir C) Hdir) in Hpath.
  injection Hpath as <- <-.
  destruct (_load_cache_no_advisory s now
              (expanduser E (cache_dir C), "cves.json") (cache_hours C) Hfile)
    as (cached' & Hload' & v & Hget & Hfalsy).
  rewrite Hload in Hload'. injection Hload' as <-.
  rewrite Hget, Hfalsy in Hcheck.
  rewrite bool_decide_eq_false_2 in Hcheck by done.
  rewrite Hclean in Hcheck. rewrite Hcheck. cbn [fs_after].
  assert (Hsaved :
    (_save_cache s now (expanduser E (cache_dir C), "cves.json")
       (VDict {[ "vulns" := VList [] ]})).2
    = mkFs (fs_dirs s)
           (<[(expanduser E (cache_dir C), "cves.json") :=
                mkFile now (Json (VDict {[ "vulns" := VList [] ]})) true]>
              (fs_files s)) false).
  { destruct Hfile as [Hnone|[mtime Hsome]].
    - by rewrite (_save_cache_creates s now
                    (expanduser E (cache_dir C), "cves.json") _
                    Hrw Hdir Hnone).
    - by rewrite (_save_cache_goes_through s now
                    (expanduser E (cache_dir C), "cves.json") _ _
                    Hrw Hdir Hsome eq_refl). }
  rewrite Hsaved. constructor; [done|].
  apply IH; simpl; [done|done|].
  right. exists now. apply lookup_insert_eq.
Qed.


End cves_runs.

Lemma check_cves_without_cache_witness :
  lookups (Cves.check_cves plain_outside patched_world found_cves_fs 1000000
             (VBool true) (mkCache false "~/.cache/daily-hud" 12))
  = ["openssl"].
Proof.
  refine (proj1 (proj2 (check_cves_without_cache plain_outside patched_world
                          found_cves_fs 1000000 (VBool true)
                          (mkCache false "~/.cache/daily-hud" 12)
                          eq_refl eq_refl _))).
  done.
Defined.

(** Three runs one second apart. *)
Lemma clean_result_is_never_served_from_cache_witness :
  Forall (λ r, lookups r = ["openssl"])
         (check_cves_at plain_outside patched_world clean_cves_fs
            [1000000; 2000000; 3000000] (VBool true)
            (mkCache true "~/.cache/daily-hud" 12)).
Proof.
  eapply Forall_impl.
  - apply (clean_result_is_never_served_from_cache plain_outside patched_world
             clean_cves_fs [1000000; 2000000; 3000000] (VBool true)
             (mkCache true "~/.cache/daily-hud" 12) eq_refl eq_refl).
    + done.
    + reflexivity.
    + apply (bool_decide_unpack _). by vm_compute.
    + reflexivity.
    + right. exists 0. by vm_compute.
  - by intros r [Hlookups _].
Defined.



(** ** daily_hud.py: the [--json] flag *)

Section json_flag.

Lemma load_secrets_no_handler (a : args) (config : gmap string value)
    (O : op_cli) :
  load_secrets a config O
  = (secrets ← get_secrets O config; mret ([], secrets)).
Proof.
  unfold load_secrets, try_except.
  destruct (get_secrets O config) as [secrets|e] eqn:Hget; [done|].
  apply get_secrets_never_SecretsError in Hget.
  cbn [mbind exc_bind]. case_bool_decide as Hin; [|done].
  by apply list_elem_of_singleton in Hin.
Qed.

Lemma filter_submitted (checks_to_run : list string) :
  filter (λ ev, is_report ev = false) (Submit <$> checks_to_run)
  = Submit <$> checks_to_run.
Proof.
  induction checks_to_run as [|c l IH]; [done|].
  rewrite fmap_cons, filter_cons_True by done. by rewrite IH.
Qed.

Lemma filter_stderr (lines : list string) :
  filter (λ ev, is_report ev = false) (Stderr <$> lines) = Stderr <$> lines.
Proof.
  induction lines as [|c l IH]; [done|].
  rewrite fmap_cons, filter_cons_True by done. by rewrite IH.
Qed.

Lemma no_report_in (f : string → event) (l : list string) :
  (∀ x, is_report (f x) = false) →
  filter (λ ev, is_report ev = true) (f <$> l) = [] ∧
  (∀ ev, ev ∈ f <$> l → is_report ev = true → False).
Proof.
  intros Hf. split.
  - induction l as [|x l IH]; [done|].
    rewrite fmap_cons, filter_cons_False; [done|]. by rewrite Hf.
  - intros ev (x & -> & _)%list_elem_of_fmap. by rewrite Hf.
Qed.

Lemma no_warning_submitted (l : list string) :
  Forall (λ ev, ¬ is_secrets_warning ev) (Submit <$> l).
Proof. apply Forall_fmap, Forall_forall. intros x _ []. Qed.

(** X27. [--json] changes the form of the report and nothing else: with
    the same [--only] list, configuration and outside world, the run with
    [--json] and the run without it end in the same way, with the same
    exit status, and leave the same trace once the report is taken out;
    each prints at most one report, as its last event.  The warning
    "Could not load secrets" is printed in neither: [get_secrets] never
    raises [SecretsError], so the handler in [main] never runs. *)
Theorem json_flag_changes_the_report_only (only_list : option string)
    (config : gmap string value) (O : op_cli) (timeout : Z)
    (W : nat → unit_world) :
  term (main (mkArgs only_list true) config O timeout W)
    = term (main (mkArgs only_list false) config O timeout W) ∧
  filter (λ ev, is_report ev = false)
         (trace (main (mkArgs only_list true) config O timeout W))
    = filter (λ ev, is_report ev = false)
             (trace (main (mkArgs only_list false) config O timeout W)) ∧
  (∀ json,
     Forall (λ ev, ¬ is_secrets_warning ev)
            (trace (main (mkArgs only_list json) config O timeout W)) ∧
     (length (filter (λ ev, is_report ev = true)
                (trace (main (mkArgs only_list json) config O timeout W)))
      ≤ 1)%nat ∧
     (∀ ev, ev ∈ trace (main (mkArgs only_list json) config O timeout W) →
        is_report ev = true →
        last (trace (main (mkArgs only_list json) config O timeout W))
          = Some ev)).
Proof.
  assert (Hmain : ∀ json,
    main (mkArgs only_list json) config O timeout W
    = match get_secrets O config with
      | Raise e => mkMain [] (Uncaught e)
      | Ok _ =>
          match determine_checks (mkArgs only_list false) config with
          | Raise e => mkMain [] (Uncaught e)
          | Ok (inr lines) => mkMain (Stderr <$> lines) (SysExit 1)
          | Ok (inl checks_to_run) =>
              run_and_report (mkArgs only_list json) timeout W checks_to_run
          end
      end).
  { intros json. unfold main. rewrite load_secrets_no_handler.
    destruct (get_secrets O config) as [secrets|e]; [|done]. simpl.
    change (determine_checks (mkArgs only_list json) config)
      with (determine_checks (mkArgs only_list false) config).
    destruct (determine_checks (mkArgs only_list false) config)
      as [[checks_to_run|lines]|e]; try done.
    by destruct (run_and_report (mkArgs only_list json) timeout W checks_to_run). }
  assert (Hempty : ∀ t : list event, t = [] →
    Forall (λ ev, ¬ is_secrets_warning ev) t ∧
    (length (filter (λ ev, is_report ev = true) t) ≤ 1)%nat ∧
    (∀ ev, ev ∈ t → is_report ev = true → last t = Some ev)).
  { intros t ->. split; [constructor|]. split; [simpl; lia|].
    by intros ev ?%elem_of_nil. }
  rewrite !Hmain.
  destruct (get_secrets O config) as [secrets|e] eqn:Hget.
  2:{ split; [done|]. split; [done|]. intros json. rewrite Hmain, ?Hget.
      by apply Hempty. }
  destruct (determine_checks (mkArgs only_list false) config)
    as [[checks_to_run|lines]|e] eqn:Hdet.
  - destruct checks_to_run as [|c cs].
    { by apply determine_checks_registered in Hdet as [? _]. }
    unfold run_and_report.
    destruct (fan_in timeout (submit_all W (c :: cs))) as [st|e] eqn:Hfan.
    + cbn [trace term]. split; [done|]. split.
      { rewrite !filter_app, !filter_submitted. done. }
      intros json. rewrite Hmain, ?Hget, ?Hdet. unfold run_and_report.
      rewrite Hfan. cbn [trace].
      destruct (no_report_in Submit (c :: cs)) as [Hnone Hnot]; [done|].
      split.
      { apply Forall_app. split; [apply no_warning_submitted|].
        constructor; [|constructor]. destruct json; by intros []. }
      split.
      { rewrite filter_app, length_app, Hnone.
        destruct json; simpl; lia. }
      intros ev Hin Hrep. rewrite last_snoc.
      apply elem_of_app in Hin as [Hin|Hin]; [by destruct (Hnot ev)|].
      by apply list_elem_of_singleton in Hin as ->.
    + cbn [trace term]. split; [done|]. split; [done|].
      intros json. rewrite Hmain, ?Hget, ?Hdet. unfold run_and_report.
      rewrite Hfan. cbn [trace].
      destruct (no_report_in Submit (c :: cs)) as [Hnone Hnot]; [done|].
      split; [apply no_warning_submitted|]. rewrite Hnone.
      split; [simpl; lia|]. intros ev Hin Hrep. by destruct (Hnot ev).
  - cbn [trace term]. split; [done|]. split; [done|].
    intros json. rewrite Hmain, ?Hget, ?Hdet. cbn [trace].
    destruct (no_report_in Stderr lines) as [Hnone Hnot]; [done|].
    split.
    + unfold determine_checks in Hdet.
      destruct (only_given (mkArgs only_list false)) as [s|];
        [|by destruct (auto_select config)].
      destruct (invalid_checks (explicit_checks s)); [done|].
      injection Hdet as <-. repeat constructor; simpl; by intros [=].
    + rewrite Hnone. split; [simpl; lia|].
      intros ev Hin Hrep. by destruct (Hnot ev).
  - cbn [trace term]. split; [done|]. split; [done|].
    intros json. rewrite Hmain, ?Hget, ?Hdet. by apply Hempty.
Qed.

End json_flag.


(** ** checks/domains.py: an expired cache *)


